(** * CrewAI span attribute extraction
    (traces-observer-service/opensearch/crewai_process.go)

    A shallow embedding of the CrewAI attribute extractors of the traces
    observer service, and the properties of the extractors that the
    specification of the normalization engine relies on.

    Go strings are byte sequences: they are modelled by [string], whose
    characters ([ascii]) are the bytes.  Go's [int] is the 64-bit signed
    integer of the platforms the service is built for, modelled by [Z] with
    the range checks of the library written out.  A [map[string]interface{}]
    is an optional [gmap] ([None] is the nil map) whose values are a tagged
    union of the dynamic types that decoded telemetry carries. *)

From Stdlib Require Import ZArith NArith Lia Ascii SpecFloat.
From stdpp Require Import base option list gmap strings.

Local Open Scope Z_scope.

(* ===================================================================== *)
(** * Bytes and strings: the parts of Go's [strings], [unicode] and [fmt]
      packages that the extractors call *)
(* ===================================================================== *)

Definition code (c : ascii) : N := N_of_ascii c.

Definition LF : ascii := ascii_of_N 10.
Definition SP : ascii := ascii_of_N 32.

(** [strings.asciiSpace]: the table of the one-byte white space characters
    '\t', '\n', '\v', '\f', '\r' and ' '. *)
Definition asciiSpace (c : ascii) : bool :=
  ((9 <=? code c)%N && (code c <=? 13)%N) || (code c =? 32)%N.

(** The two-byte UTF-8 encodings of the runes on which [unicode.IsSpace]
    holds: U+0085 (NEL) and U+00A0 (NBSP). *)
Definition isSpace2 (c1 c2 : ascii) : bool :=
  (code c1 =? 194)%N && ((code c2 =? 133)%N || (code c2 =? 160)%N).

(** The three-byte ones: U+1680, U+2000..U+200A, U+2028, U+2029, U+202F,
    U+205F and U+3000. *)
Definition isSpace3 (c1 c2 c3 : ascii) : bool :=
  ((code c1 =? 225)%N && (code c2 =? 154)%N && (code c3 =? 128)%N)
  || ((code c1 =? 226)%N && (code c2 =? 128)%N &&
      (((128 <=? code c3)%N && (code c3 <=? 138)%N)
       || (code c3 =? 168)%N || (code c3 =? 169)%N || (code c3 =? 175)%N))
  || ((code c1 =? 226)%N && (code c2 =? 129)%N && (code c3 =? 159)%N)
  || ((code c1 =? 227)%N && (code c2 =? 128)%N && (code c3 =? 128)%N).

(** Width in bytes of the white space rune that [s] starts with, [0] when
    [s] does not start with one.  Decoding ([utf8.DecodeRuneInString],
    [range] over a string) yields a rune of [unicode.IsSpace] exactly on
    these encodings: an invalid or truncated sequence decodes to U+FFFD of
    width 1, which is not white space. *)
Definition spaceWidth (s : string) : nat :=
  match s with
  | EmptyString => 0
  | String c1 s1 =>
      if asciiSpace c1 then 1
      else match s1 with
           | EmptyString => 0
           | String c2 s2 =>
               if isSpace2 c1 c2 then 2
               else match s2 with
                    | EmptyString => 0
                    | String c3 _ => if isSpace3 c1 c2 c3 then 3 else 0
                    end
           end
  end%nat.

(** The same, read from the end of the string ([utf8.DecodeLastRuneInString]):
    the argument is the reversed string, so its first byte is the last byte
    of the rune. *)
Definition spaceWidthLast (r : string) : nat :=
  match r with
  | EmptyString => 0
  | String c1 r1 =>
      if asciiSpace c1 then 1
      else match r1 with
           | EmptyString => 0
           | String c2 r2 =>
               if isSpace2 c2 c1 then 2
               else match r2 with
                    | EmptyString => 0
                    | String c3 _ => if isSpace3 c3 c2 c1 then 3 else 0
                    end
           end
  end%nat.

(** Drops runes from the front of [s] for as long as [width] finds one;
    [skip] counts the bytes of the current rune that are still to drop. *)
Fixpoint dropRunes (width : string -> nat) (skip : nat) (s : string) : string :=
  match s with
  | EmptyString => EmptyString
  | String _ s' =>
      match skip with
      | S k => dropRunes width k s'
      | O => match width s with
             | O => s
             | S k => dropRunes width k s'
             end
      end
  end.

(** [strings.TrimLeftFunc(s, unicode.IsSpace)]. *)
Definition trimLeft (s : string) : string := dropRunes spaceWidth 0 s.

(** [strings.TrimRightFunc(s, unicode.IsSpace)]. *)
Definition trimRight (s : string) : string :=
  String.rev (dropRunes spaceWidthLast 0 (String.rev s)).

(** [strings.TrimSpace]: leading and trailing white space, as defined by
    Unicode, removed.  (The library strips ASCII white space in a fast path
    and hands the rest to [TrimFunc]; the result is the one of trimming the
    left end and then the right end.) *)
Definition strings_TrimSpace (s : string) : string := trimRight (trimLeft s).

(** [strings.HasPrefix(s, prefix)]. *)
Definition strings_HasPrefix (s prefix : string) : bool := String.prefix prefix s.

(** [strings.Fields]: the maximal runs of bytes between white space runes.
    [fieldsFrom skip s] returns the field that starts at the head of [s]
    (empty when [s] starts with white space or is empty) and the fields
    after it; [skip] counts the bytes of a white space rune still to pass. *)
Definition consField (f : string) (fs : list string) : list string :=
  match f with
  | EmptyString => fs
  | _ => f :: fs
  end.

Fixpoint fieldsFrom (skip : nat) (s : string) : string * list string :=
  match s with
  | EmptyString => (EmptyString, [])
  | String c s' =>
      match skip with
      | S k => let '(f, fs) := fieldsFrom k s' in (EmptyString, consField f fs)
      | O =>
          match spaceWidth s with
          | O => let '(f, fs) := fieldsFrom 0 s' in (String c f, fs)
          | S k => let '(f, fs) := fieldsFrom k s' in (EmptyString, consField f fs)
          end
      end
  end.

Definition strings_Fields (s : string) : list string :=
  let '(f, fs) := fieldsFrom 0 s in consField f fs.

(** [strings.Index(s, sep)] for a one-byte separator, with the two slices
    [s[:m]] and [s[m+1:]] that [SplitN] cuts at it. *)
Fixpoint cutAt (sep : ascii) (s : string) : option (string * string) :=
  match s with
  | EmptyString => None
  | String c s' =>
      if Ascii.eqb c sep then Some (EmptyString, s')
      else match cutAt sep s' with
           | Some (before, after) => Some (String c before, after)
           | None => None
           end
  end.

(** [strings.SplitN(s, sep, 2)] for a one-byte separator: [s] cut at the
    first [sep], or [s] alone when there is none. *)
Definition strings_SplitN_2 (s : string) (sep : ascii) : list string :=
  match cutAt sep s with
  | Some (before, after) => [before; after]
  | None => [s]
  end.

(** ** [fmt.Sscanf(str, "%d", &n)] *)

Definition isDigit (c : ascii) : bool := (48 <=? code c)%N && (code c <=? 57)%N.

Definition digitVal (c : ascii) : Z := Z.of_N (code c) - 48.

(** [scanNumber]: accepts decimal digits for as long as there are some; the
    token is then read in base 10 ([strconv.ParseInt]). *)
Fixpoint scanDigits (acc : Z) (s : string) : Z :=
  match s with
  | EmptyString => acc
  | String c s' => if isDigit c then scanDigits (10 * acc + digitVal c) s' else acc
  end.

(** [ss.SkipSpace] as [Sscanf] runs it (newlines are not white space there):
    [None] is the error "unexpected newline". *)
Fixpoint skipSpace (skip : nat) (s : string) : option string :=
  match s with
  | EmptyString => Some EmptyString
  | String c s' =>
      match skip with
      | S k => skipSpace k s'
      | O => if Ascii.eqb c LF then None
             else match spaceWidth s with
                  | O => Some s
                  | S k => skipSpace k s'
                  end
      end
  end.

Definition maxInt : Z := 2 ^ 63 - 1.
Definition minInt : Z := - 2 ^ 63.

(** [strconv.ParseInt(tok, 10, 64)] on a token made of a sign and decimal
    digits of value [n]: out of range is an error. *)
Definition parseIntRange (neg : bool) (n : Z) : option Z :=
  if neg then (if n <=? 2 ^ 63 then Some (- n) else None)
  else (if n <=? maxInt then Some n else None).

(** [scanInt] for the verb [%d]: an optional sign, then at least one digit. *)
Definition scanInt (s : string) : option Z :=
  match s with
  | EmptyString => None
  | String c s' =>
      let neg := Ascii.eqb c "-" in
      let digits := if Ascii.eqb c "-" || Ascii.eqb c "+" then s' else s in
      match digits with
      | EmptyString => None
      | String d _ =>
          if isDigit d then parseIntRange neg (scanDigits 0 digits) else None
      end
  end.

(** The value stored through the pointer when the scan succeeds ([err == nil]),
    [None] when [Sscanf] returns an error (the variable is then untouched).
    What follows the number in [str] is left unread and is no error. *)
Definition fmt_Sscanf_d (str : string) : option Z :=
  match skipSpace 0 str with
  | None => None
  | Some s => scanInt s
  end.

(** ** [strings.ToLower] *)

(** An upper-case ASCII letter becomes the lower-case one. *)
Definition lowerByte (c : ascii) : ascii :=
  if (65 <=? code c)%N && (code c <=? 90)%N then ascii_of_N (code c + 32) else c.

Fixpoint isASCII (s : string) : bool :=
  match s with
  | EmptyString => true
  | String c s' => (code c <? 128)%N && isASCII s'
  end.

Fixpoint lowerASCII (s : string) : string :=
  match s with
  | EmptyString => EmptyString
  | String c s' => String (lowerByte c) (lowerASCII s')
  end.

(** [strings.ToLower].  A string of ASCII bytes only is lowered byte by byte;
    any other string goes through [strings.Map(unicode.ToLower, s)], which
    depends on the Unicode case tables: that part is the parameter
    [mapUnicodeToLower]. *)
Definition strings_ToLower (mapUnicodeToLower : string -> string) (s : string) : string :=
  if isASCII s then lowerASCII s else mapUnicodeToLower s.

(** ** [strings.Map] and [unicode.ToLower]: lower-casing beyond ASCII *)

(** A byte as an integer, and the conversion [byte(x)] of an integer, which
    keeps its low eight bits. *)
Definition byteVal (c : ascii) : Z := Z.of_N (code c).

Definition byteOf (x : Z) : ascii := ascii_of_N (Z.to_N (Z.land x 255)).

(** [utf8.RuneError], U+FFFD. *)
Definition RuneError : Z := 65533.

(** [utf8.first] and [utf8.acceptRanges] for a leading byte above the ASCII
    range: the size of the sequence that the byte starts and the bounds of
    its second byte; [None] for a byte that starts no sequence. *)
Definition utf8_first (s0 : Z) : option (nat * Z * Z) :=
  if (194 <=? s0) && (s0 <=? 223) then Some (2%nat, 128, 191)
  else if s0 =? 224 then Some (3%nat, 160, 191)
  else if (225 <=? s0) && (s0 <=? 236) then Some (3%nat, 128, 191)
  else if s0 =? 237 then Some (3%nat, 128, 159)
  else if (238 <=? s0) && (s0 <=? 239) then Some (3%nat, 128, 191)
  else if s0 =? 240 then Some (4%nat, 144, 191)
  else if (241 <=? s0) && (s0 <=? 243) then Some (4%nat, 128, 191)
  else if s0 =? 244 then Some (4%nat, 128, 143)
  else None.

(** A continuation byte outside [locb..hicb]. *)
Definition notContinuation (b : Z) : bool := (b <? 128) || (191 <? b).

(** [utf8.DecodeRuneInString]: the rune that [s] starts with and its width
    in bytes.  An invalid or truncated sequence gives [RuneError] of width
    1, the empty string [RuneError] of width 0. *)
Definition utf8_DecodeRuneInString (s : string) : Z * nat :=
  match s with
  | EmptyString => (RuneError, 0%nat)
  | String c0 t0 =>
      let s0 := byteVal c0 in
      if s0 <? 128 then (s0, 1%nat)
      else
        match utf8_first s0 with
        | None => (RuneError, 1%nat)
        | Some (sz, lo, hi) =>
            match t0 with
            | EmptyString => (RuneError, 1%nat)
            | String c1 t1 =>
                let s1 := byteVal c1 in
                if (s1 <? lo) || (hi <? s1) then (RuneError, 1%nat)
                else if (sz <=? 2)%nat
                then (Z.lor (Z.shiftl (Z.land s0 31) 6) (Z.land s1 63), 2%nat)
                else
                  match t1 with
                  | EmptyString => (RuneError, 1%nat)
                  | String c2 t2 =>
                      let s2 := byteVal c2 in
                      if notContinuation s2 then (RuneError, 1%nat)
                      else if (sz <=? 3)%nat
                      then (Z.lor (Z.lor (Z.shiftl (Z.land s0 15) 12)
                                         (Z.shiftl (Z.land s1 63) 6))
                                  (Z.land s2 63), 3%nat)
                      else
                        match t2 with
                        | EmptyString => (RuneError, 1%nat)
                        | String c3 _ =>
                            let s3 := byteVal c3 in
                            if notContinuation s3 then (RuneError, 1%nat)
                            else (Z.lor (Z.lor (Z.lor (Z.shiftl (Z.land s0 7) 18)
                                                      (Z.shiftl (Z.land s1 63) 12))
                                               (Z.shiftl (Z.land s2 63) 6))
                                        (Z.land s3 63), 4%nat)
                        end
                  end
            end
        end
  end.

(** The bytes [tx|byte(x)&maskx] of a continuation. *)
Definition continuation (x : Z) : ascii := byteOf (Z.lor 128 (Z.land (Z.land x 255) 63)).

(** [utf8.AppendRune] on the empty slice: the UTF-8 encoding of [r]; a
    surrogate or a value out of range is written as U+FFFD. *)
Definition utf8_AppendRune (r : Z) : string :=
  if (0 <=? r) && (r <=? 127) then String (byteOf r) ""
  else if (0 <=? r) && (r <=? 2047)
  then String (byteOf (Z.lor 192 (Z.land (Z.shiftr r 6) 255)))
         (String (continuation r) "")
  else
    let r := if (r <? 0) || (1114111 <? r) || ((55296 <=? r) && (r <=? 57343))
             then RuneError else r in
    if r <=? 65535
    then String (byteOf (Z.lor 224 (Z.land (Z.shiftr r 12) 255)))
           (String (continuation (Z.shiftr r 6)) (String (continuation r) ""))
    else String (byteOf (Z.lor 240 (Z.land (Z.shiftr r 18) 255)))
           (String (continuation (Z.shiftr r 12))
              (String (continuation (Z.shiftr r 6)) (String (continuation r) ""))).

(** The loop of [strings.Map]: the runes of [s] one after the other, each
    replaced by the encoding of its image, a negative image dropped;
    [skip] counts the bytes of the current rune that are still to pass.
    (The library copies the bytes before the first rune that changes as
    they are; a rune that decodes without error has one encoding only, so
    that the copy is what encoding the runes again gives.) *)
Fixpoint mapRunes (mapping : Z -> Z) (skip : nat) (s : string) : string :=
  match s with
  | EmptyString => EmptyString
  | String _ s' =>
      match skip with
      | S k => mapRunes mapping k s'
      | O =>
          let '(c, width) := utf8_DecodeRuneInString s in
          let r := mapping c in
          (if 0 <=? r then utf8_AppendRune r else "")
          +:+ mapRunes mapping (width - 1) s'
      end
  end.

(** [strings.Map(mapping, s)]. *)
Definition strings_Map (mapping : Z -> Z) (s : string) : string := mapRunes mapping 0 s.

(** How [unicode.CaseRanges] moves the runes of a range to lower case: by
    a fixed distance, or, in a range where capital and small letters
    alternate ([UpperLower]), to the small letter of the pair. *)
Inductive caseDelta : Type :=
  | Delta (d : Z)
  | UpperLower.

(** The lower-case column of [unicode.CaseRanges], the simple lower-case
    mappings of the Unicode Character Database: the ranges of runes that
    lower-casing moves, each with its first rune, its last rune and the way
    its runes are moved. *)
Definition CaseRanges : list (Z * Z * caseDelta) :=
  [(65, 90, Delta 32); (192, 214, Delta 32); (216, 222, Delta 32);
   (256, 303, UpperLower); (304, 304, Delta (-199)); (306, 311, UpperLower);
   (313, 328, UpperLower); (330, 375, UpperLower); (376, 376, Delta (-121));
   (377, 382, UpperLower); (385, 385, Delta 210); (386, 389, UpperLower);
   (390, 390, Delta 206); (391, 391, Delta 1); (393, 394, Delta 205);
   (395, 395, Delta 1); (398, 398, Delta 79); (399, 399, Delta 202);
   (400, 400, Delta 203); (401, 401, Delta 1); (403, 403, Delta 205);
   (404, 404, Delta 207); (406, 406, Delta 211); (407, 407, Delta 209);
   (408, 408, Delta 1); (412, 412, Delta 211); (413, 413, Delta 213);
   (415, 415, Delta 214); (416, 421, UpperLower); (422, 422, Delta 218);
   (423, 423, Delta 1); (425, 425, Delta 218); (428, 428, Delta 1);
   (430, 430, Delta 218); (431, 431, Delta 1); (433, 434, Delta 217);
   (435, 438, UpperLower); (439, 439, Delta 219); (440, 440, Delta 1);
   (444, 444, Delta 1); (452, 452, Delta 2); (453, 453, Delta 1);
   (455, 455, Delta 2); (456, 456, Delta 1); (458, 458, Delta 2);
   (459, 476, UpperLower); (478, 495, UpperLower); (497, 497, Delta 2);
   (498, 501, UpperLower); (502, 502, Delta (-97)); (503, 503, Delta (-56));
   (504, 543, UpperLower); (544, 544, Delta (-130)); (546, 563, UpperLower);
   (570, 570, Delta 10795); (571, 571, Delta 1); (573, 573, Delta (-163));
   (574, 574, Delta 10792); (577, 577, Delta 1); (579, 579, Delta (-195));
   (580, 580, Delta 69); (581, 581, Delta 71); (582, 591, UpperLower);
   (880, 883, UpperLower); (886, 886, Delta 1); (895, 895, Delta 116);
   (902, 902, Delta 38); (904, 906, Delta 37); (908, 908, Delta 64);
   (910, 911, Delta 63); (913, 929, Delta 32); (931, 939, Delta 32);
   (975, 975, Delta 8); (984, 1007, UpperLower); (1012, 1012, Delta (-60));
   (1015, 1015, Delta 1); (1017, 1017, Delta (-7)); (1018, 1018, Delta 1);
   (1021, 1023, Delta (-130)); (1024, 1039, Delta 80);
   (1040, 1071, Delta 32); (1120, 1153, UpperLower);
   (1162, 1215, UpperLower); (1216, 1216, Delta 15);
   (1217, 1230, UpperLower); (1232, 1327, UpperLower);
   (1329, 1366, Delta 48); (4256, 4293, Delta 7264);
   (4295, 4295, Delta 7264); (4301, 4301, Delta 7264);
   (5024, 5103, Delta 38864); (5104, 5109, Delta 8);
   (7312, 7354, Delta (-3008)); (7357, 7359, Delta (-3008));
   (7680, 7829, UpperLower); (7838, 7838, Delta (-7615));
   (7840, 7935, UpperLower); (7944, 7951, Delta (-8));
   (7960, 7965, Delta (-8)); (7976, 7983, Delta (-8));
   (7992, 7999, Delta (-8)); (8008, 8013, Delta (-8));
   (8025, 8025, Delta (-8)); (8027, 8027, Delta (-8));
   (8029, 8029, Delta (-8)); (8031, 8031, Delta (-8));
   (8040, 8047, Delta (-8)); (8072, 8079, Delta (-8));
   (8088, 8095, Delta (-8)); (8104, 8111, Delta (-8));
   (8120, 8121, Delta (-8)); (8122, 8123, Delta (-74));
   (8124, 8124, Delta (-9)); (8136, 8139, Delta (-86));
   (8140, 8140, Delta (-9)); (8152, 8153, Delta (-8));
   (8154, 8155, Delta (-100)); (8168, 8169, Delta (-8));
   (8170, 8171, Delta (-112)); (8172, 8172, Delta (-7));
   (8184, 8185, Delta (-128)); (8186, 8187, Delta (-126));
   (8188, 8188, Delta (-9)); (8486, 8486, Delta (-7517));
   (8490, 8490, Delta (-8383)); (8491, 8491, Delta (-8262));
   (8498, 8498, Delta 28); (8544, 8559, Delta 16); (8579, 8579, Delta 1);
   (9398, 9423, Delta 26); (11264, 11311, Delta 48); (11360, 11360, Delta 1);
   (11362, 11362, Delta (-10743)); (11363, 11363, Delta (-3814));
   (11364, 11364, Delta (-10727)); (11367, 11372, UpperLower);
   (11373, 11373, Delta (-10780)); (11374, 11374, Delta (-10749));
   (11375, 11375, Delta (-10783)); (11376, 11376, Delta (-10782));
   (11378, 11378, Delta 1); (11381, 11381, Delta 1);
   (11390, 11391, Delta (-10815)); (11392, 11491, UpperLower);
   (11499, 11502, UpperLower); (11506, 11506, Delta 1);
   (42560, 42605, UpperLower); (42624, 42651, UpperLower);
   (42786, 42799, UpperLower); (42802, 42863, UpperLower);
   (42873, 42876, UpperLower); (42877, 42877, Delta (-35332));
   (42878, 42887, UpperLower); (42891, 42891, Delta 1);
   (42893, 42893, Delta (-42280)); (42896, 42899, UpperLower);
   (42902, 42921, UpperLower); (42922, 42922, Delta (-42308));
   (42923, 42923, Delta (-42319)); (42924, 42924, Delta (-42315));
   (42925, 42925, Delta (-42305)); (42926, 42926, Delta (-42308));
   (42928, 42928, Delta (-42258)); (42929, 42929, Delta (-42282));
   (42930, 42930, Delta (-42261)); (42931, 42931, Delta 928);
   (42932, 42947, UpperLower); (42948, 42948, Delta (-48));
   (42949, 42949, Delta (-42307)); (42950, 42950, Delta (-35384));
   (42951, 42954, UpperLower); (42960, 42960, Delta 1);
   (42966, 42969, UpperLower); (42997, 42997, Delta 1);
   (65313, 65338, Delta 32); (66560, 66599, Delta 40);
   (66736, 66771, Delta 40); (66928, 66938, Delta 39);
   (66940, 66954, Delta 39); (66956, 66962, Delta 39);
   (66964, 66965, Delta 39); (68736, 68786, Delta 64);
   (71840, 71871, Delta 32); (93760, 93791, Delta 32);
   (125184, 125217, Delta 34)].

(** [unicode.to(LowerCase, r, caseRange)]: the range that holds [r] decides;
    a rune in no range stays as it is.  (The library finds the range by
    binary search; the ranges do not overlap.) *)
Fixpoint to_LowerCase (r : Z) (caseRange : list (Z * Z * caseDelta)) : Z :=
  match caseRange with
  | [] => r
  | (lo, hi, delta) :: rest =>
      if (lo <=? r) && (r <=? hi)
      then match delta with
           | UpperLower => lo + Z.lor (Z.land (r - lo) (Z.lnot 1)) 1
           | Delta d => r + d
           end
      else to_LowerCase r rest
  end.

(** [unicode.ToLower]. *)
Definition unicode_ToLower (r : Z) : Z :=
  if r <=? 127
  then (if (65 <=? r) && (r <=? 90) then r + 32 else r)
  else to_LowerCase r CaseRanges.

(** [strings.Map(unicode.ToLower, s)], the way [strings.ToLower] lowers a
    string that is not made of ASCII bytes only: the value of the parameter
    of [strings_ToLower] with the library's own tables. *)
Definition mapToLower (s : string) : string := strings_Map unicode_ToLower s.

(* ===================================================================== *)
(** * Data model *)
(* ===================================================================== *)

(** [interface{}]: the dynamic values found in a decoded attribute map. *)
#[warning="-register-all"]
Inductive Value : Type :=
  | VNil
  | VString (s : string)
  | VFloat64 (f : spec_float)
  | VBool (b : bool)
  | VSlice (elems : list Value)
  | VMap (entries : list (string * Value)).

(** [map[string]interface{}]; [None] is the nil map. *)
Abbreviation attrMap := (option (gmap string Value)).

(** [attrs[key]] with the comma-ok result; reading a nil map finds nothing. *)
Definition mapIndex (attrs : attrMap) (key : string) : option Value :=
  match attrs with
  | None => None
  | Some m => m !! key
  end.

(** The type assertion [v.(string)] with the comma-ok result. *)
Definition assertString (v : option Value) : option string :=
  match v with
  | Some (VString s) => Some s
  | _ => None
  end.

(** The type assertion [v.(float64)] with the comma-ok result. *)
Definition assertFloat64 (v : option Value) : option spec_float :=
  match v with
  | Some (VFloat64 f) => Some f
  | _ => None
  end.

(** The conversion [int(f)]: the fraction is discarded (truncation towards
    zero).  The language leaves the result open when the value does not fit;
    amd64 yields the smallest [int] there, and so does this model. *)
Definition float64ToInt (f : spec_float) : Z :=
  match f with
  | S754_zero _ => 0
  | S754_finite s m e =>
      let mag := if 0 <=? e then Z.pos m * 2 ^ e else Z.pos m / 2 ^ (- e) in
      let v := if s then - mag else mag in
      if (minInt <=? v) && (v <=? maxInt) then v else minInt
  | _ => minInt
  end.

(** A Go slice value: the nil slice and a non-nil slice are different values
    ([== nil] tells them apart, and so does their JSON encoding), both may
    have length 0. *)
Inductive slice (A : Type) : Type :=
  | nilSlice
  | mkSlice (elems : list A).
Arguments nilSlice {A}.
Arguments mkSlice {A} elems.

Definition len {A} (s : slice A) : nat :=
  match s with
  | nilSlice => 0
  | mkSlice elems => length elems
  end.

Definition isNil {A} (s : slice A) : bool :=
  match s with
  | nilSlice => true
  | mkSlice _ => false
  end.

(** Modelled from the spec: the declarations of [ToolDefinition],
    [LLMTokenUsage], [AgentData] and [AmpAttributes] are in other files of
    the package; the records below have the fields that the specification's
    data model lists and that crewai_process.go assigns. *)
Module ToolDefinition.
Record t : Type := mk { Name : string; Description : string; Parameters : string }.
End ToolDefinition.

Module LLMTokenUsage.
Record t : Type := mk {
  TotalTokens : Z;
  InputTokens : Z;
  OutputTokens : Z;
  CacheReadInputTokens : Z
}.
(** The zero value [LLMTokenUsage{}]. *)
Definition zero : t := mk 0 0 0 0.
End LLMTokenUsage.

Module AgentData.
Record t : Type := mk {
  Framework : string;
  Name : string;
  Tools : slice ToolDefinition.t;
  SystemPrompt : string;
  MaxIter : Z;
  TokenUsage : option LLMTokenUsage.t
}.
End AgentData.

Module AmpAttributes.
Record t : Type := mk {
  Input : Value;
  Output : Value;
  Data : option AgentData.t
}.
End AmpAttributes.

(* ===================================================================== *)
(** * The extractors of crewai_process.go *)
(* ===================================================================== *)

(** The loop [for key := range attrs] of [IsCrewAISpan], over the keys in
    the order in which the runtime enumerates them. *)
Fixpoint rangeHasCrewAIKey (keys : list string) : bool :=
  match keys with
  | [] => false
  | key :: rest =>
      if strings_HasPrefix key "crewai." then true else rangeHasCrewAIKey rest
  end.

(** [IsCrewAISpan].  Go leaves the iteration order of a map unspecified:
    [rangeOrder] is the order the runtime picks for this call. *)
Definition IsCrewAISpan (mapUnicodeToLower : string -> string)
    (rangeOrder : list string) (attrs : attrMap) : bool :=
  match attrs with
  | None => false
  | Some _ =>
      match assertString (mapIndex attrs "gen_ai.system") with
      | Some val =>
          if String.eqb (strings_ToLower mapUnicodeToLower val) "crewai" then true
          else rangeHasCrewAIKey rangeOrder
      | None => rangeHasCrewAIKey rangeOrder
      end
  end.

(** [rangeOrder] is an order in which [range attrs] can run: each key once. *)
Definition enumerates (rangeOrder : list string) (attrs : attrMap) : Prop :=
  match attrs with
  | None => rangeOrder = []
  | Some m => rangeOrder ≡ₚ elements (dom m)
  end.

(** [ExtractCrewAISpanInputOutput]. *)
Definition ExtractCrewAISpanInputOutput (attrs : attrMap) : Value * Value :=
  match attrs with
  | None => (VNil, VNil)
  | Some _ =>
      let input :=
        match mapIndex attrs "crewai.crew.tasks_output" with
        | Some tasksVal =>
            match assertString (Some tasksVal) with
            | Some tasksStr => VString tasksStr
            | None => VNil
            end
        | None => VNil
        end in
      let output :=
        match mapIndex attrs "crewai.crew.result" with
        | Some resultVal =>
            match assertString (Some resultVal) with
            | Some resultStr => VString resultStr
            | None => VNil
            end
        | None => VNil
        end in
      (input, output)
  end.

(** [extractCrewAISystemPrompt]; the [strings.Builder] is the string built
    so far. *)
Definition extractCrewAISystemPrompt (attrs : attrMap) : string :=
  let role :=
    match assertString (mapIndex attrs "crewai.agent.role") with
    | Some r => strings_TrimSpace r
    | None => ""
    end in
  let goal :=
    match assertString (mapIndex attrs "crewai.agent.goal") with
    | Some g => strings_TrimSpace g
    | None => ""
    end in
  let backstory :=
    match assertString (mapIndex attrs "crewai.agent.backstory") with
    | Some b => strings_TrimSpace b
    | None => ""
    end in
  if String.eqb role "" && String.eqb goal "" && String.eqb backstory "" then ""
  else
    let prompt := "" in
    let prompt :=
      if negb (String.eqb role "")
      then prompt +:+ ("role: >" +:+ String LF "  ") +:+ role +:+ String LF ""
      else prompt in
    let prompt :=
      if negb (String.eqb goal "")
      then prompt +:+ ("goal: >" +:+ String LF "  ") +:+ goal +:+ String LF ""
      else prompt in
    let prompt :=
      if negb (String.eqb backstory "")
      then prompt +:+ ("backstory: >" +:+ String LF "  ") +:+ backstory
      else prompt in
    strings_TrimSpace prompt.

(** The body of the loop over the pairs in [parseCrewAITokenUsage]: [usage]
    after the pair [pair] has been looked at. *)
Definition parsePair (usage : LLMTokenUsage.t) (pair : string) : LLMTokenUsage.t :=
  match strings_SplitN_2 pair "=" with
  | [key; value] =>
      match fmt_Sscanf_d value with
      | None => usage
      | Some numValue =>
          let '(LLMTokenUsage.mk total input output cached) := usage in
          if String.eqb key "total_tokens"
          then LLMTokenUsage.mk numValue input output cached
          else if String.eqb key "prompt_tokens"
          then LLMTokenUsage.mk total numValue output cached
          else if String.eqb key "completion_tokens"
          then LLMTokenUsage.mk total input numValue cached
          else if String.eqb key "cached_prompt_tokens"
          then LLMTokenUsage.mk total input output numValue
          else usage
      end
  | _ => usage
  end.

(** [parseCrewAITokenUsage]; [None] is the nil pointer. *)
Definition parseCrewAITokenUsage (tokenUsageStr : string) : option LLMTokenUsage.t :=
  if String.eqb tokenUsageStr "" then None
  else
    let pairs := strings_Fields tokenUsageStr in
    let usage := fold_left parsePair pairs LLMTokenUsage.zero in
    if (0 <? LLMTokenUsage.TotalTokens usage)
       || (0 <? LLMTokenUsage.InputTokens usage)
       || (0 <? LLMTokenUsage.OutputTokens usage)
    then Some usage
    else None.

Section Extractors.

(** [parseToolsJSON] is defined in process.go, another file of the package:
    the tool list decoder is a parameter.  It is a function: by its contract
    it returns a sequence for any text and raises no error. *)
Variable parseToolsJSON : string -> slice ToolDefinition.t.

(** [extractCrewAIAgentTools]. *)
Definition extractCrewAIAgentTools (attrs : attrMap) : slice ToolDefinition.t :=
  match assertString (mapIndex attrs "crewai.agent.tools") with
  | None => nilSlice
  | Some toolsJSON =>
      if String.eqb toolsJSON "" then nilSlice else parseToolsJSON toolsJSON
  end.

(** [PopulateCrewAIAgentAttributes].  [ampAttrs] is the pointer argument:
    [None] is the nil pointer, and the result is the record it points to
    when the function returns, [None] when the call panics (the first
    assignment through a nil pointer). *)
Definition PopulateCrewAIAgentAttributes
    (ampAttrs : option AmpAttributes.t) (attrs : attrMap) : option AmpAttributes.t :=
  match ampAttrs with
  | None => None
  | Some _ =>
      let '(input, output) := ExtractCrewAISpanInputOutput attrs in
      let name :=
        match assertString (mapIndex attrs "crewai.agent.role") with
        | Some name => strings_TrimSpace name
        | None =>
            match assertString (mapIndex attrs "crewai.crew.name") with
            | Some name => name
            | None => ""
            end
        end in
      let tools := extractCrewAIAgentTools attrs in
      let systemPrompt := extractCrewAISystemPrompt attrs in
      let maxIter :=
        match assertFloat64 (mapIndex attrs "crewai.agent.max_iter") with
        | Some maxIter => float64ToInt maxIter
        | None => 0
        end in
      let tokenUsage :=
        match assertString (mapIndex attrs "crewai.crew.token_usage") with
        | Some tokenUsageStr => parseCrewAITokenUsage tokenUsageStr
        | None => None
        end in
      let agentData := AgentData.mk "crewai" name tools systemPrompt maxIter tokenUsage in
      Some (AmpAttributes.mk input output (Some agentData))
  end.

End Extractors.

(* ===================================================================== *)
(** * The specification's reading of the extractors *)
(* ===================================================================== *)

(** The value of a prompt field as the composer sees it: the attribute when
    it is a string, trimmed; empty when it is absent or of another type. *)
Definition promptField (attrs : attrMap) (key : string) : string :=
  match assertString (mapIndex attrs key) with
  | Some v => strings_TrimSpace v
  | None => ""
  end.

(** The value of a prompt field as the map holds it: the attribute when it
    is a string, empty when it is absent or of another type. *)
Definition storedField (attrs : attrMap) (key : string) : string :=
  match assertString (mapIndex attrs key) with
  | Some v => v
  | None => ""
  end.

(** The block of one field, in the words of the specification:
    ["<fieldName>: >\n  <value>\n"], and nothing for a blank field. *)
Definition promptBlock (fieldName value : string) : string :=
  if String.eqb value "" then ""
  else fieldName +:+ (": >" +:+ String LF "  ") +:+ value +:+ String LF "".

(** The composer in the words of the specification: the blocks of role, goal
    and backstory in this order, trailing white space trimmed. *)
Definition composePromptSpec (role goal backstory : string) : string :=
  trimRight (promptBlock "role" role +:+ promptBlock "goal" goal
             +:+ promptBlock "backstory" backstory).

(** The attribute map that holds the three prompt fields as strings. *)
Definition promptAttrs (role goal backstory : string) : attrMap :=
  Some {[ "crewai.agent.role" := VString role;
          "crewai.agent.goal" := VString goal;
          "crewai.agent.backstory" := VString backstory ]}.

(** A typed lookup: the attribute when it is a string, nil otherwise. *)
Definition stringOrNil (v : option Value) : Value :=
  match v with
  | Some (VString s) => VString s
  | _ => VNil
  end.

Definition promptKeys : list string :=
  ["crewai.agent.role"; "crewai.agent.goal"; "crewai.agent.backstory"].

(** The agent data that a call leaves in the record behind the pointer. *)
Definition agentDataOf (r : option AmpAttributes.t) : option AgentData.t :=
  match r with
  | Some amp => AmpAttributes.Data amp
  | None => None
  end.

(** The two maps hold the same thing under each of the keys. *)
Definition agreeOn (keys : list string) (a b : attrMap) : Prop :=
  forall k, In k keys -> mapIndex a k = mapIndex b k.

(** The tools attribute is absent, is not a string, or is the empty string. *)
Definition noToolsAttribute (attrs : attrMap) : Prop :=
  mapIndex attrs "crewai.agent.tools" = None
  \/ (exists v, mapIndex attrs "crewai.agent.tools" = Some v /\ forall s, v <> VString s)
  \/ mapIndex attrs "crewai.agent.tools" = Some (VString "").

(** The marker attribute is a string that [strings.ToLower] turns into
    "crewai". *)
Definition markerIsCrewAI (mapUnicodeToLower : string -> string) (attrs : attrMap) : Prop :=
  exists val, mapIndex attrs "gen_ai.system" = Some (VString val)
              /\ strings_ToLower mapUnicodeToLower val = "crewai".

(** Some key of the map starts with "crewai.". *)
Definition hasCrewAIKey (attrs : attrMap) : Prop :=
  exists key rest v, key = "crewai." +:+ rest /\ mapIndex attrs key = Some v.

(** An ASCII letter. *)
Definition isLetter (c : ascii) : bool :=
  ((65 <=? code c)%N && (code c <=? 90)%N) || ((97 <=? code c)%N && (code c <=? 122)%N).

(** Two bytes that are equal, or that are the capital and the small form of
    one ASCII letter, which are 32 apart. *)
Definition sameLetter (a b : ascii) : bool :=
  Ascii.eqb a b
  || (isLetter a && isLetter b
      && ((code a =? code b + 32)%N || (code b =? code a + 32)%N)).

(** Equality of two strings under case-insensitive comparison: byte by
    byte, the case of the ASCII letters left aside.  (Compared with a word
    of the letters c, r, e, w, a and i this is also what Unicode's simple
    case folding, [strings.EqualFold], decides: no rune beyond ASCII folds
    to one of these letters.) *)
Fixpoint equalIgnoringCase (a b : string) : bool :=
  match a, b with
  | EmptyString, EmptyString => true
  | String x a', String y b' => sameLetter x y && equalIgnoringCase a' b'
  | _, _ => false
  end.

(** U+0130, LATIN CAPITAL LETTER I WITH DOT ABOVE, in UTF-8. *)
Definition dottedI : string := String (byteOf 196) (String (byteOf 176) "").

(** The values that lower-casing turns into "crewai": the word with each
    letter in either case, and the same with U+0130 for its last letter. *)
Definition spellsCrewAI (val : string) : bool :=
  equalIgnoringCase val "crewai" || equalIgnoringCase val ("crewa" +:+ dottedI).

(** A range of the case table under which no rune beyond ASCII lands in
    ASCII, the ranges of U+0130 (to i) and U+212A (to k) apart. *)
Definition staysBeyondASCII (entry : Z * Z * caseDelta) : bool :=
  let '(lo, hi, delta) := entry in
  (hi <? 128)
  || match delta with
     | UpperLower => 128 <=? lo
     | Delta d =>
         (128 <=? lo + d)
         || ((lo =? 304) && (hi =? 304) && (d =? -199))
         || ((lo =? 8490) && (hi =? 8490) && (d =? -8383))
     end.

(** The marker attribute is a string equal to "crewai" under
    case-insensitive comparison. *)
Definition markerEqualsCrewAI (attrs : attrMap) : Prop :=
  exists val, mapIndex attrs "gen_ai.system" = Some (VString val)
              /\ equalIgnoringCase val "crewai" = true.

(** The marker attribute is a string that spells "crewai". *)
Definition markerSpellsCrewAI (attrs : attrMap) : Prop :=
  exists val, mapIndex attrs "gen_ai.system" = Some (VString val)
              /\ spellsCrewAI val = true.

(** A span whose marker is "CREWA" followed by U+0130, and no other
    attribute. *)
Definition dottedMarker : attrMap :=
  Some {[ "gen_ai.system" := VString ("CREWA" +:+ dottedI) ]}.

(** [c] occurs in [s]. *)
Fixpoint hasByte (c : ascii) (s : string) : bool :=
  match s with
  | EmptyString => false
  | String x s' => Ascii.eqb x c || hasByte c s'
  end.

(** The test that guards the result of [parseCrewAITokenUsage]. *)
Definition hasPositive (usage : LLMTokenUsage.t) : bool :=
  (0 <? LLMTokenUsage.TotalTokens usage)
  || (0 <? LLMTokenUsage.InputTokens usage)
  || (0 <? LLMTokenUsage.OutputTokens usage).

(** The record after the loop over the pairs. *)
Definition usageAfterPairs (tokenUsageStr : string) : LLMTokenUsage.t :=
  fold_left parsePair (strings_Fields tokenUsageStr) LLMTokenUsage.zero.

(** A field fits an [int]; it is not negative when [nonneg] is set. *)
Definition fieldOk (nonneg : bool) (n : Z) : Prop :=
  minInt <= n <= maxInt /\ (nonneg = true -> 0 <= n).

Definition usageOk (nonneg : bool) (u : LLMTokenUsage.t) : Prop :=
  fieldOk nonneg (LLMTokenUsage.TotalTokens u)
  /\ fieldOk nonneg (LLMTokenUsage.InputTokens u)
  /\ fieldOk nonneg (LLMTokenUsage.OutputTokens u)
  /\ fieldOk nonneg (LLMTokenUsage.CacheReadInputTokens u).

Definition isSign (c : ascii) : bool := Ascii.eqb c "-" || Ascii.eqb c "+".

Fixpoint allDigits (s : string) : bool :=
  match s with
  | EmptyString => true
  | String c s' => isDigit c && allDigits s'
  end.

(** A base-10 integer: an optional sign, then decimal digits, at least one,
    and nothing else. *)
Definition isBase10Integer (v : string) : bool :=
  match v with
  | EmptyString => false
  | String c v' =>
      if isSign c then negb (String.eqb v' "") && allDigits v' else allDigits v
  end.

(** [v] begins with a base-10 integer: an optional sign, then a digit. *)
Definition beginsWithInteger (v : string) : bool :=
  match v with
  | EmptyString => false
  | String c v' =>
      if isSign c
      then match v' with
           | EmptyString => false
           | String d _ => isDigit d
           end
      else isDigit c
  end.

(** The digits that [s] begins with. *)
Fixpoint digitPrefix (s : string) : string :=
  match s with
  | EmptyString => EmptyString
  | String c s' => if isDigit c then String c (digitPrefix s') else EmptyString
  end.

(** The base-10 integer that [v] begins with: the sign, if any, and the
    digits after it. *)
Definition integerPrefix (v : string) : string :=
  match v with
  | EmptyString => EmptyString
  | String c v' => if isSign c then String c (digitPrefix v') else digitPrefix v
  end.

(** The value of a string of digits in positional notation. *)
Fixpoint positional (ds : string) : Z :=
  match ds with
  | EmptyString => 0
  | String d rest => digitVal d * 10 ^ Z.of_nat (String.length rest) + positional rest
  end.

(** The value of a base-10 integer. *)
Definition base10Value (v : string) : Z :=
  match v with
  | EmptyString => 0
  | String c v' =>
      if Ascii.eqb c "-" then - positional v'
      else if Ascii.eqb c "+" then positional v'
      else positional v
  end.

(** The keys that the parser knows, each with the field it stands for. *)
Definition recognizedField (key : string) : option (LLMTokenUsage.t -> Z) :=
  if String.eqb key "total_tokens" then Some LLMTokenUsage.TotalTokens
  else if String.eqb key "prompt_tokens" then Some LLMTokenUsage.InputTokens
  else if String.eqb key "completion_tokens" then Some LLMTokenUsage.OutputTokens
  else if String.eqb key "cached_prompt_tokens" then Some LLMTokenUsage.CacheReadInputTokens
  else None.

(** A token without [=], with a value part that does not begin with an
    integer, or with a key that the parser does not know. *)
Definition skippedToken (tok : string) : bool :=
  match cutAt "=" tok with
  | None => true
  | Some (key, value) =>
      negb (beginsWithInteger value)
      || match recognizedField key with Some _ => false | None => true end
  end.

(** [n] is zero, or the base-10 integer that the value part of one of the
    pairs begins with, the pair cut at its first [=]. *)
Definition fromPairs (pairs : list string) (n : Z) : Prop :=
  n = 0
  \/ exists tok key value,
       In tok pairs /\ tok = key +:+ String "=" value
       /\ hasByte "=" key = false
       /\ beginsWithInteger value = true
       /\ n = base10Value (integerPrefix value).

Definition usageFromPairs (pairs : list string) (u : LLMTokenUsage.t) : Prop :=
  fromPairs pairs (LLMTokenUsage.TotalTokens u)
  /\ fromPairs pairs (LLMTokenUsage.InputTokens u)
  /\ fromPairs pairs (LLMTokenUsage.OutputTokens u)
  /\ fromPairs pairs (LLMTokenUsage.CacheReadInputTokens u).

(** The lines of one field without the final newline, none for a blank one. *)
Definition promptLine (fieldName value : string) : list string :=
  if String.eqb value "" then []
  else [fieldName +:+ (": >" +:+ String LF "  ") +:+ value].

Definition promptLines (role goal backstory : string) : list string :=
  promptLine "role" role ++ promptLine "goal" goal ++ promptLine "backstory" backstory.

(** The white space characters of Unicode (the property White_Space), each
    in UTF-8: tab, line feed, vertical tab, form feed, carriage return,
    space, U+0085, U+00A0, U+1680, U+2000 to U+200A, U+2028, U+2029,
    U+202F, U+205F and U+3000. *)
Definition whiteSpace : list string :=
  map (fold_right (fun n s => String (ascii_of_N n) s) "")
    [ [9]; [10]; [11]; [12]; [13]; [32]; [194; 133]; [194; 160];
      [225; 154; 128];
      [226; 128; 128]; [226; 128; 129]; [226; 128; 130]; [226; 128; 131];
      [226; 128; 132]; [226; 128; 133]; [226; 128; 134]; [226; 128; 135];
      [226; 128; 136]; [226; 128; 137]; [226; 128; 138];
      [226; 128; 168]; [226; 128; 169]; [226; 128; 175];
      [226; 129; 159]; [227; 128; 128] ]%N.

(** A value that consists of white space only. *)
Inductive whitespaceOnly : string -> Prop :=
  | whitespaceOnly_nil : whitespaceOnly ""
  | whitespaceOnly_cons (w s : string) :
      In w whiteSpace -> whitespaceOnly s -> whitespaceOnly (w +:+ s).

(* ===================================================================== *)
(** * Root spans *)
(* ===================================================================== *)

(** Modelled from the spec: [Span] is declared in another file of the
    package; of its fields the extractor reads [Attributes] only. *)
Module Span.
Record t : Type := mk { Attributes : attrMap }.
End Span.

(** [ExtractCrewAIRootSpanInputOutput]; [None] is the nil pointer. *)
Definition ExtractCrewAIRootSpanInputOutput (rootSpan : option Span.t) : Value * Value :=
  match rootSpan with
  | None => (VNil, VNil)
  | Some span =>
      match Span.Attributes span with
      | None => (VNil, VNil)
      | Some _ => ExtractCrewAISpanInputOutput (Span.Attributes span)
      end
  end.

(** The agent data of a span on which no step of the populator finds
    anything: the zero values, and the framework. *)
Definition emptyAgentData : AgentData.t :=
  AgentData.mk "crewai" "" nilSlice "" 0 None.

(* ===================================================================== *)
(** * The token-usage string as CrewAI writes it *)
(* ===================================================================== *)

Definition digitChar (d : Z) : ascii := ascii_of_N (48 + Z.to_N d).

(** The decimal digits of [n] before [acc], the last digit first. *)
Fixpoint decimalFuel (fuel : nat) (n : Z) (acc : string) : string :=
  match fuel with
  | O => acc
  | S fuel' =>
      let acc' := String (digitChar (n mod 10)) acc in
      if n <? 10 then acc' else decimalFuel fuel' (n / 10) acc'
  end.

(** A natural number in decimal notation. *)
Definition decimal (n : Z) : string :=
  decimalFuel (S (Z.to_nat (Z.log2 n))) n "".

(** The format that the comment of [parseCrewAITokenUsage] documents. *)
Definition formatTokenUsage (total prompt cached completion requests : Z) : string :=
  ("total_tokens=" +:+ decimal total) +:+ String SP
  (("prompt_tokens=" +:+ decimal prompt) +:+ String SP
  (("cached_prompt_tokens=" +:+ decimal cached) +:+ String SP
  (("completion_tokens=" +:+ decimal completion) +:+ String SP
  ("successful_requests=" +:+ decimal requests)))).

(** Every byte is a printable ASCII character other than the space. *)
Fixpoint allPrintable (s : string) : bool :=
  match s with
  | EmptyString => true
  | String c s' => (33 <=? code c)%N && (code c <? 128)%N && allPrintable s'
  end.

(** The key of a pair: what stands before its first [=], if it has one. *)
Definition pairKey (pair : string) : option string :=
  match cutAt "=" pair with
  | Some (key, _) => Some key
  | None => None
  end.

(* ===================================================================== *)
(** * The CORS middleware (package middleware) *)
(* ===================================================================== *)

(** [strings.Split(s, sep)] for a one-byte separator: the pieces of [s]
    between the separators, [s] alone when there is none. *)
Fixpoint strings_Split (s : string) (sep : ascii) : list string :=
  match s with
  | EmptyString => [EmptyString]
  | String c s' =>
      if Ascii.eqb c sep then EmptyString :: strings_Split s' sep
      else match strings_Split s' sep with
           | piece :: pieces => String c piece :: pieces
           | [] => [String c EmptyString]
           end
  end.

(** [http.Header]: the values of each header, under its canonical name (the
    names that the middleware uses are canonical as they are written). *)
Abbreviation Header := (gmap string (list string)).

(** [Header.Get]: the first value of the header, empty when it has none. *)
Definition Header_Get (h : Header) (key : string) : string :=
  match h !! key with
  | Some (value :: _) => value
  | _ => ""
  end.

(** [Header.Add]: one more value after the ones the header has. *)
Definition Header_Add (h : Header) (key value : string) : Header :=
  <[key := default [] (h !! key) ++ [value]]> h.

(** [Header.Set]: the value in place of the ones the header has. *)
Definition Header_Set (h : Header) (key value : string) : Header :=
  <[key := [value]]> h.

(** [*http.Request], the fields that the middleware reads. *)
Module Request.
Record t : Type := mk { Method : string; Header : gmap string (list string) }.
End Request.

(** [http.ResponseWriter] as the state of the response under construction:
    its header map and the status code once [WriteHeader] was called. *)
Module ResponseWriter.
Record t : Type := mk { Header : gmap string (list string); Status : option Z }.
End ResponseWriter.

(** [w.WriteHeader(code)]: the first call fixes the status code. *)
Definition WriteHeader (w : ResponseWriter.t) (statusCode : Z) : ResponseWriter.t :=
  match ResponseWriter.Status w with
  | Some _ => w
  | None => ResponseWriter.mk (ResponseWriter.Header w) (Some statusCode)
  end.

(** [h] applied to the header map of [w]. *)
Definition withHeader (h : Header -> Header) (w : ResponseWriter.t) : ResponseWriter.t :=
  ResponseWriter.mk (h (ResponseWriter.Header w)) (ResponseWriter.Status w).

(** The loop of [CORS] over the allowed origins: the value of
    [matchedOrigin] when it ends. *)
Fixpoint matchOrigin (origin : string) (allowedOrigins : list string) : string :=
  match allowedOrigins with
  | [] => ""
  | allowed :: rest =>
      let allowed := strings_TrimSpace allowed in
      if String.eqb allowed "*" then "*"
      else if String.eqb origin allowed then origin
      else matchOrigin origin rest
  end.

(** [matchedOrigin] as the handler of [CORS] computes it. *)
Definition matchedOrigin (allowedOrigin origin : string) : string :=
  if negb (String.eqb origin "")
  then matchOrigin origin (strings_Split allowedOrigin ",")
  else "".

(** The headers that the handler of [CORS] writes before it answers or
    hands over. *)
Definition corsHeaders (allowedOrigin : string) (r : Request.t) (h : Header) : Header :=
  let origin := Header_Get (Request.Header r) "Origin" in
  let h := Header_Add h "Vary" "Origin" in
  let h := Header_Add h "Vary" "Access-Control-Request-Method" in
  let h := Header_Add h "Vary" "Access-Control-Request-Headers" in
  let matched := matchedOrigin allowedOrigin origin in
  if negb (String.eqb matched "")
  then
    let h := Header_Set h "Access-Control-Allow-Origin" matched in
    let h :=
      if negb (String.eqb matched "*")
      then Header_Set h "Access-Control-Allow-Credentials" "true"
      else h in
    let h := Header_Set h "Access-Control-Allow-Methods"
               "GET, POST, PUT, PATCH, DELETE, OPTIONS" in
    let h := Header_Set h "Access-Control-Allow-Headers"
               "Authorization, Content-Type, X-Requested-With, Accept, Origin, x-correlation-id" in
    Header_Set h "Access-Control-Max-Age" "86400"
  else h.

(** [CORS(allowedOrigin)(next)] serving the request [r] on the response
    [w]: the response when the handler returns.  [next] is the wrapped
    handler, [http.MethodOptions] is "OPTIONS" and [http.StatusNoContent]
    is 204. *)
Definition CORS (allowedOrigin : string)
    (next : ResponseWriter.t -> Request.t -> ResponseWriter.t)
    (w : ResponseWriter.t) (r : Request.t) : ResponseWriter.t :=
  let w := withHeader (corsHeaders allowedOrigin r) w in
  if String.eqb (Request.Method r) "OPTIONS" then WriteHeader w 204
  else next w r.

(** The entries of the allowed list as the loop compares them: the pieces
    between the commas, trimmed. *)
Definition allowedEntries (allowedOrigin : string) : list string :=
  map strings_TrimSpace (strings_Split allowedOrigin ",").

(** The three values that the handler adds to Vary. *)
Definition varyValues : list string :=
  ["Origin"; "Access-Control-Request-Method"; "Access-Control-Request-Headers"].

(* ===================================================================== *)
(** * The trace details view (TraceDetails) *)
(* ===================================================================== *)

(** Modelled from the spec: [Span] of the console's types package is
    declared elsewhere; the view reads [parentSpanId], a string that may
    be missing ([None] is undefined or null). *)
Module UISpan.
Record t : Type := mk { spanId : string; parentSpanId : option string }.
End UISpan.

(** [!span.parentSpanId]: the id is missing or is the empty string. *)
Definition hasNoParent (span : UISpan.t) : bool :=
  match UISpan.parentSpanId span with
  | None => true
  | Some p => String.eqb p ""
  end.

(** The argument of [setSelectedSpan] in the effect of [TraceDetails]:
    [traceDetails?.spans?.find(...) ?? traceDetails?.spans?.[0] ?? null].
    The outer option is [traceDetails] (undefined while there is no data),
    the inner one its [spans]. *)
Definition initialSelectedSpan (traceDetails : option (option (list UISpan.t)))
    : option UISpan.t :=
  match traceDetails with
  | Some (Some spans) =>
      match find hasNoParent spans with
      | Some span => Some span
      | None =>
          match spans with
          | span :: _ => Some span
          | [] => None
          end
      end
  | _ => None
  end.

(* ===================================================================== *)
(** * Strings: append and reversal *)
(* ===================================================================== *)

Lemma append_cons (c : ascii) (a b : string) :
  String c a +:+ b = String c (a +:+ b).
Proof. reflexivity. Qed.

Lemma append_nil_l (s : string) : "" +:+ s = s.
Proof. reflexivity. Qed.

Lemma append_nil_r (s : string) : s +:+ "" = s.
Proof.
  induction s as [|c s IH]; [reflexivity|].
  rewrite append_cons, IH. reflexivity.
Qed.

Lemma append_assoc (a b c : string) : (a +:+ b) +:+ c = a +:+ (b +:+ c).
Proof.
  induction a as [|x a IH]; [reflexivity|].
  rewrite !append_cons, IH. reflexivity.
Qed.

Lemma append_eq_nil (a b : string) : a +:+ b = "" -> a = "" /\ b = "".
Proof.
  destruct a as [|c a]; [rewrite append_nil_l | rewrite append_cons; discriminate].
  intros ->. split; reflexivity.
Qed.

Lemma rev_app_append (a b acc : string) :
  String.rev_app (a +:+ b) acc = String.rev_app b (String.rev_app a acc).
Proof.
  revert acc. induction a as [|x a IH]; intros acc; [reflexivity|].
  rewrite append_cons. simpl. apply IH.
Qed.

Lemma rev_app_rev (a acc : string) :
  String.rev_app a acc = String.rev a +:+ acc.
Proof.
  unfold String.rev. revert acc.
  induction a as [|x a IH]; intros acc; [reflexivity|].
  simpl. rewrite IH, (IH (String x "")), append_assoc. reflexivity.
Qed.

Lemma rev_append (a b : string) :
  String.rev (a +:+ b) = String.rev b +:+ String.rev a.
Proof.
  unfold String.rev at 1. rewrite rev_app_append, rev_app_rev. reflexivity.
Qed.

Lemma rev_involutive (s : string) : String.rev (String.rev s) = s.
Proof.
  induction s as [|c s IH]; [reflexivity|].
  change (String c s) with (String c "" +:+ s) at 1.
  rewrite rev_append, rev_append, IH. reflexivity.
Qed.

(* ===================================================================== *)
(** * Trimming *)
(* ===================================================================== *)

Lemma code_SP : code SP = 32%N.
Proof. reflexivity. Qed.

Lemma isSpace2_SP_r (c : ascii) : isSpace2 c SP = false.
Proof. unfold isSpace2. rewrite code_SP. apply andb_false_r. Qed.

Lemma isSpace3_SP_mid (c1 c3 : ascii) : isSpace3 c1 SP c3 = false.
Proof.
  unfold isSpace3. rewrite code_SP. cbn [N.eqb Pos.eqb].
  rewrite !andb_false_r. reflexivity.
Qed.

Lemma isSpace3_SP_r (c1 c2 : ascii) : isSpace3 c1 c2 SP = false.
Proof.
  unfold isSpace3. rewrite code_SP. cbn [N.eqb Pos.eqb N.leb N.compare Pos.compare Pos.compare_cont].
  rewrite ?andb_false_r, ?orb_false_r. reflexivity.
Qed.

Lemma dropRunes_suffix (width : string -> nat) (s : string) :
  forall skip, exists p, s = p +:+ dropRunes width skip s.
Proof.
  induction s as [|c s IH]; intros skip.
  - exists "". reflexivity.
  - simpl. destruct skip as [|k].
    + destruct (width (String c s)) as [|k] eqn:E.
      * exists "". reflexivity.
      * destruct (IH k) as [p Hp]. exists (String c p).
        rewrite append_cons, <- Hp. reflexivity.
    + destruct (IH k) as [p Hp]. exists (String c p).
      rewrite append_cons, <- Hp. reflexivity.
Qed.

(** Dropping stops where [width] finds no rune. *)
Lemma dropRunes_stops (width : string -> nat) (s : string) :
  width "" = 0%nat -> forall skip, width (dropRunes width skip s) = 0%nat.
Proof.
  intros H0. induction s as [|c s IH]; intros skip; [exact H0|].
  simpl. destruct skip as [|k]; [|apply IH].
  destruct (width (String c s)) as [|k] eqn:E; [exact E | apply IH].
Qed.

Lemma dropRunes_id (width : string -> nat) (s : string) :
  width s = 0%nat -> dropRunes width 0 s = s.
Proof. intros H. destruct s as [|c s]; [reflexivity|]. simpl. rewrite H. reflexivity. Qed.

(** A white space rune at the head of a string is still there when the
    string is extended. *)
Lemma spaceWidth_extend (s r : string) (k : nat) :
  spaceWidth s = S k -> spaceWidth (s +:+ r) = S k.
Proof.
  destruct s as [|c1 [|c2 [|c3 s]]]; rewrite ?append_cons, ?append_nil_l;
    simpl; try discriminate.
  - destruct (asciiSpace c1); [auto | discriminate].
  - destruct (asciiSpace c1); [auto|].
    destruct (isSpace2 c1 c2); [auto | discriminate].
  - auto.
Qed.

Lemma trimLeft_fixed (s : string) : spaceWidth s = 0%nat -> trimLeft s = s.
Proof. apply dropRunes_id. Qed.

Lemma trimRight_prefix (s : string) : exists r, s = trimRight s +:+ r.
Proof.
  unfold trimRight.
  destruct (dropRunes_suffix spaceWidthLast (String.rev s) 0) as [p Hp].
  exists (String.rev p).
  rewrite <- rev_append, <- Hp, rev_involutive. reflexivity.
Qed.

Lemma trimRight_fixed (r : string) :
  spaceWidthLast r = 0%nat -> trimRight (String.rev r) = String.rev r.
Proof.
  intros H. unfold trimRight. rewrite rev_involutive, dropRunes_id; auto.
Qed.

(** What comes out of [strings.TrimSpace] has no white space at either end. *)
Lemma TrimSpace_no_leading_space (s : string) :
  spaceWidth (strings_TrimSpace s) = 0%nat.
Proof.
  unfold strings_TrimSpace.
  destruct (trimRight_prefix (trimLeft s)) as [r Hr].
  destruct (spaceWidth (trimRight (trimLeft s))) as [|k] eqn:E; [reflexivity|].
  apply (spaceWidth_extend _ r) in E. rewrite <- Hr in E.
  unfold trimLeft in E. rewrite dropRunes_stops in E; [discriminate | reflexivity].
Qed.

Lemma TrimSpace_no_trailing_space (s : string) :
  spaceWidthLast (String.rev (strings_TrimSpace s)) = 0%nat.
Proof.
  unfold strings_TrimSpace, trimRight. rewrite rev_involutive.
  apply dropRunes_stops. reflexivity.
Qed.

Lemma TrimSpace_idempotent (s : string) :
  strings_TrimSpace (strings_TrimSpace s) = strings_TrimSpace s.
Proof.
  unfold strings_TrimSpace at 1.
  rewrite trimLeft_fixed by apply TrimSpace_no_leading_space.
  rewrite <- (rev_involutive (strings_TrimSpace s)).
  apply trimRight_fixed, TrimSpace_no_trailing_space.
Qed.

Lemma trimRight_LF (s : string) : trimRight (s +:+ String LF "") = trimRight s.
Proof.
  unfold trimRight. rewrite rev_append. reflexivity.
Qed.

Lemma TrimSpace_no_leading (s : string) :
  spaceWidth s = 0%nat -> strings_TrimSpace s = trimRight s.
Proof. intros H. unfold strings_TrimSpace. rewrite trimLeft_fixed; auto. Qed.

(* ===================================================================== *)
(** * The system prompt *)
(* ===================================================================== *)

Ltac prompt_normalize :=
  rewrite ?append_assoc, ?append_nil_l, ?append_nil_r; reflexivity.

(** The composer as a function of the three trimmed fields. *)
Lemma extractCrewAISystemPrompt_fields (attrs : attrMap) :
  extractCrewAISystemPrompt attrs =
  composePromptSpec (promptField attrs "crewai.agent.role")
                    (promptField attrs "crewai.agent.goal")
                    (promptField attrs "crewai.agent.backstory").
Proof.
  unfold extractCrewAISystemPrompt, composePromptSpec, promptBlock.
  fold (promptField attrs "crewai.agent.role").
  fold (promptField attrs "crewai.agent.goal").
  fold (promptField attrs "crewai.agent.backstory").
  generalize (promptField attrs "crewai.agent.role") as role.
  generalize (promptField attrs "crewai.agent.goal") as goal.
  generalize (promptField attrs "crewai.agent.backstory") as backstory.
  intros backstory goal role.
  destruct (String.eqb_spec role ""), (String.eqb_spec goal "");
    (destruct (String.eqb_spec backstory "");
     [ cbn [andb negb]; try reflexivity;
       rewrite TrimSpace_no_leading by reflexivity
     | cbn [andb negb];
       rewrite TrimSpace_no_leading by reflexivity;
       rewrite <- !append_assoc, trimRight_LF ]).
  all: f_equal; prompt_normalize.
Qed.

Lemma isSpace2_SP_l (c : ascii) : isSpace2 SP c = false.
Proof. reflexivity. Qed.

Lemma isSpace3_SP_l (c2 c3 : ascii) : isSpace3 SP c2 c3 = false.
Proof. reflexivity. Qed.

(** A space before the end of a string does not change what the string
    ends with ([a] is the reversed end). *)
Lemma spaceWidthLast_app_SP (a b : string) :
  a <> "" -> spaceWidthLast (a +:+ String SP b) = spaceWidthLast a.
Proof.
  intros Ha. destruct a as [|c1 [|c2 [|c3 a]]]; [congruence| | |];
    rewrite ?append_cons, ?append_nil_l; cbn [spaceWidthLast].
  - rewrite isSpace2_SP_l. destruct b; [reflexivity|].
    rewrite isSpace3_SP_mid. reflexivity.
  - rewrite isSpace3_SP_l. reflexivity.
  - reflexivity.
Qed.

Lemma rev_eq_nil (s : string) : String.rev s = "" -> s = "".
Proof. intros H. rewrite <- (rev_involutive s), H. reflexivity. Qed.

(** Trimming leaves a string that ends with a trimmed value after a space. *)
Lemma trimRight_keep (x v : string) :
  v <> "" -> spaceWidthLast (String.rev v) = 0%nat ->
  (exists p, x = p +:+ String SP "") ->
  trimRight (x +:+ v) = x +:+ v.
Proof.
  intros Hv Hw [p ->].
  rewrite <- (rev_involutive ((p +:+ String SP "") +:+ v)) at 2.
  rewrite <- (rev_involutive ((p +:+ String SP "") +:+ v)) at 1.
  apply trimRight_fixed.
  rewrite !rev_append. cbn [String.rev String.rev_app].
  rewrite append_cons, append_nil_l, spaceWidthLast_app_SP; [exact Hw|].
  intros H. apply Hv, rev_eq_nil, H.
Qed.

Lemma composePromptSpec_lines (role goal backstory : string) :
  spaceWidthLast (String.rev role) = 0%nat ->
  spaceWidthLast (String.rev goal) = 0%nat ->
  spaceWidthLast (String.rev backstory) = 0%nat ->
  composePromptSpec role goal backstory
  = String.concat (String LF "") (promptLines role goal backstory).
Proof.
  intros Hr Hg Hb. unfold composePromptSpec, promptLines, promptBlock, promptLine.
  destruct (String.eqb_spec role ""), (String.eqb_spec goal "");
    destruct (String.eqb_spec backstory "");
    cbn [app String.concat]; try reflexivity;
    rewrite ?append_nil_r, ?append_nil_l;
    match goal with
    | |- trimRight ?x = ?y =>
        replace x with (y +:+ String LF "")
          by (rewrite ?append_assoc, ?append_nil_l, ?append_nil_r; reflexivity)
    end;
    rewrite trimRight_LF, <- !append_assoc;
    (apply trimRight_keep; [assumption | assumption |]);
    match goal with
    | |- exists p, ?x +:+ _ = _ => exists (x +:+ String LF " ")
    end;
    rewrite ?append_assoc; reflexivity.
Qed.

Lemma promptField_trimmed (attrs : attrMap) (key : string) :
  spaceWidthLast (String.rev (promptField attrs key)) = 0%nat.
Proof.
  unfold promptField. destruct (assertString (mapIndex attrs key)) as [v|].
  - apply TrimSpace_no_trailing_space.
  - reflexivity.
Qed.

(** C4: the system-prompt composer renders the fields that are present in
    the fixed order role, goal, backstory, each as the block
    ["<fieldName>: >\n  <value>\n"], renders nothing for an absent or blank
    field, and trims the trailing white space of the whole, which leaves the
    lines of the blocks without the last newline; with three blank fields
    the result is the empty string.  On role "Analyst" alone the result is
    ["role: >\n  Analyst"], on three empty fields it is [""]. *)
Theorem C4_system_prompt_composition :
  (forall attrs : attrMap,
     extractCrewAISystemPrompt attrs
     = composePromptSpec (promptField attrs "crewai.agent.role")
                         (promptField attrs "crewai.agent.goal")
                         (promptField attrs "crewai.agent.backstory")
     /\ extractCrewAISystemPrompt attrs
        = String.concat (String LF "")
            (promptLines (promptField attrs "crewai.agent.role")
                         (promptField attrs "crewai.agent.goal")
                         (promptField attrs "crewai.agent.backstory")))
  /\ composePromptSpec "" "" "" = ""
  /\ extractCrewAISystemPrompt (promptAttrs "Analyst" "" "")
     = "role: >" +:+ String LF "  Analyst"
  /\ extractCrewAISystemPrompt (Some {[ "crewai.agent.role" := VString "Analyst" ]})
     = "role: >" +:+ String LF "  Analyst"
  /\ extractCrewAISystemPrompt (promptAttrs "" "" "") = "".
Proof.
  split.
  - intros attrs. rewrite extractCrewAISystemPrompt_fields.
    split; [reflexivity|].
    apply composePromptSpec_lines; apply promptField_trimmed.
  - repeat split; vm_compute; reflexivity.
Qed.

Lemma promptField_delete_blank (m : gmap string Value) (key k s : string) :
  m !! key = Some (VString s) -> strings_TrimSpace s = "" ->
  promptField (Some (delete key m)) k = promptField (Some m) k.
Proof.
  intros Hm Hs. unfold promptField, mapIndex.
  destruct (decide (key = k)) as [->|Hne].
  - rewrite lookup_delete_eq, Hm. simpl. symmetry. exact Hs.
  - rewrite lookup_delete_ne by exact Hne. reflexivity.
Qed.

Lemma trimLeft_whiteSpace (w s : string) :
  In w whiteSpace -> trimLeft (w +:+ s) = trimLeft s.
Proof.
  intros H. unfold whiteSpace in H. cbn [map fold_right] in H.
  repeat (destruct H as [<-|H]; [reflexivity|]).
  destruct H.
Qed.

Lemma whitespaceOnly_trimLeft (s : string) : whitespaceOnly s -> trimLeft s = "".
Proof.
  induction 1 as [|w s Hw _ IH]; [reflexivity|].
  rewrite trimLeft_whiteSpace; assumption.
Qed.

Lemma whitespaceOnly_TrimSpace (s : string) :
  whitespaceOnly s -> strings_TrimSpace s = "".
Proof.
  intros H. unfold strings_TrimSpace. rewrite (whitespaceOnly_trimLeft s H).
  reflexivity.
Qed.

Lemma promptField_promptAttrs (role goal backstory : string) :
  promptField (promptAttrs role goal backstory) "crewai.agent.role"
  = strings_TrimSpace role
  /\ promptField (promptAttrs role goal backstory) "crewai.agent.goal"
     = strings_TrimSpace goal
  /\ promptField (promptAttrs role goal backstory) "crewai.agent.backstory"
     = strings_TrimSpace backstory.
Proof.
  unfold promptField, promptAttrs, mapIndex. split; [|split].
  - rewrite lookup_insert_eq. reflexivity.
  - rewrite lookup_insert_ne, lookup_insert_eq by discriminate. reflexivity.
  - rewrite !lookup_insert_ne, lookup_singleton_eq by discriminate. reflexivity.
Qed.

Lemma promptField_stored (attrs : attrMap) (key : string) :
  promptField attrs key = strings_TrimSpace (storedField attrs key).
Proof.
  unfold promptField, storedField.
  destruct (assertString (mapIndex attrs key)); reflexivity.
Qed.

Lemma extractCrewAISystemPrompt_stored (attrs : attrMap) :
  extractCrewAISystemPrompt attrs
  = String.concat (String LF "")
      (promptLines (strings_TrimSpace (storedField attrs "crewai.agent.role"))
                   (strings_TrimSpace (storedField attrs "crewai.agent.goal"))
                   (strings_TrimSpace (storedField attrs "crewai.agent.backstory"))).
Proof.
  rewrite extractCrewAISystemPrompt_fields.
  rewrite composePromptSpec_lines by apply promptField_trimmed.
  rewrite !promptField_stored. reflexivity.
Qed.

Lemma extractCrewAISystemPrompt_lines (role goal backstory : string) :
  extractCrewAISystemPrompt (promptAttrs role goal backstory)
  = String.concat (String LF "")
      (promptLines (strings_TrimSpace role) (strings_TrimSpace goal)
                   (strings_TrimSpace backstory)).
Proof.
  rewrite extractCrewAISystemPrompt_fields.
  rewrite composePromptSpec_lines by apply promptField_trimmed.
  destruct (promptField_promptAttrs role goal backstory) as (-> & -> & ->).
  reflexivity.
Qed.

(** C10: the composer trims role, goal and backstory one by one, then
    tests and writes them: for every map, and so for a map that holds the
    three fields, the prompt is made of the lines of the trimmed fields, a
    field whose trimmed value is empty left out.  A field that consists of
    white space only therefore counts as an absent one, its block is left
    out, and three such fields give the empty string. *)
Theorem C10_fields_trimmed_individually :
  (forall attrs : attrMap,
     extractCrewAISystemPrompt attrs
     = String.concat (String LF "")
         (promptLine "role"
            (strings_TrimSpace (storedField attrs "crewai.agent.role"))
          ++ promptLine "goal"
               (strings_TrimSpace (storedField attrs "crewai.agent.goal"))
          ++ promptLine "backstory"
               (strings_TrimSpace (storedField attrs "crewai.agent.backstory"))))
  /\ (forall role goal backstory : string,
        extractCrewAISystemPrompt (promptAttrs role goal backstory)
        = String.concat (String LF "")
            (promptLine "role" (strings_TrimSpace role)
             ++ promptLine "goal" (strings_TrimSpace goal)
             ++ promptLine "backstory" (strings_TrimSpace backstory)))
  /\ (forall (m : gmap string Value) (key s : string),
        In key promptKeys ->
        m !! key = Some (VString s) -> whitespaceOnly s ->
        extractCrewAISystemPrompt (Some m)
        = extractCrewAISystemPrompt (Some (delete key m)))
  /\ (forall role goal backstory : string,
        (whitespaceOnly role ->
         extractCrewAISystemPrompt (promptAttrs role goal backstory)
         = String.concat (String LF "")
             (promptLine "goal" (strings_TrimSpace goal)
              ++ promptLine "backstory" (strings_TrimSpace backstory)))
        /\ (whitespaceOnly goal ->
            extractCrewAISystemPrompt (promptAttrs role goal backstory)
            = String.concat (String LF "")
                (promptLine "role" (strings_TrimSpace role)
                 ++ promptLine "backstory" (strings_TrimSpace backstory)))
        /\ (whitespaceOnly backstory ->
            extractCrewAISystemPrompt (promptAttrs role goal backstory)
            = String.concat (String LF "")
                (promptLine "role" (strings_TrimSpace role)
                 ++ promptLine "goal" (strings_TrimSpace goal))))
  /\ (forall role goal backstory : string,
        whitespaceOnly role -> whitespaceOnly goal -> whitespaceOnly backstory ->
        extractCrewAISystemPrompt (promptAttrs role goal backstory) = "")
  /\ extractCrewAISystemPrompt
       (promptAttrs "  Analyst " (String LF "  ") " Born in a lab.  ")
     = "role: >" +:+ String LF "  Analyst"
       +:+ String LF "backstory: >" +:+ String LF "  Born in a lab.".
Proof.
  split; [exact extractCrewAISystemPrompt_stored|].
  split; [exact extractCrewAISystemPrompt_lines|].
  split; [|split; [|split]].
  - intros m key s _ Hm Hs. rewrite !extractCrewAISystemPrompt_fields.
    rewrite !(promptField_delete_blank m key _ s Hm (whitespaceOnly_TrimSpace s Hs)).
    reflexivity.
  - intros role goal backstory.
    rewrite extractCrewAISystemPrompt_lines. unfold promptLines.
    repeat split; intros H; rewrite (whitespaceOnly_TrimSpace _ H);
      cbn [promptLine String.eqb app]; rewrite ?app_nil_r; reflexivity.
  - intros role goal backstory Hr Hg Hb.
    rewrite extractCrewAISystemPrompt_lines.
    rewrite (whitespaceOnly_TrimSpace _ Hr), (whitespaceOnly_TrimSpace _ Hg),
      (whitespaceOnly_TrimSpace _ Hb).
    reflexivity.
  - vm_compute. reflexivity.
Qed.

(** C10 at concrete fields: a goal of a line feed and two spaces is white
    space only, and the prompt is the one of the role alone, trimmed. *)
Lemma C10_fields_trimmed_individually_witness :
  whitespaceOnly (String LF "  ")
  /\ extractCrewAISystemPrompt (promptAttrs "  Analyst " (String LF "  ") "")
     = "role: >" +:+ String LF "  Analyst"
  /\ extractCrewAISystemPrompt
       (Some {[ "crewai.agent.role" := VString "Analyst";
                "crewai.agent.goal" := VString (String LF "  ") ]})
     = extractCrewAISystemPrompt (Some {[ "crewai.agent.role" := VString "Analyst" ]}).
Proof.
  assert (Hws : whitespaceOnly (String LF "  ")).
  { change (String LF "  ") with (String LF "" +:+ (" " +:+ (" " +:+ ""))).
    repeat (apply whitespaceOnly_cons;
            [vm_compute; repeat (first [left; reflexivity | right])|]).
    apply whitespaceOnly_nil. }
  destruct C10_fields_trimmed_individually as (_ & _ & Habsent & Hblock & _).
  split; [exact Hws|]. split.
  - destruct (Hblock "  Analyst " (String LF "  ") "") as (_ & Hgoal & _).
    rewrite (Hgoal Hws). vm_compute. reflexivity.
  - rewrite (Habsent {[ "crewai.agent.role" := VString "Analyst";
                        "crewai.agent.goal" := VString (String LF "  ") ]}
               "crewai.agent.goal" (String LF "  ")).
    + vm_compute. reflexivity.
    + simpl. tauto.
    + vm_compute. reflexivity.
    + exact Hws.
Defined.

(* ===================================================================== *)
(** * Input and output *)
(* ===================================================================== *)

Lemma stringOrNil_string (v : option Value) (s : string) :
  stringOrNil v = VString s <-> v = Some (VString s).
Proof.
  destruct v as [[]|]; simpl; split; intros H; try discriminate; congruence.
Qed.

Lemma stringOrNil_nil (v : option Value) :
  stringOrNil v = VNil <-> forall s, v <> Some (VString s).
Proof.
  destruct v as [[]|]; simpl; split; intros H; try discriminate; try reflexivity;
    try (intros s'; discriminate).
  exfalso. eapply H. reflexivity.
Qed.

(** C9: the input/output extractor returns the designated input attribute
    (crewai.crew.tasks_output) and the designated output attribute
    (crewai.crew.result) exactly when the stored value is a string; a key
    that is absent or holds a value of another type leaves its field nil,
    nothing is raised, and the nil map leaves both fields nil. *)
Theorem C9_input_output_typed_lookup :
  forall attrs : attrMap,
    ExtractCrewAISpanInputOutput attrs
    = (stringOrNil (mapIndex attrs "crewai.crew.tasks_output"),
       stringOrNil (mapIndex attrs "crewai.crew.result"))
    /\ (forall s, (ExtractCrewAISpanInputOutput attrs).1 = VString s
                  <-> mapIndex attrs "crewai.crew.tasks_output" = Some (VString s))
    /\ ((ExtractCrewAISpanInputOutput attrs).1 = VNil
        <-> forall s, mapIndex attrs "crewai.crew.tasks_output" <> Some (VString s))
    /\ (forall s, (ExtractCrewAISpanInputOutput attrs).2 = VString s
                  <-> mapIndex attrs "crewai.crew.result" = Some (VString s))
    /\ ((ExtractCrewAISpanInputOutput attrs).2 = VNil
        <-> forall s, mapIndex attrs "crewai.crew.result" <> Some (VString s))
    /\ ExtractCrewAISpanInputOutput None = (VNil, VNil).
Proof.
  intros attrs.
  assert (E : ExtractCrewAISpanInputOutput attrs
              = (stringOrNil (mapIndex attrs "crewai.crew.tasks_output"),
                 stringOrNil (mapIndex attrs "crewai.crew.result"))).
  { destruct attrs as [m|]; [|reflexivity].
    unfold ExtractCrewAISpanInputOutput, mapIndex.
    destruct (m !! "crewai.crew.tasks_output") as [[]|];
      destruct (m !! "crewai.crew.result") as [[]|]; reflexivity. }
  rewrite E. simpl.
  split; [reflexivity|].
  split; [intros s; apply stringOrNil_string|].
  split; [apply stringOrNil_nil|].
  split; [intros s; apply stringOrNil_string|].
  split; [apply stringOrNil_nil | reflexivity].
Qed.

(* ===================================================================== *)
(** * Agent attributes *)
(* ===================================================================== *)

(** The name as [PopulateCrewAIAgentAttributes] resolves it. *)
Lemma Populate_name (parseToolsJSON : string -> slice ToolDefinition.t)
    (amp : AmpAttributes.t) (attrs : attrMap) :
  AgentData.Name <$> agentDataOf (PopulateCrewAIAgentAttributes parseToolsJSON (Some amp) attrs)
  = Some match assertString (mapIndex attrs "crewai.agent.role") with
         | Some role => strings_TrimSpace role
         | None =>
             match assertString (mapIndex attrs "crewai.crew.name") with
             | Some crew => crew
             | None => ""
             end
         end.
Proof.
  unfold PopulateCrewAIAgentAttributes.
  destruct (ExtractCrewAISpanInputOutput attrs) as [input output].
  reflexivity.
Qed.

(** C5, where the code departs from it: with no role attribute the name is
    taken from crewai.crew.name as it stands, white space included, whereas
    the role is stored trimmed. *)
Theorem C5_fallback_name_is_not_trimmed :
  forall (parseToolsJSON : string -> slice ToolDefinition.t) (amp : AmpAttributes.t),
    AgentData.Name <$> agentDataOf
      (PopulateCrewAIAgentAttributes parseToolsJSON (Some amp)
         (Some {[ "crewai.crew.name" := VString " Research Crew " ]}))
    = Some " Research Crew "
    /\ strings_TrimSpace " Research Crew " = "Research Crew"
    /\ AgentData.Name <$> agentDataOf
         (PopulateCrewAIAgentAttributes parseToolsJSON (Some amp)
            (Some {[ "crewai.agent.role" := VString " Researcher " ]}))
       = Some "Researcher".
Proof.
  intros parseToolsJSON amp. rewrite !Populate_name.
  repeat split; vm_compute; reflexivity.
Qed.

(** C6, as the code has it: when the tools attribute is absent, is not a
    string or is the empty string, tool extraction returns the nil slice,
    which has length 0, and raises nothing: the emptiness check is all a
    caller needs. *)
Theorem C6_no_tools_gives_nil_slice :
  forall (parseToolsJSON : string -> slice ToolDefinition.t) (attrs : attrMap),
    noToolsAttribute attrs ->
    extractCrewAIAgentTools parseToolsJSON attrs = nilSlice
    /\ len (extractCrewAIAgentTools parseToolsJSON attrs) = 0%nat.
Proof.
  intros parseToolsJSON attrs H.
  assert (E : extractCrewAIAgentTools parseToolsJSON attrs = nilSlice).
  { unfold extractCrewAIAgentTools.
    destruct H as [H | [(v & H & Hv) | H]]; rewrite H; simpl; try reflexivity.
    destruct v; try reflexivity. exfalso. eapply Hv. reflexivity. }
  rewrite E. split; reflexivity.
Qed.

(** C6 on a map whose tools attribute is a boolean. *)
Lemma C6_no_tools_gives_nil_slice_witness :
  extractCrewAIAgentTools (fun _ => mkSlice []) (Some {[ "crewai.agent.tools" := VBool true ]})
  = nilSlice
  /\ len (extractCrewAIAgentTools (fun _ => mkSlice [])
            (Some {[ "crewai.agent.tools" := VBool true ]})) = 0%nat.
Proof.
  apply C6_no_tools_gives_nil_slice.
  right. left. exists (VBool true). split; [reflexivity | discriminate].
Defined.

(** C6 as stated fails: on a map without the tools attribute the result is
    the nil slice, which is not the empty non-nil sequence. *)
Lemma C6_result_is_the_nil_slice :
  extractCrewAIAgentTools (fun _ => mkSlice []) (Some ∅) = nilSlice
  /\ isNil (extractCrewAIAgentTools (fun _ => mkSlice []) (Some ∅)) = true
  /\ extractCrewAIAgentTools (fun _ => mkSlice []) (Some ∅) <> mkSlice [].
Proof.
  split; [reflexivity|]. split; [reflexivity | discriminate].
Qed.

(** C8: for every attribute map, nil and malformed ones included, the
    populator returns (the model has no error result, and the call panics on
    nothing but a nil target pointer); the agent data it leaves has the
    framework "crewai", and each of name, tools, system prompt, iteration
    bound and token usage is what its own step computes from its own
    attributes, whatever the other attributes hold. *)
Theorem C8_populate_total_and_stepwise :
  forall (parseToolsJSON : string -> slice ToolDefinition.t)
         (amp : AmpAttributes.t) (attrs : attrMap),
  exists data : AgentData.t,
    PopulateCrewAIAgentAttributes parseToolsJSON (Some amp) attrs
    = Some (AmpAttributes.mk (ExtractCrewAISpanInputOutput attrs).1
                             (ExtractCrewAISpanInputOutput attrs).2 (Some data))
    /\ AgentData.Framework data = "crewai"
    /\ AgentData.Framework data <> ""
    /\ AgentData.Tools data = extractCrewAIAgentTools parseToolsJSON attrs
    /\ AgentData.SystemPrompt data = extractCrewAISystemPrompt attrs
    /\ AgentData.MaxIter data
       = match assertFloat64 (mapIndex attrs "crewai.agent.max_iter") with
         | Some f => float64ToInt f
         | None => 0
         end
    /\ AgentData.TokenUsage data
       = match assertString (mapIndex attrs "crewai.crew.token_usage") with
         | Some s => parseCrewAITokenUsage s
         | None => None
         end
    /\ forall (amp' : AmpAttributes.t) (attrs' : attrMap),
       exists data' : AgentData.t,
         agentDataOf (PopulateCrewAIAgentAttributes parseToolsJSON (Some amp') attrs')
         = Some data'
         /\ (agreeOn ["crewai.agent.role"; "crewai.crew.name"] attrs attrs' ->
             AgentData.Name data = AgentData.Name data')
         /\ (agreeOn ["crewai.agent.tools"] attrs attrs' ->
             AgentData.Tools data = AgentData.Tools data')
         /\ (agreeOn promptKeys attrs attrs' ->
             AgentData.SystemPrompt data = AgentData.SystemPrompt data')
         /\ (agreeOn ["crewai.agent.max_iter"] attrs attrs' ->
             AgentData.MaxIter data = AgentData.MaxIter data')
         /\ (agreeOn ["crewai.crew.token_usage"] attrs attrs' ->
             AgentData.TokenUsage data = AgentData.TokenUsage data').
Proof.
  intros parseToolsJSON amp attrs.
  unfold PopulateCrewAIAgentAttributes.
  destruct (ExtractCrewAISpanInputOutput attrs) as [input output].
  eexists. split; [reflexivity|]. simpl.
  repeat (split; [first [reflexivity | discriminate]|]).
  intros amp' attrs'.
  destruct (ExtractCrewAISpanInputOutput attrs') as [input' output'].
  eexists. split; [reflexivity|]. simpl.
  repeat split; intros H.
  - rewrite (H "crewai.agent.role"), (H "crewai.crew.name") by (simpl; tauto).
    reflexivity.
  - unfold extractCrewAIAgentTools.
    rewrite (H "crewai.agent.tools") by (simpl; tauto). reflexivity.
  - rewrite !extractCrewAISystemPrompt_fields. unfold promptField.
    rewrite (H "crewai.agent.role"), (H "crewai.agent.goal"),
      (H "crewai.agent.backstory") by (simpl; tauto).
    reflexivity.
  - rewrite (H "crewai.agent.max_iter") by (simpl; tauto). reflexivity.
  - rewrite (H "crewai.crew.token_usage") by (simpl; tauto). reflexivity.
Qed.

(* ===================================================================== *)
(** * Framework detection *)
(* ===================================================================== *)

Lemma HasPrefix_spec (s p : string) :
  strings_HasPrefix s p = true <-> exists rest, s = p +:+ rest.
Proof.
  unfold strings_HasPrefix. revert s.
  induction p as [|a p IH]; intros s.
  - destruct s; simpl; split; eauto.
  - destruct s as [|b s]; simpl.
    + split; [discriminate | intros [rest H]; discriminate].
    + destruct (ascii_dec a b) as [->|Hne].
      * rewrite IH. split; intros [rest H]; exists rest.
        -- rewrite append_cons, H. reflexivity.
        -- rewrite append_cons in H. congruence.
      * split; [discriminate|]. intros [rest H].
        rewrite append_cons in H. congruence.
Qed.

Lemma rangeHasCrewAIKey_spec (keys : list string) :
  rangeHasCrewAIKey keys = true
  <-> exists key, key ∈ keys /\ strings_HasPrefix key "crewai." = true.
Proof.
  induction keys as [|k keys IH]; simpl.
  - split; [discriminate|]. intros (key & Hin & _). inversion Hin.
  - destruct (strings_HasPrefix k "crewai.") eqn:E.
    + split; [|reflexivity]. intros _. exists k. split; [left | exact E].
    + rewrite IH. split; intros (key & Hin & Hp).
      * exists key. split; [right; exact Hin | exact Hp].
      * exists key. split; [|exact Hp].
        inversion Hin; subst; [congruence | assumption].
Qed.

Lemma range_finds_crewai_key (rangeOrder : list string) (m : gmap string Value) :
  rangeOrder ≡ₚ elements (dom m) ->
  rangeHasCrewAIKey rangeOrder = true <-> hasCrewAIKey (Some m).
Proof.
  intros Hperm. rewrite rangeHasCrewAIKey_spec. unfold hasCrewAIKey, mapIndex.
  split.
  - intros (key & Hin & Hp). rewrite Hperm, elem_of_elements, elem_of_dom in Hin.
    destruct Hin as [v Hv]. apply HasPrefix_spec in Hp as [rest ->].
    exists ("crewai." +:+ rest), rest, v. split; [reflexivity | exact Hv].
  - intros (key & rest & v & -> & Hv). exists ("crewai." +:+ rest). split.
    + rewrite Hperm, elem_of_elements, elem_of_dom. exists v. exact Hv.
    + apply HasPrefix_spec. exists rest. reflexivity.
Qed.

Lemma IsCrewAISpan_spec (mapUnicodeToLower : string -> string)
    (rangeOrder : list string) (attrs : attrMap) :
  enumerates rangeOrder attrs ->
  IsCrewAISpan mapUnicodeToLower rangeOrder attrs = true
  <-> markerIsCrewAI mapUnicodeToLower attrs \/ hasCrewAIKey attrs.
Proof.
  intros Henum. destruct attrs as [m|]; simpl in *.
  - pose proof (range_finds_crewai_key rangeOrder m Henum) as Hrange.
    unfold markerIsCrewAI, mapIndex.
    destruct (m !! "gen_ai.system") as [v|] eqn:Hv; simpl.
    + destruct v as [|val| | | |]; simpl;
        try (rewrite Hrange; split; [tauto|]; intros [(val & H & _)|H];
             [discriminate | exact H]).
      destruct (String.eqb_spec (strings_ToLower mapUnicodeToLower val) "crewai")
        as [E|E].
      * split; [|reflexivity]. intros _. left. exists val. split; [reflexivity | exact E].
      * rewrite Hrange. split; [tauto|]. intros [(val' & H & E')|H]; [|exact H].
        congruence.
    + rewrite Hrange. split; [tauto|]. intros [(val & H & _)|H];
        [discriminate | exact H].
  - split; [discriminate|].
    intros [(val & H & _)|(key & rest & v & _ & H)]; discriminate.
Qed.

(** ** Bytes *)

Lemma byteVal_range (c : ascii) : 0 <= byteVal c < 256.
Proof.
  unfold byteVal, code. pose proof (N_ascii_bounded c). lia.
Qed.

Lemma byteOf_byteVal (c : ascii) : byteOf (byteVal c) = c.
Proof.
  unfold byteOf, byteVal, code.
  change 255 with (Z.ones 8). rewrite Z.land_ones by lia.
  pose proof (N_ascii_bounded c).
  rewrite Z.mod_small by (change (2 ^ 8) with 256; lia).
  rewrite N2Z.id. apply ascii_N_embedding.
Qed.

Lemma byteVal_byteOf (x : Z) : byteVal (byteOf x) = Z.land x 255.
Proof.
  unfold byteOf, byteVal, code.
  assert (H : 0 <= Z.land x 255 < 256).
  { change 255 with (Z.ones 8). rewrite Z.land_ones by lia.
    change (2 ^ 8) with 256. apply Z.mod_pos_bound. lia. }
  rewrite N_ascii_embedding by lia. lia.
Qed.

Lemma byteVal_inj (a b : ascii) : byteVal a = byteVal b -> a = b.
Proof.
  intros H. rewrite <- (byteOf_byteVal a), <- (byteOf_byteVal b), H. reflexivity.
Qed.

Lemma lor_lower (x y : Z) : 0 <= x -> y <= Z.lor y x.
Proof.
  intros Hx. pose proof (Z.sub_lor_l_same_l x y) as H.
  assert (0 <= Z.land x (Z.lnot y)) by (apply Z.land_nonneg; left; exact Hx).
  lia.
Qed.

(** The first byte of the encoding of a rune beyond ASCII is beyond ASCII. *)
Lemma lead_byte (k x : Z) :
  128 <= k <= 255 -> 128 <= byteVal (byteOf (Z.lor k (Z.land x 255))).
Proof.
  intros Hk. rewrite byteVal_byteOf, Z.land_lor_distr_l.
  assert (0 <= Z.land (Z.land x 255) 255) by (apply Z.land_nonneg; right; lia).
  replace (Z.land k 255) with k.
  - pose proof (lor_lower (Z.land (Z.land x 255) 255) k). lia.
  - change 255 with (Z.ones 8). rewrite Z.land_ones by lia.
    rewrite Z.mod_small; [reflexivity | change (2 ^ 8) with 256; lia].
Qed.

Lemma AppendRune_ascii (r : Z) :
  0 <= r <= 127 -> utf8_AppendRune r = String (byteOf r) "".
Proof.
  intros H. unfold utf8_AppendRune.
  replace ((0 <=? r) && (r <=? 127)) with true by lia. reflexivity.
Qed.

Lemma AppendRune_beyond (r : Z) :
  127 < r -> exists b rest, utf8_AppendRune r = String b rest /\ 128 <= byteVal b.
Proof.
  intros H. unfold utf8_AppendRune.
  replace ((0 <=? r) && (r <=? 127)) with false by lia.
  destruct ((0 <=? r) && (r <=? 2047)).
  - eexists _, _. split; [reflexivity | apply lead_byte; lia].
  - match goal with |- context [if ?c then RuneError else r] => generalize (if c then RuneError else r) end.
    intros r'. destruct (r' <=? 65535);
      (eexists _, _; split; [reflexivity | apply lead_byte; lia]).
Qed.

(** ** The case table *)

Lemma to_LowerCase_into_ascii (caseRange : list (Z * Z * caseDelta)) (r : Z) :
  forallb staysBeyondASCII caseRange = true ->
  128 <= r -> to_LowerCase r caseRange < 128 ->
  (r = 304 /\ to_LowerCase r caseRange = 105)
  \/ (r = 8490 /\ to_LowerCase r caseRange = 107).
Proof.
  intros Hall Hr. induction caseRange as [|[[lo hi] delta] rest IH]; cbn [to_LowerCase].
  - lia.
  - cbn [forallb] in Hall. apply andb_true_iff in Hall as [He Hall].
    destruct ((lo <=? r) && (r <=? hi)) eqn:Hin; [|exact (IH Hall)].
    apply andb_true_iff in Hin as [Hlo Hhi].
    unfold staysBeyondASCII in He. destruct delta as [d|].
    + intros Hlt.
      repeat (apply orb_true_iff in He as [He|He]); lia.
    + intros Hlt. apply orb_true_iff in He as [He|He]; [lia|].
      assert (0 <= Z.lor (Z.land (r - lo) (Z.lnot 1)) 1).
      { apply Z.lor_nonneg. split; [|lia]. apply Z.land_nonneg. left. lia. }
      lia.
Qed.

Lemma CaseRanges_stay : forallb staysBeyondASCII CaseRanges = true.
Proof. vm_compute. reflexivity. Qed.

Lemma ToLower_into_ascii (r : Z) :
  128 <= r -> unicode_ToLower r < 128 ->
  (r = 304 /\ unicode_ToLower r = 105) \/ (r = 8490 /\ unicode_ToLower r = 107).
Proof.
  intros Hr. unfold unicode_ToLower.
  replace (r <=? 127) with false by lia.
  apply to_LowerCase_into_ascii; [exact CaseRanges_stay | exact Hr].
Qed.

Lemma upper_cases (c : ascii) :
  ((65 <=? code c)%N && (code c <=? 90)%N = true /\ 65 <= byteVal c <= 90)
  \/ ((65 <=? code c)%N && (code c <=? 90)%N = false
      /\ (byteVal c < 65 \/ 90 < byteVal c)).
Proof.
  unfold byteVal.
  destruct (N.leb_spec 65 (code c)), (N.leb_spec (code c) 90); cbn [andb];
    [left | right | right | right]; split; try reflexivity; lia.
Qed.

Lemma byteVal_lowerByte (c : ascii) :
  byteVal (lowerByte c)
  = if (65 <=? byteVal c) && (byteVal c <=? 90) then byteVal c + 32 else byteVal c.
Proof.
  unfold lowerByte.
  destruct (upper_cases c) as [[-> H]|[-> H]].
  - replace ((65 <=? byteVal c) && (byteVal c <=? 90)) with true by lia.
    unfold byteVal in *. unfold code at 1. rewrite N_ascii_embedding by lia. lia.
  - replace ((65 <=? byteVal c) && (byteVal c <=? 90)) with false by lia.
    reflexivity.
Qed.

Lemma ToLower_ascii (c : ascii) :
  byteVal c < 128 -> unicode_ToLower (byteVal c) = byteVal (lowerByte c).
Proof.
  intros H. unfold unicode_ToLower. rewrite byteVal_lowerByte.
  replace (byteVal c <=? 127) with true by lia. reflexivity.
Qed.

Lemma lowerByte_ascii (c : ascii) : byteVal c < 128 -> 0 <= byteVal (lowerByte c) <= 127.
Proof.
  intros H. rewrite byteVal_lowerByte. pose proof (byteVal_range c).
  destruct ((65 <=? byteVal c) && (byteVal c <=? 90)) eqn:E; lia.
Qed.

(** ** Decoding *)

Lemma forall_range (P : Z -> bool) (lo : Z) (n : nat) :
  forallb P (map (fun i => lo + Z.of_nat i) (seq 0 n)) = true ->
  forall x, lo <= x < lo + Z.of_nat n -> P x = true.
Proof.
  intros H x Hx. rewrite forallb_forall in H. apply H.
  apply in_map_iff. exists (Z.to_nat (x - lo)). split; [lia|].
  apply in_seq. lia.
Qed.

(** What a leading byte and a second byte in its range decode to: the
    two-byte sequence of U+0130 is C4 B0 and no other, a longer sequence
    gives a rune from U+0800 on. *)
Lemma lead_facts (s0 s1 : Z) (sz : nat) (lo hi : Z) :
  128 <= s0 < 256 -> 0 <= s1 < 256 ->
  utf8_first s0 = Some (sz, lo, hi) -> lo <= s1 <= hi ->
  (sz = 2%nat
   /\ 128 <= Z.lor (Z.shiftl (Z.land s0 31) 6) (Z.land s1 63)
   /\ (Z.lor (Z.shiftl (Z.land s0 31) 6) (Z.land s1 63) = 304 -> s0 = 196 /\ s1 = 176))
  \/ (sz = 3%nat
      /\ 2048 <= Z.lor (Z.shiftl (Z.land s0 15) 12) (Z.shiftl (Z.land s1 63) 6))
  \/ (sz = 4%nat
      /\ 65536 <= Z.lor (Z.shiftl (Z.land s0 7) 18) (Z.shiftl (Z.land s1 63) 12)).
Proof.
  intros H0 H1.
  pose (P := fun s0 s1 : Z =>
    match utf8_first s0 with
    | None => true
    | Some (sz, lo, hi) =>
        if (lo <=? s1) && (s1 <=? hi)
        then match sz with
             | 2%nat =>
                 let r := Z.lor (Z.shiftl (Z.land s0 31) 6) (Z.land s1 63) in
                 (128 <=? r) && (negb (r =? 304) || ((s0 =? 196) && (s1 =? 176)))
             | 3%nat =>
                 2048 <=? Z.lor (Z.shiftl (Z.land s0 15) 12) (Z.shiftl (Z.land s1 63) 6)
             | 4%nat =>
                 65536 <=? Z.lor (Z.shiftl (Z.land s0 7) 18) (Z.shiftl (Z.land s1 63) 12)
             | _ => false
             end
        else true
    end).
  assert (HP : P s0 s1 = true).
  { assert (Hall : forall a, 128 <= a < 128 + Z.of_nat 128 ->
                     (fun a => forallb (P a) (map (fun i => 0 + Z.of_nat i) (seq 0 256))) a
                     = true)
      by (apply forall_range; vm_compute; reflexivity).
    apply (forall_range (P s0) 0 256).
    - apply Hall. change (Z.of_nat 128) with 128. lia.
    - change (Z.of_nat 256) with 256. lia. }
  intros F Hs1. unfold P in HP. rewrite F in HP.
  replace ((lo <=? s1) && (s1 <=? hi)) with true in HP by lia.
  destruct sz as [|[|[|[|[|sz]]]]]; try discriminate HP.
  - left. cbv zeta in HP. split; [reflexivity|].
    apply andb_true_iff in HP as [Hb Hi]. split; [lia|].
    intros E. rewrite E, Z.eqb_refl in Hi. cbn [negb orb] in Hi.
    apply andb_true_iff in Hi as [E0 E1]. lia.
  - right. left. split; [reflexivity | lia].
  - right. right. split; [reflexivity | lia].
Qed.

Lemma Decode_beyond (c0 : ascii) (t0 : string) (r : Z) (w : nat) :
  128 <= byteVal c0 ->
  utf8_DecodeRuneInString (String c0 t0) = (r, w) ->
  128 <= r
  /\ (r = 304 -> c0 = byteOf 196
                 /\ exists rest, t0 = String (byteOf 176) rest /\ w = 2%nat).
Proof.
  intros H0. pose proof (byteVal_range c0) as R0.
  assert (Herr : forall w', (RuneError, w') = (r, w) ->
            128 <= r /\ (r = 304 -> c0 = byteOf 196
                         /\ exists rest, t0 = String (byteOf 176) rest /\ w = 2%nat)).
  { intros w' [= <- _]. unfold RuneError. split; [lia | discriminate]. }
  cbn [utf8_DecodeRuneInString]. cbv zeta.
  replace (byteVal c0 <? 128) with false by lia.
  destruct (utf8_first (byteVal c0)) as [[[sz lo] hi]|] eqn:F; [|apply Herr].
  destruct t0 as [|c1 t1]; [apply Herr|].
  pose proof (byteVal_range c1) as R1.
  destruct ((byteVal c1 <? lo) || (hi <? byteVal c1)) eqn:A; [apply Herr|].
  assert (Hacc : lo <= byteVal c1 <= hi) by lia.
  assert (R0' : 128 <= byteVal c0 < 256) by lia.
  destruct (lead_facts _ _ _ _ _ R0' R1 F Hacc)
    as [(-> & Hb & Hi)|[(-> & Hb)|(-> & Hb)]]; cbn [Nat.leb].
  - intros [= <- <-]. split; [exact Hb|].
    intros E. destruct (Hi E) as [E0 E1]. split.
    + apply byteVal_inj. rewrite byteVal_byteOf. exact E0.
    + exists t1. split; [|reflexivity]. f_equal.
      apply byteVal_inj. rewrite byteVal_byteOf. exact E1.
  - destruct t1 as [|c2 t2]; [apply Herr|].
    destruct (notContinuation (byteVal c2)); [apply Herr|].
    intros [= <- <-].
    assert (0 <= Z.land (byteVal c2) 63) by (apply Z.land_nonneg; right; lia).
    pose proof (lor_lower (Z.land (byteVal c2) 63)
                  (Z.lor (Z.shiftl (Z.land (byteVal c0) 15) 12)
                         (Z.shiftl (Z.land (byteVal c1) 63) 6)) ltac:(lia)).
    split; [lia | intros E; lia].
  - destruct t1 as [|c2 t2]; [apply Herr|].
    destruct (notContinuation (byteVal c2)); [apply Herr|].
    destruct t2 as [|c3 t3]; [apply Herr|].
    destruct (notContinuation (byteVal c3)); [apply Herr|].
    intros [= <- <-].
    assert (0 <= Z.land (byteVal c3) 63) by (apply Z.land_nonneg; right; lia).
    assert (0 <= Z.shiftl (Z.land (byteVal c2) 63) 6).
    { apply Z.shiftl_nonneg. apply Z.land_nonneg. right. lia. }
    pose proof (lor_lower (Z.shiftl (Z.land (byteVal c2) 63) 6)
                  (Z.lor (Z.shiftl (Z.land (byteVal c0) 7) 18)
                         (Z.shiftl (Z.land (byteVal c1) 63) 12)) ltac:(lia)).
    pose proof (lor_lower (Z.land (byteVal c3) 63)
                  (Z.lor (Z.lor (Z.shiftl (Z.land (byteVal c0) 7) 18)
                                (Z.shiftl (Z.land (byteVal c1) 63) 12))
                         (Z.shiftl (Z.land (byteVal c2) 63) 6)) ltac:(lia)).
    split; [lia | intros E; lia].
Qed.

(** ** Lower-casing rune by rune *)

Lemma mapRunes_ascii (a : ascii) (v : string) :
  byteVal a < 128 ->
  mapRunes unicode_ToLower 0 (String a v)
  = String (lowerByte a) (mapRunes unicode_ToLower 0 v).
Proof.
  intros H. cbn [mapRunes utf8_DecodeRuneInString]. cbv zeta.
  replace (byteVal a <? 128) with true by lia.
  rewrite (ToLower_ascii a H).
  pose proof (lowerByte_ascii a H) as R.
  replace (0 <=? byteVal (lowerByte a)) with true by lia.
  rewrite (AppendRune_ascii _ R), byteOf_byteVal. reflexivity.
Qed.

Lemma mapRunes_dottedI (v : string) :
  mapRunes unicode_ToLower 0 (dottedI +:+ v)
  = String "i" (mapRunes unicode_ToLower 0 v).
Proof.
  unfold dottedI. rewrite !append_cons, append_nil_l.
  cbn [mapRunes].
  replace (utf8_DecodeRuneInString (String (byteOf 196) (String (byteOf 176) v)))
    with (304, 2%nat) by (vm_compute; reflexivity).
  replace (unicode_ToLower 304) with 105 by (vm_compute; reflexivity).
  reflexivity.
Qed.

(** The first byte that lower-casing writes for a string that is not
    empty, and the rune it comes from. *)
Lemma mapRunes_head (a : ascii) (v : string) :
  exists b out,
    mapRunes unicode_ToLower 0 (String a v) = String b out
    /\ ((byteVal a < 128 /\ b = lowerByte a /\ out = mapRunes unicode_ToLower 0 v)
        \/ (128 <= byteVal a /\ b = "i"%char
            /\ exists rest, String a v = dottedI +:+ rest
                            /\ out = mapRunes unicode_ToLower 0 rest)
        \/ (128 <= byteVal a /\ b = "k"%char)
        \/ (128 <= byteVal a /\ 128 <= byteVal b)).
Proof.
  destruct (Z.lt_ge_cases (byteVal a) 128) as [Ha|Ha].
  - eexists _, _. split; [apply mapRunes_ascii; exact Ha|].
    left. repeat split. exact Ha.
  - cbn [mapRunes].
    destruct (utf8_DecodeRuneInString (String a v)) as [r w] eqn:D.
    destruct (Decode_beyond a v r w Ha D) as [Hr Hi].
    destruct (Z.lt_ge_cases (unicode_ToLower r) 128) as [Hl|Hl].
    + destruct (ToLower_into_ascii r Hr Hl) as [[-> ->]|[-> ->]].
      * destruct (Hi eq_refl) as (-> & rest & -> & ->).
        eexists _, _. split; [reflexivity|].
        right. left. split; [exact Ha|]. split; [reflexivity|].
        exists rest. split; reflexivity.
      * eexists _, _. split; [reflexivity|].
        right. right. left. split; [exact Ha | reflexivity].
    + replace (0 <=? unicode_ToLower r) with true by lia.
      destruct (AppendRune_beyond (unicode_ToLower r)) as (b & rest & -> & Hb); [lia|].
      exists b. eexists. split; [reflexivity|].
      right. right. right. split; assumption.
Qed.

Lemma mapRunes_nil (v : string) : mapRunes unicode_ToLower 0 v = "" -> v = "".
Proof.
  destruct v as [|a v]; [reflexivity|].
  destruct (mapRunes_head a v) as (b & out & -> & _). discriminate.
Qed.

(** A small ASCII letter other than k at the head of the lower-cased
    string: the string starts with the letter in either case or, for i,
    with U+0130. *)
Lemma mapRunes_letter (val : string) (w : ascii) (out : string) :
  mapRunes unicode_ToLower 0 val = String w out ->
  byteVal w < 128 -> w <> "k"%char ->
  exists a v,
    (val = String a v /\ byteVal a < 128 /\ lowerByte a = w
     /\ mapRunes unicode_ToLower 0 v = out)
    \/ (w = "i"%char /\ val = dottedI +:+ v /\ mapRunes unicode_ToLower 0 v = out).
Proof.
  intros H Hw Hk. destruct val as [|a v]; [discriminate H|].
  destruct (mapRunes_head a v)
    as (b & out' & E & [(Ha & -> & ->)|[(Ha & -> & rest & Hv & ->)|[(Ha & ->)|(Ha & Hb)]]]);
    rewrite E in H; injection H as <- <-.
  - exists a, v. left. repeat split. exact Ha.
  - exists a, rest. right. repeat split. exact Hv.
  - congruence.
  - lia.
Qed.

(** The lower-casing of the library is one function: on a string of ASCII
    bytes the loop over the runes gives what the loop over the bytes gives. *)
Lemma Map_lowerASCII (s : string) :
  isASCII s = true -> mapRunes unicode_ToLower 0 s = lowerASCII s.
Proof.
  induction s as [|a s IH]; [reflexivity|].
  cbn [isASCII lowerASCII]. intros H. apply andb_true_iff in H as [Ha Hs].
  apply N.ltb_lt in Ha.
  rewrite mapRunes_ascii, (IH Hs); [reflexivity|].
  unfold byteVal. lia.
Qed.

Lemma ToLower_Map (s : string) : strings_ToLower mapToLower s = mapToLower s.
Proof.
  unfold strings_ToLower. destruct (isASCII s) eqn:E; [|reflexivity].
  symmetry. apply Map_lowerASCII, E.
Qed.

(** ** Letters in either case *)

Lemma code_inj (a b : ascii) : code a = code b -> a = b.
Proof.
  unfold code. intros H.
  rewrite <- (ascii_N_embedding a), <- (ascii_N_embedding b), H. reflexivity.
Qed.

Lemma isLetter_spec (c : ascii) :
  isLetter c = true <-> (65 <= code c <= 90 \/ 97 <= code c <= 122)%N.
Proof.
  unfold isLetter.
  rewrite orb_true_iff, !andb_true_iff, !N.leb_le. reflexivity.
Qed.

Lemma sameLetter_spec (a b : ascii) :
  sameLetter a b = true
  <-> a = b
      \/ (isLetter a = true /\ isLetter b = true
          /\ (code a = code b + 32 \/ code b = code a + 32)%N).
Proof.
  unfold sameLetter.
  rewrite orb_true_iff, !andb_true_iff, orb_true_iff, !N.eqb_eq.
  rewrite Ascii.eqb_eq. tauto.
Qed.

Lemma lowerByte_code (c : ascii) :
  code (lowerByte c)
  = if ((65 <=? code c) && (code c <=? 90))%N then (code c + 32)%N else code c.
Proof.
  unfold lowerByte.
  destruct ((65 <=? code c)%N && (code c <=? 90)%N) eqn:E; [|reflexivity].
  apply andb_true_iff in E as [E1 E2]. apply N.leb_le in E1, E2.
  unfold code at 1. rewrite N_ascii_embedding; lia.
Qed.

Lemma lowerByte_sameLetter (a w : ascii) : lowerByte a = w -> sameLetter a w = true.
Proof.
  intros <-. apply sameLetter_spec.
  pose proof (lowerByte_code a) as H.
  destruct ((65 <=? code a)%N && (code a <=? 90)%N) eqn:E.
  - apply andb_true_iff in E as [E1 E2]. apply N.leb_le in E1, E2.
    right. rewrite !isLetter_spec. lia.
  - left. apply code_inj. symmetry. exact H.
Qed.

Lemma sameLetter_lowerByte (a w : ascii) :
  sameLetter a w = true -> (code w < 65 \/ 90 < code w)%N -> lowerByte a = w.
Proof.
  intros H Hw. apply sameLetter_spec in H. apply code_inj.
  rewrite lowerByte_code.
  destruct H as [->|(La & Lw & H)].
  - replace ((65 <=? code w)%N && (code w <=? 90)%N) with false; [reflexivity|].
    symmetry. apply andb_false_iff. rewrite !N.leb_gt. lia.
  - apply isLetter_spec in La, Lw.
    replace ((65 <=? code a)%N && (code a <=? 90)%N) with true; [lia|].
    symmetry. apply andb_true_iff. rewrite !N.leb_le. lia.
Qed.

Lemma sameLetter_ascii (a w : ascii) :
  sameLetter a w = true -> (code w < 128)%N -> (code a < 128)%N.
Proof.
  intros H Hw. apply sameLetter_spec in H as [->|(La & _)]; [exact Hw|].
  apply isLetter_spec in La. lia.
Qed.

Lemma sameLetter_other (a w : ascii) :
  sameLetter a w = true -> isLetter w = false -> a = w.
Proof.
  intros H Hw. apply sameLetter_spec in H as [->|(_ & Lw & _)]; [reflexivity|].
  congruence.
Qed.

Lemma equalIgnoringCase_cons (val : string) (w : ascii) (word : string) :
  equalIgnoringCase val (String w word) = true ->
  exists a v, val = String a v /\ sameLetter a w = true
              /\ equalIgnoringCase v word = true.
Proof.
  destruct val as [|a v]; [discriminate|]. cbn [equalIgnoringCase].
  intros H. apply andb_true_iff in H as [H1 H2]. exists a, v. auto.
Qed.

Lemma equalIgnoringCase_nil (val : string) : equalIgnoringCase val "" = true -> val = "".
Proof. destruct val; [reflexivity | discriminate]. Qed.

Ltac letter_facts :=
  repeat match goal with
         | H : sameLetter ?a ?w = true |- _ =>
             let L := fresh "L" in
             let A := fresh "A" in
             assert (L : lowerByte a = w)
               by (apply (sameLetter_lowerByte a w H); vm_compute; right; reflexivity);
             assert (A : (code a < 128)%N)
               by (apply (sameLetter_ascii a w H); vm_compute; reflexivity);
             clear H
         end.

(** The marker values that [strings.ToLower] turns into "crewai". *)
Lemma ToLower_crewai (val : string) :
  strings_ToLower mapToLower val = "crewai" <-> spellsCrewAI val = true.
Proof.
  rewrite ToLower_Map. unfold mapToLower, strings_Map, spellsCrewAI. split.
  - intros H.
    repeat match type of H with
           | mapRunes _ _ _ = String ?w _ =>
               let L := fresh "L" in
               let Hw := fresh "Hw" in
               apply mapRunes_letter in H as (? & ? & [(-> & _ & L & H)|(Hw & -> & H)]);
                 [ apply lowerByte_sameLetter in L
                 | try discriminate Hw
                 | vm_compute; reflexivity
                 | discriminate ]
           end;
      apply mapRunes_nil in H; subst; apply orb_true_iff; [left | right];
      cbv beta iota delta [String.append dottedI]; cbn [equalIgnoringCase];
      repeat match goal with L : sameLetter _ _ = true |- _ => rewrite L; clear L end;
      reflexivity.
  - intros H. apply orb_true_iff in H as [H|H].
    + repeat (apply equalIgnoringCase_cons in H as (? & ? & -> & ? & H)).
      apply equalIgnoringCase_nil in H as ->. letter_facts.
      rewrite Map_lowerASCII.
      * cbn [lowerASCII]. congruence.
      * cbn [isASCII].
        repeat match goal with A : (code _ < 128)%N |- _ =>
                 apply N.ltb_lt in A; rewrite A; clear A end.
        reflexivity.
    + unfold dottedI in H. rewrite !append_cons, append_nil_l in H.
      do 5 (apply equalIgnoringCase_cons in H as (? & ? & -> & ? & H)).
      apply equalIgnoringCase_cons in H as (c6 & ? & -> & H6 & H).
      apply equalIgnoringCase_cons in H as (c7 & ? & -> & H7 & H).
      apply equalIgnoringCase_nil in H as ->.
      apply sameLetter_other in H6; [|vm_compute; reflexivity].
      apply sameLetter_other in H7; [|vm_compute; reflexivity].
      subst c6 c7. letter_facts.
      repeat (rewrite mapRunes_ascii by (unfold byteVal; lia)).
      change (String (byteOf 196) (String (byteOf 176) "")) with (dottedI +:+ "").
      rewrite mapRunes_dottedI. cbn [mapRunes]. congruence.
Qed.

Lemma marker_spelling (attrs : attrMap) :
  markerIsCrewAI mapToLower attrs <-> markerSpellsCrewAI attrs.
Proof.
  unfold markerIsCrewAI, markerSpellsCrewAI.
  split; intros (val & H & E); exists val; (split; [exact H|]);
    apply ToLower_crewai; exact E.
Qed.

(** A value with U+0130 is not made of ASCII bytes. *)
Lemma spellsCrewAI_ascii (val : string) :
  isASCII val = true -> spellsCrewAI val = equalIgnoringCase val "crewai".
Proof.
  intros Hascii. unfold spellsCrewAI.
  destruct (equalIgnoringCase val ("crewa" +:+ dottedI)) eqn:H;
    [|apply orb_false_r].
  exfalso. unfold dottedI in H. rewrite !append_cons, append_nil_l in H.
  do 5 (apply equalIgnoringCase_cons in H as (? & ? & -> & ? & H)).
  apply equalIgnoringCase_cons in H as (c6 & ? & -> & H6 & _).
  apply sameLetter_other in H6; [|vm_compute; reflexivity]. subst c6.
  cbn [isASCII] in Hascii.
  do 5 (apply andb_true_iff in Hascii as [_ Hascii]).
  apply andb_true_iff in Hascii as [Hascii _].
  vm_compute in Hascii. discriminate Hascii.
Qed.

(** C1, as the code has it: the detector answers CrewAI exactly when the
    marker attribute gen_ai.system is a string that [strings.ToLower] turns
    into "crewai", or some key of the map starts with "crewai."; otherwise,
    and on the nil map, it answers no; the answer is the same in whatever
    order the keys are enumerated.  The strings that lower to "crewai" are
    the ones equal to "crewai" under case-insensitive comparison and the
    same strings with U+0130 (capital I with dot above) for the last
    letter; for a marker of ASCII bytes the comparison is the
    case-insensitive one. *)
Theorem C1_framework_detection :
  forall (rangeOrder : list string) (attrs : attrMap),
    enumerates rangeOrder attrs ->
    (IsCrewAISpan mapToLower rangeOrder attrs = true
     <-> markerSpellsCrewAI attrs \/ hasCrewAIKey attrs)
    /\ (~ (markerSpellsCrewAI attrs \/ hasCrewAIKey attrs)
        -> IsCrewAISpan mapToLower rangeOrder attrs = false)
    /\ (attrs = None -> IsCrewAISpan mapToLower rangeOrder attrs = false)
    /\ (forall rangeOrder' : list string,
          enumerates rangeOrder' attrs ->
          IsCrewAISpan mapToLower rangeOrder' attrs
          = IsCrewAISpan mapToLower rangeOrder attrs)
    /\ (markerEqualsCrewAI attrs -> IsCrewAISpan mapToLower rangeOrder attrs = true)
    /\ (forall val : string,
          mapIndex attrs "gen_ai.system" = Some (VString val) ->
          isASCII val = true ->
          (IsCrewAISpan mapToLower rangeOrder attrs = true
           <-> equalIgnoringCase val "crewai" = true \/ hasCrewAIKey attrs)).
Proof.
  intros rangeOrder attrs Henum.
  assert (Hspec : forall order, enumerates order attrs ->
            (IsCrewAISpan mapToLower order attrs = true
             <-> markerSpellsCrewAI attrs \/ hasCrewAIKey attrs)).
  { intros order Horder. rewrite <- marker_spelling.
    apply IsCrewAISpan_spec, Horder. }
  split; [exact (Hspec rangeOrder Henum)|].
  split; [|split; [|split; [|split]]].
  - intros Hno.
    destruct (IsCrewAISpan mapToLower rangeOrder attrs) eqn:E; [|reflexivity].
    exfalso. apply Hno, (Hspec rangeOrder Henum). exact E.
  - intros ->. reflexivity.
  - intros rangeOrder' Henum'. apply Bool.eq_true_iff_eq.
    rewrite (Hspec rangeOrder Henum), (Hspec rangeOrder' Henum'). reflexivity.
  - intros (val & H & E). apply (Hspec rangeOrder Henum). left.
    exists val. split; [exact H|]. unfold spellsCrewAI. rewrite E. reflexivity.
  - intros val H Hascii. rewrite (Hspec rangeOrder Henum).
    split; (intros [Hm|Hk]; [left | right; exact Hk]).
    + destruct Hm as (val' & H' & E). rewrite H in H'. injection H' as <-.
      rewrite <- (spellsCrewAI_ascii val Hascii). exact E.
    + exists val. split; [exact H|].
      rewrite (spellsCrewAI_ascii val Hascii). exact Hm.
Qed.

(** C1 on a map with the marker in mixed case alone, on a map with another
    marker and a namespaced key, the keys enumerated in one order and in
    the other, and on a map with neither. *)
Lemma C1_framework_detection_witness :
  IsCrewAISpan mapToLower ["gen_ai.system"]
    (Some {[ "gen_ai.system" := VString "CrewAI" ]}) = true
  /\ IsCrewAISpan mapToLower ["crewai.agent.role"; "gen_ai.system"]
       (Some {[ "gen_ai.system" := VString "openai"; "crewai.agent.role" := VString "x" ]})
     = true
  /\ IsCrewAISpan mapToLower ["crewai.agent.role"; "gen_ai.system"]
       (Some {[ "gen_ai.system" := VString "openai"; "crewai.agent.role" := VString "x" ]})
     = IsCrewAISpan mapToLower ["gen_ai.system"; "crewai.agent.role"]
         (Some {[ "gen_ai.system" := VString "openai"; "crewai.agent.role" := VString "x" ]})
  /\ IsCrewAISpan mapToLower ["gen_ai.system"]
       (Some {[ "gen_ai.system" := VString "openai" ]}) = false.
Proof.
  assert (H1 : forall v, enumerates ["gen_ai.system"]
                           (Some {[ "gen_ai.system" := VString v ]})).
  { intros v. unfold enumerates. rewrite dom_singleton_L, elements_singleton.
    reflexivity. }
  assert (H2 : enumerates ["gen_ai.system"; "crewai.agent.role"]
                 (Some {[ "gen_ai.system" := VString "openai";
                          "crewai.agent.role" := VString "x" ]})).
  { unfold enumerates. vm_compute (elements _). reflexivity. }
  assert (H3 : enumerates ["crewai.agent.role"; "gen_ai.system"]
                 (Some {[ "gen_ai.system" := VString "openai";
                          "crewai.agent.role" := VString "x" ]})).
  { unfold enumerates. vm_compute (elements _). apply Permutation_swap. }
  split; [|split; [|split]].
  - destruct (C1_framework_detection _ _ (H1 "CrewAI")) as (Hiff & _).
    apply Hiff. left.
    exists "CrewAI". split; vm_compute; reflexivity.
  - destruct (C1_framework_detection _ _ H3) as (Hiff & _).
    apply Hiff. right.
    exists "crewai.agent.role", "agent.role", (VString "x").
    split; vm_compute; reflexivity.
  - destruct (C1_framework_detection _ _ H2) as (_ & _ & _ & Horder & _).
    apply Horder. exact H3.
  - destruct (C1_framework_detection _ _ (H1 "openai")) as (_ & Hno & _).
    apply Hno. intros [(val & H & E)|(key & rest & v & -> & H)].
    + vm_compute in H. injection H as <-. vm_compute in E. discriminate E.
    + unfold mapIndex in H. apply lookup_singleton_Some in H as [H _].
      cbv [String.append] in H. discriminate H.
Defined.

(** C1 as stated fails: "CREWA" followed by U+0130 is not equal to "crewai"
    under case-insensitive comparison, no key of the map starts with
    "crewai.", and the detector answers CrewAI, since [strings.ToLower]
    turns U+0130 into i. *)
Lemma C1_capital_I_with_dot_is_accepted :
  enumerates ["gen_ai.system"] dottedMarker
  /\ IsCrewAISpan mapToLower ["gen_ai.system"] dottedMarker = true
  /\ equalIgnoringCase ("CREWA" +:+ dottedI) "crewai" = false
  /\ ~ (markerEqualsCrewAI dottedMarker \/ hasCrewAIKey dottedMarker).
Proof.
  split; [|split; [|split]].
  - unfold enumerates, dottedMarker.
    rewrite dom_singleton_L, elements_singleton. reflexivity.
  - vm_compute. reflexivity.
  - vm_compute. reflexivity.
  - unfold dottedMarker. intros [(val & H & E)|(key & rest & v & -> & H)].
    + vm_compute in H. injection H as <-. vm_compute in E. discriminate E.
    + unfold mapIndex in H. apply lookup_singleton_Some in H as [H _].
      cbv [String.append] in H. discriminate H.
Qed.

(* ===================================================================== *)
(** * Fields *)
(* ===================================================================== *)

Lemma spaceWidth_le_length (s : string) : (spaceWidth s <= String.length s)%nat.
Proof.
  destruct s as [|c1 [|c2 [|c3 s]]]; simpl;
    repeat match goal with |- context [if ?b then _ else _] => destruct b end; lia.
Qed.

(** A space after [a] does not change what [a] starts with. *)
Lemma spaceWidth_app_SP (a b : string) :
  a <> "" -> spaceWidth (a +:+ String SP b) = spaceWidth a.
Proof.
  intros Ha. destruct a as [|c1 [|c2 [|c3 a]]]; [congruence| | |];
    rewrite ?append_cons, ?append_nil_l; simpl.
  - rewrite isSpace2_SP_r. destruct b; [reflexivity|].
    rewrite isSpace3_SP_mid. reflexivity.
  - rewrite isSpace3_SP_r. reflexivity.
  - reflexivity.
Qed.

Lemma consField_app (f : string) (fs l : list string) :
  consField f (fs ++ l) = consField f fs ++ l.
Proof. destruct f; reflexivity. Qed.

Lemma fieldsFrom_app_SP (a b : string) :
  forall skip, (skip <= String.length a)%nat ->
    fieldsFrom skip (a +:+ String SP b)
    = ((fieldsFrom skip a).1, (fieldsFrom skip a).2 ++ strings_Fields b).
Proof.
  induction a as [|c a IH]; intros skip Hskip.
  - simpl in Hskip. assert (skip = 0%nat) as -> by lia.
    rewrite append_nil_l. unfold strings_Fields. simpl.
    destruct (fieldsFrom 0 b) as [f fs]. reflexivity.
  - rewrite append_cons. simpl in Hskip.
    destruct skip as [|k].
    + pose proof (spaceWidth_app_SP (String c a) b) as Hw.
      rewrite append_cons in Hw.
      pose proof (spaceWidth_le_length (String c a)) as Hle.
      cbn [String.length] in Hle.
      cbn [fieldsFrom]. rewrite Hw by discriminate.
      destruct (spaceWidth (String c a)) as [|k].
      * rewrite IH by lia. destruct (fieldsFrom 0 a) as [f fs]. reflexivity.
      * rewrite IH by lia. destruct (fieldsFrom k a) as [f fs]. simpl.
        rewrite consField_app. reflexivity.
    + cbn [fieldsFrom]. rewrite IH by lia.
      destruct (fieldsFrom k a) as [f fs]. simpl.
      rewrite consField_app. reflexivity.
Qed.

(** [strings.Fields] on two strings joined by a space. *)
Lemma Fields_app_SP (a b : string) :
  strings_Fields (a +:+ String SP b) = strings_Fields a ++ strings_Fields b.
Proof.
  unfold strings_Fields at 1 2. rewrite fieldsFrom_app_SP by lia.
  destruct (fieldsFrom 0 a) as [f fs]. simpl. apply consField_app.
Qed.

Lemma In_consField (tok f : string) (fs : list string) :
  In tok (consField f fs) -> tok = f \/ In tok fs.
Proof. destruct f; simpl; intuition. Qed.

Lemma fieldsFrom_length (s : string) :
  forall skip tok,
    tok = (fieldsFrom skip s).1 \/ In tok (fieldsFrom skip s).2 ->
    (String.length tok <= String.length s)%nat.
Proof.
  induction s as [|c s IH]; intros skip tok.
  - simpl. intros [->|[]]. simpl. lia.
  - cbn [fieldsFrom]. destruct skip as [|k].
    + destruct (spaceWidth (String c s)) as [|k].
      * specialize (IH 0%nat). destruct (fieldsFrom 0 s) as [f fs]. simpl in *.
        intros [->|H].
        -- simpl. specialize (IH f (or_introl eq_refl)). lia.
        -- specialize (IH tok (or_intror H)). lia.
      * specialize (IH k). destruct (fieldsFrom k s) as [f fs]. simpl in *.
        intros [->|H]; [simpl; lia|].
        apply In_consField in H. specialize (IH tok H). lia.
    + specialize (IH k). destruct (fieldsFrom k s) as [f fs]. simpl in *.
      intros [->|H]; [simpl; lia|].
      apply In_consField in H. specialize (IH tok H). lia.
Qed.

(** A string that is one field: [strings.Fields] returns it whole. *)
Lemma Fields_single (tok : string) :
  strings_Fields tok = [tok] -> fieldsFrom 0 tok = (tok, []).
Proof.
  unfold strings_Fields. destruct tok as [|c s]; [discriminate|].
  cbn [fieldsFrom].
  destruct (spaceWidth (String c s)) as [|k].
  - destruct (fieldsFrom 0 s) as [f fs]. simpl. congruence.
  - pose proof (fieldsFrom_length s k (String c s)) as Hlen.
    destruct (fieldsFrom k s) as [f fs]. cbn [consField fst snd] in *.
    intros H. exfalso.
    assert (Hin : In (String c s) (consField f fs)) by (rewrite H; left; reflexivity).
    apply In_consField in Hin. specialize (Hlen Hin). simpl in Hlen. lia.
Qed.

(** No white space rune starts anywhere in a string that is one field. *)
Lemma single_field_no_space (s : string) :
  fieldsFrom 0 s = (s, []) ->
  forall p t, s = p +:+ t -> spaceWidth t = 0%nat.
Proof.
  induction s as [|c s IH]; intros H p t Hs.
  - symmetry in Hs. apply append_eq_nil in Hs as [_ ->]. reflexivity.
  - cbn [fieldsFrom] in H.
    destruct (spaceWidth (String c s)) as [|k] eqn:E;
      [|destruct (fieldsFrom k s); discriminate].
    destruct (fieldsFrom 0 s) as [f fs] eqn:E'.
    injection H as Hf Hfs. subst f fs.
    destruct p as [|x p].
    + rewrite append_nil_l in Hs. subst t. exact E.
    + rewrite append_cons in Hs. injection Hs as _ Hs.
      eapply IH; [reflexivity | exact Hs].
Qed.

Lemma fieldsFrom_bytes (c : ascii) (s : string) :
  forall skip tok,
    tok = (fieldsFrom skip s).1 \/ In tok (fieldsFrom skip s).2 ->
    forall p t, tok = p +:+ String c t -> exists p' t', s = p' +:+ String c t'.
Proof.
  induction s as [|x s IH]; intros skip tok.
  - simpl. intros [->|[]] p t H. destruct p; discriminate.
  - cbn [fieldsFrom]. destruct skip as [|k].
    + destruct (spaceWidth (String x s)) as [|k].
      * specialize (IH 0%nat). destruct (fieldsFrom 0 s) as [f fs]. simpl in *.
        intros [->|H] p t Hp.
        -- destruct p as [|y p].
           ++ rewrite append_nil_l in Hp. injection Hp as -> _.
              exists "", s. reflexivity.
           ++ rewrite append_cons in Hp. injection Hp as _ Hp.
              destruct (IH f (or_introl eq_refl) p t Hp) as (p' & t' & ->).
              exists (String x p'), t'. reflexivity.
        -- destruct (IH tok (or_intror H) p t Hp) as (p' & t' & ->).
           exists (String x p'), t'. reflexivity.
      * specialize (IH k). destruct (fieldsFrom k s) as [f fs]. simpl in *.
        intros [->|H] p t Hp; [destruct p; discriminate|].
        apply In_consField in H.
        destruct (IH tok H p t Hp) as (p' & t' & ->).
        exists (String x p'), t'. reflexivity.
    + specialize (IH k). destruct (fieldsFrom k s) as [f fs]. simpl in *.
      intros [->|H] p t Hp; [destruct p; discriminate|].
      apply In_consField in H.
      destruct (IH tok H p t Hp) as (p' & t' & ->).
      exists (String x p'), t'. reflexivity.
Qed.

(** A byte of a field is a byte of the string the field was cut from. *)
Lemma Fields_bytes (c : ascii) (s tok p t : string) :
  In tok (strings_Fields s) -> tok = p +:+ String c t ->
  exists p' t', s = p' +:+ String c t'.
Proof.
  unfold strings_Fields. intros Hin.
  pose proof (fieldsFrom_bytes c s 0 tok) as H.
  destruct (fieldsFrom 0 s) as [f fs]. simpl in H.
  apply In_consField in Hin. apply H. exact Hin.
Qed.

(* ===================================================================== *)
(** * Scanning an integer *)
(* ===================================================================== *)

Lemma hasByte_spec (c : ascii) (s : string) :
  hasByte c s = true <-> exists p t, s = p +:+ String c t.
Proof.
  induction s as [|x s IH]; simpl.
  - split; [discriminate|]. intros (p & t & H). destruct p; discriminate.
  - destruct (Ascii.eqb_spec x c) as [->|Hne]; simpl.
    + split; [|reflexivity]. intros _. exists "", s. reflexivity.
    + rewrite IH. split; intros (p & t & H).
      * exists (String x p), t. rewrite append_cons, H. reflexivity.
      * destruct p as [|y p].
        -- rewrite append_nil_l in H. congruence.
        -- rewrite append_cons in H. injection H as _ H. eauto.
Qed.

Lemma hasByte_false_suffix (c : ascii) (p t : string) :
  hasByte c (p +:+ t) = false -> hasByte c t = false.
Proof.
  intros H. destruct (hasByte c t) eqn:E; [|reflexivity].
  apply hasByte_spec in E as (p' & t' & ->).
  rewrite <- H. symmetry. apply hasByte_spec.
  exists (p +:+ p'), t'. rewrite append_assoc. reflexivity.
Qed.

Lemma digitVal_bounds (c : ascii) : isDigit c = true -> 0 <= digitVal c <= 9.
Proof.
  unfold isDigit, digitVal. rewrite andb_true_iff, !N.leb_le. lia.
Qed.

Lemma scanDigits_nonneg (s : string) :
  forall acc, 0 <= acc -> 0 <= scanDigits acc s.
Proof.
  induction s as [|c s IH]; intros acc Hacc; simpl; [exact Hacc|].
  destruct (isDigit c) eqn:E; [|exact Hacc].
  apply IH. pose proof (digitVal_bounds c E). lia.
Qed.

Lemma parseIntRange_bounds (neg : bool) (n m : Z) :
  0 <= n -> parseIntRange neg n = Some m ->
  minInt <= m <= maxInt /\ (neg = false -> 0 <= m).
Proof.
  unfold parseIntRange, minInt, maxInt. intros Hn.
  destruct neg.
  - destruct (n <=? 2 ^ 63) eqn:E; [|discriminate].
    intros [= <-]. apply Z.leb_le in E. split; [lia | discriminate].
  - destruct (n <=? 2 ^ 63 - 1) eqn:E; [|discriminate].
    intros [= <-]. apply Z.leb_le in E. split; [lia | intros _; exact Hn].
Qed.

(** What [%d] scans fits an [int], and is negative only behind a minus sign. *)
Lemma scanInt_bounds (s : string) (m : Z) :
  scanInt s = Some m ->
  minInt <= m <= maxInt /\ (hasByte "-" s = false -> 0 <= m).
Proof.
  unfold scanInt. destruct s as [|c s]; [discriminate|].
  set (digits := if (Ascii.eqb c "-" || Ascii.eqb c "+")%bool then s else String c s).
  destruct digits as [|d rest] eqn:Ed; [discriminate|].
  destruct (isDigit d); [|discriminate].
  intros H. apply parseIntRange_bounds in H; [|apply scanDigits_nonneg; lia].
  destruct H as [Hr Hs]. split; [exact Hr|].
  simpl. intros Hno. apply Hs.
  apply orb_false_iff in Hno as [Hc _]. exact Hc.
Qed.

Lemma skipSpace_suffix (s : string) :
  forall skip t, skipSpace skip s = Some t -> exists p, s = p +:+ t.
Proof.
  induction s as [|c s IH]; intros skip t; cbn [skipSpace].
  - intros [= <-]. exists "". reflexivity.
  - destruct skip as [|k].
    + destruct (Ascii.eqb c LF); [discriminate|].
      destruct (spaceWidth (String c s)) as [|k].
      * intros [= <-]. exists "". reflexivity.
      * intros H. destruct (IH k t H) as [p ->]. exists (String c p). reflexivity.
    + intros H. destruct (IH k t H) as [p ->]. exists (String c p). reflexivity.
Qed.

Lemma Sscanf_d_bounds (str : string) (m : Z) :
  fmt_Sscanf_d str = Some m ->
  minInt <= m <= maxInt /\ (hasByte "-" str = false -> 0 <= m).
Proof.
  unfold fmt_Sscanf_d. destruct (skipSpace 0 str) as [s|] eqn:E; [|discriminate].
  intros H. apply scanInt_bounds in H as [Hr Hs]. split; [exact Hr|].
  intros Hno. apply Hs.
  apply skipSpace_suffix in E as [p ->].
  eapply hasByte_false_suffix. exact Hno.
Qed.

(** Where there is no white space to skip, [Sscanf] scans from the start. *)
Lemma Sscanf_d_no_space (v : string) :
  spaceWidth v = 0%nat -> fmt_Sscanf_d v = scanInt v.
Proof.
  intros H. unfold fmt_Sscanf_d. destruct v as [|c v]; [reflexivity|].
  cbn [skipSpace]. destruct (Ascii.eqb_spec c LF) as [->|Hne].
  - discriminate H.
  - rewrite H. reflexivity.
Qed.

Lemma cutAt_spec (sep : ascii) (s before after : string) :
  cutAt sep s = Some (before, after) -> s = before +:+ String sep after.
Proof.
  revert before. induction s as [|c s IH]; intros before; simpl; [discriminate|].
  destruct (Ascii.eqb_spec c sep) as [->|Hne].
  - intros [= <- <-]. reflexivity.
  - destruct (cutAt sep s) as [[b a]|]; [|discriminate].
    intros [= <- <-]. rewrite append_cons, (IH b eq_refl). reflexivity.
Qed.

(* ===================================================================== *)
(** * Token usage *)
(* ===================================================================== *)

Lemma parseCrewAITokenUsage_unfold (s : string) :
  parseCrewAITokenUsage s
  = if hasPositive (usageAfterPairs s) then Some (usageAfterPairs s) else None.
Proof.
  unfold parseCrewAITokenUsage.
  destruct (String.eqb_spec s "") as [->|Hne]; reflexivity.
Qed.

Lemma hasPositive_spec (u : LLMTokenUsage.t) :
  hasPositive u = true
  <-> 0 < LLMTokenUsage.TotalTokens u \/ 0 < LLMTokenUsage.InputTokens u
      \/ 0 < LLMTokenUsage.OutputTokens u.
Proof.
  unfold hasPositive. rewrite !orb_true_iff, !Z.ltb_lt. tauto.
Qed.

(** C2: the token-usage parser returns either nothing or a record in which
    one of totalTokens, inputTokens, outputTokens is greater than zero; a
    parse that leaves these fields at zero is discarded; the empty string
    and "foo=bar" give nothing. *)
Theorem C2_token_usage_absent_or_positive :
  (forall (s : string) (u : LLMTokenUsage.t),
     parseCrewAITokenUsage s = Some u ->
     u = usageAfterPairs s
     /\ (0 < LLMTokenUsage.TotalTokens u \/ 0 < LLMTokenUsage.InputTokens u
         \/ 0 < LLMTokenUsage.OutputTokens u))
  /\ (forall s : string,
        LLMTokenUsage.TotalTokens (usageAfterPairs s) <= 0 ->
        LLMTokenUsage.InputTokens (usageAfterPairs s) <= 0 ->
        LLMTokenUsage.OutputTokens (usageAfterPairs s) <= 0 ->
        parseCrewAITokenUsage s = None)
  /\ (forall s : string,
        usageAfterPairs s = LLMTokenUsage.zero -> parseCrewAITokenUsage s = None)
  /\ parseCrewAITokenUsage "" = None
  /\ parseCrewAITokenUsage "foo=bar" = None.
Proof.
  assert (Hzero : forall s : string,
            LLMTokenUsage.TotalTokens (usageAfterPairs s) <= 0 ->
            LLMTokenUsage.InputTokens (usageAfterPairs s) <= 0 ->
            LLMTokenUsage.OutputTokens (usageAfterPairs s) <= 0 ->
            parseCrewAITokenUsage s = None).
  { intros s Ht Hi Ho. rewrite parseCrewAITokenUsage_unfold.
    destruct (hasPositive (usageAfterPairs s)) eqn:E; [|reflexivity].
    apply hasPositive_spec in E. lia. }
  split; [|split; [exact Hzero|split; [|split]]].
  - intros s u. rewrite parseCrewAITokenUsage_unfold.
    destruct (hasPositive (usageAfterPairs s)) eqn:E; [|discriminate].
    intros [= <-]. split; [reflexivity|]. apply hasPositive_spec, E.
  - intros s H. apply Hzero; rewrite H; simpl; lia.
  - reflexivity.
  - vm_compute. reflexivity.
Qed.

Lemma parsePair_ok (nonneg : bool) (u : LLMTokenUsage.t) (pair : string) :
  usageOk nonneg u ->
  (nonneg = true -> hasByte "-" pair = false) ->
  usageOk nonneg (parsePair u pair).
Proof.
  intros Hu Hpair. unfold parsePair, strings_SplitN_2.
  destruct (cutAt "=" pair) as [[key value]|] eqn:Ecut; [|exact Hu].
  destruct (fmt_Sscanf_d value) as [n|] eqn:Escan; [|exact Hu].
  assert (Hn : fieldOk nonneg n).
  { apply Sscanf_d_bounds in Escan as [Hr Hs]. split; [exact Hr|].
    intros Hnn. apply Hs. apply cutAt_spec in Ecut. subst pair.
    specialize (Hpair Hnn). apply hasByte_false_suffix in Hpair.
    simpl in Hpair. exact Hpair. }
  destruct u as [t i o c]. destruct Hu as (Ht & Hi & Ho & Hc). simpl in *.
  repeat match goal with
         | |- context [String.eqb key ?k] => destruct (String.eqb key k)
         end; unfold usageOk; simpl; tauto.
Qed.

Lemma fold_parsePair_ok (nonneg : bool) (pairs : list string) :
  forall u, usageOk nonneg u ->
    (forall pair, In pair pairs -> nonneg = true -> hasByte "-" pair = false) ->
    usageOk nonneg (fold_left parsePair pairs u).
Proof.
  induction pairs as [|pair pairs IH]; intros u Hu Hpairs; simpl; [exact Hu|].
  apply IH.
  - apply parsePair_ok; [exact Hu | apply Hpairs; left; reflexivity].
  - intros p Hp. apply Hpairs. right. exact Hp.
Qed.

Lemma zero_ok (nonneg : bool) : usageOk nonneg LLMTokenUsage.zero.
Proof.
  unfold usageOk, fieldOk, minInt, maxInt. simpl. repeat split; lia.
Qed.

Lemma Fields_no_byte (c : ascii) (s tok : string) :
  hasByte c s = false -> In tok (strings_Fields s) -> hasByte c tok = false.
Proof.
  intros Hs Hin. destruct (hasByte c tok) eqn:E; [|reflexivity].
  apply hasByte_spec in E as (p & t & E).
  destruct (Fields_bytes c s tok p t Hin E) as (p' & t' & Hs').
  rewrite <- Hs. symmetry. apply hasByte_spec. eauto.
Qed.

(** C7, as the code has it: every field of a record that the token-usage
    parser returns is an integer in the range of [int]; when the input has
    no minus sign, every field is non-negative. *)
Theorem C7_token_fields_fit_int :
  forall (s : string) (u : LLMTokenUsage.t),
    parseCrewAITokenUsage s = Some u ->
    (minInt <= LLMTokenUsage.TotalTokens u <= maxInt
     /\ minInt <= LLMTokenUsage.InputTokens u <= maxInt
     /\ minInt <= LLMTokenUsage.OutputTokens u <= maxInt
     /\ minInt <= LLMTokenUsage.CacheReadInputTokens u <= maxInt)
    /\ (hasByte "-" s = false ->
        0 <= LLMTokenUsage.TotalTokens u
        /\ 0 <= LLMTokenUsage.InputTokens u
        /\ 0 <= LLMTokenUsage.OutputTokens u
        /\ 0 <= LLMTokenUsage.CacheReadInputTokens u).
Proof.
  intros s u. rewrite parseCrewAITokenUsage_unfold.
  destruct (hasPositive (usageAfterPairs s)); [|discriminate].
  intros [= <-]. unfold usageAfterPairs. split.
  - assert (H : usageOk false (fold_left parsePair (strings_Fields s) LLMTokenUsage.zero)).
    { apply fold_parsePair_ok; [apply zero_ok | discriminate]. }
    unfold usageOk, fieldOk in H. tauto.
  - intros Hno.
    assert (H : usageOk true (fold_left parsePair (strings_Fields s) LLMTokenUsage.zero)).
    { apply fold_parsePair_ok; [apply zero_ok|].
      intros pair Hin _. eapply Fields_no_byte; eassumption. }
    unfold usageOk, fieldOk in H. intuition.
Qed.

(** C7 on the input of the specification's example. *)
Lemma C7_token_fields_fit_int_witness :
  (minInt <= 57062 <= maxInt /\ minInt <= 46376 <= maxInt
   /\ minInt <= 10686 <= maxInt /\ minInt <= 0 <= maxInt)
  /\ (hasByte "-" "total_tokens=57062 prompt_tokens=46376 cached_prompt_tokens=0 completion_tokens=10686 successful_requests=10" = false ->
      0 <= 57062 /\ 0 <= 46376 /\ 0 <= 10686 /\ 0 <= 0).
Proof.
  apply (C7_token_fields_fit_int
           "total_tokens=57062 prompt_tokens=46376 cached_prompt_tokens=0 completion_tokens=10686 successful_requests=10"
           (LLMTokenUsage.mk 57062 46376 10686 0)).
  vm_compute. reflexivity.
Defined.

(** C7 as stated fails: a value behind a minus sign is stored as it is. *)
Lemma C7_negative_field_is_returned :
  parseCrewAITokenUsage "total_tokens=10 prompt_tokens=-5"
  = Some (LLMTokenUsage.mk 10 (-5) 0 0)
  /\ LLMTokenUsage.InputTokens (LLMTokenUsage.mk 10 (-5) 0 0) < 0.
Proof. split; [vm_compute; reflexivity | simpl; lia]. Qed.

(* ===================================================================== *)
(** * Base-10 integers *)
(* ===================================================================== *)

Lemma digitPrefix_allDigits (s : string) : allDigits s = true -> digitPrefix s = s.
Proof.
  induction s as [|c s IH]; simpl; [reflexivity|].
  intros H. apply andb_true_iff in H as [Hc Hs]. rewrite Hc, IH; auto.
Qed.

Lemma scanDigits_positional (s : string) :
  forall acc,
    scanDigits acc s
    = acc * 10 ^ Z.of_nat (String.length (digitPrefix s)) + positional (digitPrefix s).
Proof.
  induction s as [|c s IH]; intros acc; simpl; [lia|].
  destruct (isDigit c); [|simpl; lia].
  rewrite IH. cbn [String.length positional].
  rewrite Nat2Z.inj_succ, Z.pow_succ_r by lia. ring.
Qed.

Lemma scanDigits_0 (s : string) : scanDigits 0 s = positional (digitPrefix s).
Proof. rewrite scanDigits_positional. lia. Qed.

Lemma parseIntRange_Some (neg : bool) (n m : Z) :
  parseIntRange neg n = Some m -> m = if neg then - n else n.
Proof.
  unfold parseIntRange. destruct neg.
  - destruct (n <=? 2 ^ 63); [congruence | discriminate].
  - destruct (n <=? maxInt); [congruence | discriminate].
Qed.

Lemma parseIntRange_in_range (neg : bool) (n : Z) :
  minInt <= (if neg then - n else n) <= maxInt ->
  parseIntRange neg n = Some (if neg then - n else n).
Proof.
  unfold parseIntRange, minInt, maxInt. intros H. destruct neg.
  - destruct (Z.leb_spec n (2 ^ 63)); [reflexivity | lia].
  - destruct (Z.leb_spec n (2 ^ 63 - 1)); [reflexivity | lia].
Qed.

Lemma isSign_cases (c : ascii) :
  isSign c = true -> (Ascii.eqb c "-" = true) \/ (Ascii.eqb c "-" = false /\ Ascii.eqb c "+" = true).
Proof.
  unfold isSign. destruct (Ascii.eqb c "-"); simpl; [left; reflexivity|].
  intros H. right. split; [reflexivity | exact H].
Qed.

Lemma isSign_false (c : ascii) :
  isSign c = false -> Ascii.eqb c "-" = false /\ Ascii.eqb c "+" = false.
Proof. unfold isSign. apply orb_false_iff. Qed.

(** What [%d] scans is the base-10 integer that the text begins with. *)
Lemma scanInt_Some (v : string) (n : Z) :
  scanInt v = Some n ->
  beginsWithInteger v = true /\ n = base10Value (integerPrefix v).
Proof.
  unfold scanInt, beginsWithInteger, integerPrefix. destruct v as [|c v]; [discriminate|].
  fold (isSign c). destruct (isSign c) eqn:Es.
  - destruct v as [|d v]; [discriminate|].
    destruct (isDigit d) eqn:Ed; [|discriminate].
    intros H. apply parseIntRange_Some in H. rewrite scanDigits_0 in H.
    split; [reflexivity|]. subst n. unfold base10Value.
    destruct (isSign_cases c Es) as [E|[E E']]; rewrite E; [reflexivity|].
    rewrite E'. reflexivity.
  - destruct (isDigit c) eqn:Ed; [|discriminate].
    intros H. apply parseIntRange_Some in H. rewrite scanDigits_0 in H.
    split; [reflexivity|]. subst n.
    destruct (isSign_false c Es) as [E E']. rewrite E.
    cbn [digitPrefix]. rewrite Ed. unfold base10Value. rewrite E, E'. reflexivity.
Qed.

Lemma scanInt_not_integer (v : string) :
  beginsWithInteger v = false -> scanInt v = None.
Proof.
  unfold scanInt, beginsWithInteger. destruct v as [|c v]; [reflexivity|].
  fold (isSign c). destruct (isSign c).
  - destruct v as [|d v]; [reflexivity|]. intros ->. reflexivity.
  - intros ->. reflexivity.
Qed.

(** A base-10 integer in the range of [int] scans to its value. *)
Lemma scanInt_base10 (v : string) :
  isBase10Integer v = true ->
  minInt <= base10Value v <= maxInt ->
  scanInt v = Some (base10Value v).
Proof.
  unfold isBase10Integer, scanInt, base10Value. destruct v as [|c v]; [discriminate|].
  fold (isSign c). destruct (isSign c) eqn:Es.
  - intros H Hr. apply andb_true_iff in H as [Hne Hd].
    destruct v as [|d v]; [discriminate|].
    pose proof Hd as Hd'. cbn [allDigits] in Hd'. apply andb_true_iff in Hd' as [Ed _].
    rewrite Ed, scanDigits_0, (digitPrefix_allDigits _ Hd).
    destruct (isSign_cases c Es) as [E|[E E']]; rewrite E in *.
    + apply (parseIntRange_in_range true). exact Hr.
    + rewrite E' in *. apply (parseIntRange_in_range false). exact Hr.
  - intros Hd Hr. destruct (isSign_false c Es) as [E E']. rewrite E, E' in *.
    pose proof Hd as Hd'. cbn [allDigits] in Hd'. apply andb_true_iff in Hd' as [Ed _].
    rewrite Ed, scanDigits_0, (digitPrefix_allDigits _ Hd).
    apply (parseIntRange_in_range false). exact Hr.
Qed.

(** A printable ASCII byte starts no white space rune. *)
Lemma spaceWidth_printable (c : ascii) (s : string) :
  (33 <= code c)%N -> (code c < 128)%N -> spaceWidth (String c s) = 0%nat.
Proof.
  intros Hlo Hhi.
  assert (Ha : asciiSpace c = false).
  { unfold asciiSpace. apply orb_false_iff. split.
    - apply andb_false_iff. right. apply N.leb_gt. lia.
    - apply N.eqb_neq. lia. }
  assert (H2 : forall c2, isSpace2 c c2 = false).
  { intros c2. unfold isSpace2.
    replace (code c =? 194)%N with false by (symmetry; apply N.eqb_neq; lia).
    reflexivity. }
  assert (H3 : forall c2 c3, isSpace3 c c2 c3 = false).
  { intros c2 c3. unfold isSpace3.
    replace (code c =? 225)%N with false by (symmetry; apply N.eqb_neq; lia).
    replace (code c =? 226)%N with false by (symmetry; apply N.eqb_neq; lia).
    replace (code c =? 227)%N with false by (symmetry; apply N.eqb_neq; lia).
    reflexivity. }
  destruct s as [|c2 [|c3 s]]; simpl; rewrite Ha, ?H2, ?H3; reflexivity.
Qed.

Lemma isDigit_code (c : ascii) : isDigit c = true -> (48 <= code c <= 57)%N.
Proof. unfold isDigit. rewrite andb_true_iff, !N.leb_le. tauto. Qed.

Lemma isSign_code (c : ascii) : isSign c = true -> (code c = 45 \/ code c = 43)%N.
Proof.
  unfold isSign. rewrite orb_true_iff.
  intros [H|H]; apply Ascii.eqb_eq in H; subst c; [left | right]; reflexivity.
Qed.

Lemma Sscanf_d_base10 (v : string) :
  isBase10Integer v = true ->
  minInt <= base10Value v <= maxInt ->
  fmt_Sscanf_d v = Some (base10Value v).
Proof.
  intros Hv Hr. rewrite Sscanf_d_no_space; [apply scanInt_base10; assumption|].
  unfold isBase10Integer in Hv. destruct v as [|c v]; [discriminate|].
  destruct (isSign c) eqn:Es.
  - apply isSign_code in Es. apply spaceWidth_printable; lia.
  - cbn [allDigits] in Hv. apply andb_true_iff in Hv as [Ed _].
    apply isDigit_code in Ed. apply spaceWidth_printable; lia.
Qed.

(* ===================================================================== *)
(** * The pairs of a token-usage string *)
(* ===================================================================== *)

Lemma fieldsFrom_head_prefix (s : string) :
  forall skip, exists r, s = (fieldsFrom skip s).1 +:+ r.
Proof.
  induction s as [|c s IH]; intros skip.
  - exists "". reflexivity.
  - cbn [fieldsFrom]. destruct skip as [|k].
    + destruct (spaceWidth (String c s)) as [|k].
      * destruct (IH 0%nat) as [r Hr]. destruct (fieldsFrom 0 s) as [f fs].
        simpl in *. exists r. rewrite append_cons, <- Hr. reflexivity.
      * destruct (fieldsFrom k s) as [f fs]. simpl. exists (String c s). reflexivity.
    + destruct (fieldsFrom k s) as [f fs]. simpl. exists (String c s). reflexivity.
Qed.

(** No white space rune starts anywhere in a field. *)
Lemma fieldsFrom_no_space (s : string) :
  forall skip tok,
    tok = (fieldsFrom skip s).1 \/ In tok (fieldsFrom skip s).2 ->
    forall p t, tok = p +:+ t -> spaceWidth t = 0%nat.
Proof.
  induction s as [|c s IH]; intros skip tok.
  - simpl. intros [->|[]] p t H. symmetry in H.
    apply append_eq_nil in H as [_ ->]. reflexivity.
  - assert (Hnil : forall p t : string, "" = p +:+ t -> spaceWidth t = 0%nat).
    { intros p t H. symmetry in H. apply append_eq_nil in H as [_ ->]. reflexivity. }
    cbn [fieldsFrom]. destruct skip as [|k].
    + destruct (spaceWidth (String c s)) as [|k] eqn:E.
      * specialize (IH 0%nat). destruct (fieldsFrom_head_prefix s 0) as [r Hr].
        destruct (fieldsFrom 0 s) as [f fs]. cbn [fst snd] in *.
        intros [->|H] p t Hp; [|exact (IH tok (or_intror H) p t Hp)].
        destruct p as [|x p].
        -- rewrite append_nil_l in Hp. subst t.
           destruct (spaceWidth (String c f)) as [|k] eqn:E'; [reflexivity|].
           apply (spaceWidth_extend _ r) in E'.
           rewrite append_cons, <- Hr, E in E'. discriminate.
        -- rewrite append_cons in Hp. injection Hp as _ Hp.
           exact (IH f (or_introl eq_refl) p t Hp).
      * specialize (IH k). destruct (fieldsFrom k s) as [f fs]. cbn [fst snd] in *.
        intros [->|H]; [exact Hnil|].
        apply In_consField in H. exact (IH tok H).
    + specialize (IH k). destruct (fieldsFrom k s) as [f fs]. cbn [fst snd] in *.
      intros [->|H]; [exact Hnil|].
      apply In_consField in H. exact (IH tok H).
Qed.

Lemma Fields_no_space (s tok p t : string) :
  In tok (strings_Fields s) -> tok = p +:+ t -> spaceWidth t = 0%nat.
Proof.
  unfold strings_Fields. intros Hin.
  pose proof (fieldsFrom_no_space s 0 tok) as H.
  destruct (fieldsFrom 0 s) as [f fs]. simpl in H.
  apply In_consField in Hin. apply H. exact Hin.
Qed.

Lemma cutAt_first (sep : ascii) (s before after : string) :
  cutAt sep s = Some (before, after) -> hasByte sep before = false.
Proof.
  revert before. induction s as [|c s IH]; intros before; simpl; [discriminate|].
  destruct (Ascii.eqb c sep) eqn:E.
  - intros [= <- <-]. reflexivity.
  - destruct (cutAt sep s) as [[b a]|]; [|discriminate].
    intros [= <- <-]. simpl. rewrite E. apply (IH b eq_refl).
Qed.

(** The value part of a pair without white space is scanned from its start. *)
Lemma pair_value_scan (tok key value : string) :
  (forall p t, tok = p +:+ t -> spaceWidth t = 0%nat) ->
  cutAt "=" tok = Some (key, value) ->
  fmt_Sscanf_d value = scanInt value.
Proof.
  intros Hns Hcut. apply Sscanf_d_no_space.
  apply cutAt_spec in Hcut.
  apply (Hns (key +:+ String "=" "")). rewrite append_assoc. exact Hcut.
Qed.

Lemma parsePair_no_eq (u : LLMTokenUsage.t) (tok : string) :
  cutAt "=" tok = None -> parsePair u tok = u.
Proof. intros H. unfold parsePair, strings_SplitN_2. rewrite H. reflexivity. Qed.

Lemma parsePair_unrecognized (u : LLMTokenUsage.t) (tok key value : string) :
  cutAt "=" tok = Some (key, value) -> recognizedField key = None ->
  parsePair u tok = u.
Proof.
  intros Hcut Hkey. unfold parsePair, strings_SplitN_2. rewrite Hcut.
  destruct (fmt_Sscanf_d value); [|reflexivity].
  destruct u as [t i o c]. unfold recognizedField in Hkey.
  repeat match goal with
         | |- context [String.eqb key ?k] => destruct (String.eqb key k)
         end; first [discriminate | reflexivity].
Qed.

Lemma parsePair_not_integer (u : LLMTokenUsage.t) (tok key value : string) :
  (forall p t, tok = p +:+ t -> spaceWidth t = 0%nat) ->
  cutAt "=" tok = Some (key, value) -> beginsWithInteger value = false ->
  parsePair u tok = u.
Proof.
  intros Hns Hcut Hv. unfold parsePair, strings_SplitN_2. rewrite Hcut.
  rewrite (pair_value_scan tok key value Hns Hcut), scanInt_not_integer by exact Hv.
  reflexivity.
Qed.

Lemma parsePair_skipped (tok : string) :
  strings_Fields tok = [tok] -> skippedToken tok = true ->
  forall u, parsePair u tok = u.
Proof.
  intros Hone Hskip u. unfold skippedToken in Hskip.
  destruct (cutAt "=" tok) as [[key value]|] eqn:Hcut;
    [|apply parsePair_no_eq; exact Hcut].
  apply orb_true_iff in Hskip as [Hv|Hk].
  - apply (parsePair_not_integer u tok key value); [|exact Hcut|].
    + apply single_field_no_space, Fields_single, Hone.
    + apply negb_true_iff, Hv.
  - apply (parsePair_unrecognized u tok key value Hcut).
    destruct (recognizedField key); [discriminate | reflexivity].
Qed.

(** A skipped token between two spaces leaves the result as it is without
    the token. *)
Lemma parse_skips_token (a b tok : string) :
  strings_Fields tok = [tok] -> skippedToken tok = true ->
  parseCrewAITokenUsage (a +:+ String SP (tok +:+ String SP b))
  = parseCrewAITokenUsage (a +:+ String SP b).
Proof.
  intros Hone Hskip. rewrite !parseCrewAITokenUsage_unfold. unfold usageAfterPairs.
  rewrite !Fields_app_SP, Hone, !fold_left_app. cbn [fold_left app].
  rewrite (parsePair_skipped tok Hone Hskip). reflexivity.
Qed.

(** A known key with a base-10 integer in the range of [int] sets its field
    to the integer and leaves the other fields. *)
Lemma parsePair_accepts (u : LLMTokenUsage.t) (key v : string)
    (field : LLMTokenUsage.t -> Z) :
  recognizedField key = Some field ->
  isBase10Integer v = true ->
  minInt <= base10Value v <= maxInt ->
  field (parsePair u (key +:+ String "=" v)) = base10Value v
  /\ forall key' field',
       recognizedField key' = Some field' -> key' <> key ->
       field' (parsePair u (key +:+ String "=" v)) = field' u.
Proof.
  intros Hkey Hv Hr. unfold recognizedField in Hkey.
  assert (Hother : forall (P : (LLMTokenUsage.t -> Z) -> Prop),
            (key <> "total_tokens" -> P LLMTokenUsage.TotalTokens) ->
            (key <> "prompt_tokens" -> P LLMTokenUsage.InputTokens) ->
            (key <> "completion_tokens" -> P LLMTokenUsage.OutputTokens) ->
            (key <> "cached_prompt_tokens" -> P LLMTokenUsage.CacheReadInputTokens) ->
            forall key' field', recognizedField key' = Some field' -> key' <> key ->
                                P field').
  { intros P Ht Hi Ho Hc key' field' Hk' Hne. unfold recognizedField in Hk'.
    destruct (String.eqb_spec key' "total_tokens") as [->|_];
      [injection Hk' as <-; apply Ht; congruence|].
    destruct (String.eqb_spec key' "prompt_tokens") as [->|_];
      [injection Hk' as <-; apply Hi; congruence|].
    destruct (String.eqb_spec key' "completion_tokens") as [->|_];
      [injection Hk' as <-; apply Ho; congruence|].
    destruct (String.eqb_spec key' "cached_prompt_tokens") as [->|_];
      [injection Hk' as <-; apply Hc; congruence | discriminate]. }
  pose proof (Sscanf_d_base10 v Hv Hr) as Hscan.
  destruct u as [t i o c].
  destruct (String.eqb_spec key "total_tokens") as [->|_];
    [|destruct (String.eqb_spec key "prompt_tokens") as [->|_];
      [|destruct (String.eqb_spec key "completion_tokens") as [->|_];
        [|destruct (String.eqb_spec key "cached_prompt_tokens") as [->|_];
          [|discriminate]]]];
    injection Hkey as <-;
    unfold parsePair, strings_SplitN_2;
    match goal with
    | |- context [cutAt "=" (?k +:+ String "=" v)] =>
        change (cutAt "=" (k +:+ String "=" v)) with (Some (k, v))
    end;
    cbv beta iota; rewrite Hscan; cbn [String.eqb Ascii.eqb Bool.eqb];
    (split; [reflexivity|]);
    apply Hother; intros Hne; first [congruence | reflexivity].
Qed.

Lemma parsePair_fromPairs (pairs : list string) (u : LLMTokenUsage.t) (tok : string) :
  usageFromPairs pairs u -> In tok pairs ->
  (forall p t, tok = p +:+ t -> spaceWidth t = 0%nat) ->
  usageFromPairs pairs (parsePair u tok).
Proof.
  intros Hu Hin Hns. unfold parsePair, strings_SplitN_2.
  destruct (cutAt "=" tok) as [[key value]|] eqn:Hcut; [|exact Hu].
  rewrite (pair_value_scan tok key value Hns Hcut).
  destruct (scanInt value) as [n|] eqn:Hscan; [|exact Hu].
  assert (Hn : fromPairs pairs n).
  { right. exists tok, key, value. apply scanInt_Some in Hscan as [Hb Hv].
    split; [exact Hin|]. split; [apply cutAt_spec, Hcut|].
    split; [apply (cutAt_first _ _ _ _ Hcut)|]. split; assumption. }
  destruct u as [t i o c]. destruct Hu as (Ht & Hi & Ho & Hc). simpl in *.
  repeat match goal with
         | |- context [String.eqb key ?k] => destruct (String.eqb key k)
         end; unfold usageFromPairs; simpl; tauto.
Qed.

Lemma fold_parsePair_fromPairs (all pairs : list string) :
  forall u, usageFromPairs all u ->
    (forall tok, In tok pairs ->
       In tok all /\ forall p t, tok = p +:+ t -> spaceWidth t = 0%nat) ->
    usageFromPairs all (fold_left parsePair pairs u).
Proof.
  induction pairs as [|tok pairs IH]; intros u Hu Hpairs; simpl; [exact Hu|].
  apply IH.
  - destruct (Hpairs tok (or_introl eq_refl)) as [Hin Hns].
    apply parsePair_fromPairs; assumption.
  - intros tok' Hin. apply Hpairs. right. exact Hin.
Qed.

Lemma usageAfterPairs_fromPairs (s : string) :
  usageFromPairs (strings_Fields s) (usageAfterPairs s).
Proof.
  unfold usageAfterPairs. apply fold_parsePair_fromPairs.
  - unfold usageFromPairs, fromPairs. simpl. tauto.
  - intros tok Hin. split; [exact Hin|].
    intros p t. apply (Fields_no_space s tok p t Hin).
Qed.

(** C3, as the code has it: the input is split at white space and each
    token at its first [=]; a token without [=], a token whose value part
    does not begin with a base-10 integer (an optional sign, then a digit)
    and a token with a key that is not known are skipped, and the result is
    the one of the input without the token; a known key with a base-10
    integer in the range of [int] sets its field to that integer and no
    other field; a field of the result is zero or the integer that a value
    part begins with; the input of the specification's example gives
    total 57062, input 46376, output 10686, cache read 0. *)
Theorem C3_token_usage_pairs :
  (forall a b tok : string,
     strings_Fields tok = [tok] -> skippedToken tok = true ->
     parseCrewAITokenUsage (a +:+ String SP (tok +:+ String SP b))
     = parseCrewAITokenUsage (a +:+ String SP b))
  /\ (forall (u : LLMTokenUsage.t) (key v : string) (field : LLMTokenUsage.t -> Z),
        recognizedField key = Some field ->
        isBase10Integer v = true ->
        minInt <= base10Value v <= maxInt ->
        field (parsePair u (key +:+ String "=" v)) = base10Value v
        /\ forall key' field',
             recognizedField key' = Some field' -> key' <> key ->
             field' (parsePair u (key +:+ String "=" v)) = field' u)
  /\ (forall (s : string) (u : LLMTokenUsage.t),
        parseCrewAITokenUsage s = Some u ->
        usageFromPairs (strings_Fields s) u)
  /\ parseCrewAITokenUsage
       "total_tokens=57062 prompt_tokens=46376 cached_prompt_tokens=0 completion_tokens=10686 successful_requests=10"
     = Some (LLMTokenUsage.mk 57062 46376 10686 0).
Proof.
  split; [exact parse_skips_token|].
  split; [exact parsePair_accepts|].
  split; [|vm_compute; reflexivity].
  intros s u. rewrite parseCrewAITokenUsage_unfold.
  destruct (hasPositive (usageAfterPairs s)); [|discriminate].
  intros [= <-]. apply usageAfterPairs_fromPairs.
Qed.

(** The parts of C3 at concrete tokens: a pair with a value that is no
    number is skipped, a pair with a number is taken. *)
Lemma C3_token_usage_pairs_witness :
  parseCrewAITokenUsage
    ("total_tokens=5" +:+ String SP ("prompt_tokens=abc" +:+ String SP "completion_tokens=7"))
  = parseCrewAITokenUsage ("total_tokens=5" +:+ String SP "completion_tokens=7")
  /\ LLMTokenUsage.InputTokens
       (parsePair LLMTokenUsage.zero ("prompt_tokens" +:+ String "=" "46376"))
     = 46376.
Proof.
  destruct C3_token_usage_pairs as (Hskip & Haccept & _).
  split.
  - apply Hskip; vm_compute; reflexivity.
  - apply (Haccept LLMTokenUsage.zero "prompt_tokens" "46376" LLMTokenUsage.InputTokens).
    + reflexivity.
    + vm_compute. reflexivity.
    + vm_compute. split; discriminate.
Defined.

(** C3 as stated fails: the value part "12abc" is no base-10 integer, and
    the token is not skipped, its leading digits are taken. *)
Lemma C3_value_with_trailing_text_is_taken :
  strings_SplitN_2 "total_tokens=12abc" "=" = ["total_tokens"; "12abc"]
  /\ isBase10Integer "12abc" = false
  /\ parseCrewAITokenUsage "total_tokens=12abc" = Some (LLMTokenUsage.mk 12 0 0 0)
  /\ parseCrewAITokenUsage "" = None.
Proof. repeat split; vm_compute; reflexivity. Qed.

(* ===================================================================== *)
(** * Root spans and spans of other frameworks *)
(* ===================================================================== *)

Lemma stringOrNil_cases (v : option Value) :
  stringOrNil v = VNil \/ exists s, stringOrNil v = VString s.
Proof. destruct v as [[]|]; simpl; eauto. Qed.

Lemma ExtractCrewAISpanInputOutput_lookup (attrs : attrMap) :
  ExtractCrewAISpanInputOutput attrs
  = (stringOrNil (mapIndex attrs "crewai.crew.tasks_output"),
     stringOrNil (mapIndex attrs "crewai.crew.result")).
Proof.
  destruct attrs as [m|]; [|reflexivity].
  unfold ExtractCrewAISpanInputOutput, mapIndex.
  destruct (m !! "crewai.crew.tasks_output") as [[]|];
    destruct (m !! "crewai.crew.result") as [[]|]; reflexivity.
Qed.

(** X1: for a root span, nil or with a nil attribute map included, the
    workflow extractor returns what the generic extractor returns on the
    attributes of the span, a nil span giving two nils; each of the two
    results is nil or a string, whatever the types of the attributes. *)
Theorem root_span_input_output :
  forall rootSpan : option Span.t,
    ExtractCrewAIRootSpanInputOutput rootSpan
    = match rootSpan with
      | None => (VNil, VNil)
      | Some span => ExtractCrewAISpanInputOutput (Span.Attributes span)
      end
    /\ ((ExtractCrewAIRootSpanInputOutput rootSpan).1 = VNil
        \/ exists s, (ExtractCrewAIRootSpanInputOutput rootSpan).1 = VString s)
    /\ ((ExtractCrewAIRootSpanInputOutput rootSpan).2 = VNil
        \/ exists s, (ExtractCrewAIRootSpanInputOutput rootSpan).2 = VString s).
Proof.
  intros rootSpan.
  assert (E : ExtractCrewAIRootSpanInputOutput rootSpan
              = match rootSpan with
                | None => (VNil, VNil)
                | Some span => ExtractCrewAISpanInputOutput (Span.Attributes span)
                end).
  { destruct rootSpan as [[[m|]]|]; reflexivity. }
  rewrite E. split; [reflexivity|].
  destruct rootSpan as [span|]; [|simpl; auto].
  rewrite ExtractCrewAISpanInputOutput_lookup. simpl.
  split; apply stringOrNil_cases.
Qed.

(** Without a key in the crewai. name space, no attribute that the
    extractors read is there. *)
Lemma no_crewai_key_lookup (attrs : attrMap) (rest : string) :
  ~ hasCrewAIKey attrs -> mapIndex attrs ("crewai." +:+ rest) = None.
Proof.
  intros Hno. destruct (mapIndex attrs ("crewai." +:+ rest)) as [v|] eqn:E;
    [|reflexivity].
  exfalso. apply Hno. exists ("crewai." +:+ rest), rest, v. split; [reflexivity | exact E].
Qed.

Lemma Populate_without_crewai_keys (parseToolsJSON : string -> slice ToolDefinition.t)
    (amp : AmpAttributes.t) (attrs : attrMap) :
  ~ hasCrewAIKey attrs ->
  PopulateCrewAIAgentAttributes parseToolsJSON (Some amp) attrs
  = Some (AmpAttributes.mk VNil VNil (Some emptyAgentData)).
Proof.
  intros Hno.
  pose proof (fun rest => no_crewai_key_lookup attrs rest Hno) as H.
  unfold PopulateCrewAIAgentAttributes.
  rewrite ExtractCrewAISpanInputOutput_lookup.
  unfold extractCrewAIAgentTools, extractCrewAISystemPrompt.
  pose proof (H "crew.tasks_output") as H1. pose proof (H "crew.result") as H2.
  pose proof (H "agent.role") as H3. pose proof (H "crew.name") as H4.
  pose proof (H "agent.tools") as H5. pose proof (H "agent.goal") as H6.
  pose proof (H "agent.backstory") as H7. pose proof (H "agent.max_iter") as H8.
  pose proof (H "crew.token_usage") as H9.
  cbv beta iota delta [String.append] in H1, H2, H3, H4, H5, H6, H7, H8, H9.
  rewrite H1, H2, H3, H4, H5, H6, H7, H8, H9. reflexivity.
Qed.

(** X2: on a map without a key in the crewai. name space (the nil map
    among them) the populator finds nothing: input and output are nil and
    the agent data holds the framework and zero values only. *)
Theorem populate_finds_nothing_without_crewai_keys :
  forall (parseToolsJSON : string -> slice ToolDefinition.t)
         (amp : AmpAttributes.t) (attrs : attrMap),
    ~ hasCrewAIKey attrs ->
    PopulateCrewAIAgentAttributes parseToolsJSON (Some amp) attrs
    = Some (AmpAttributes.mk VNil VNil (Some emptyAgentData)).
Proof. exact Populate_without_crewai_keys. Qed.

(** X2 on the attributes of an HTTP span. *)
Lemma populate_finds_nothing_without_crewai_keys_witness :
  PopulateCrewAIAgentAttributes (fun _ => mkSlice [])
    (Some (AmpAttributes.mk (VBool true) VNil None))
    (Some {[ "http.method" := VString "GET"; "gen_ai.system" := VString "openai" ]})
  = Some (AmpAttributes.mk VNil VNil (Some emptyAgentData)).
Proof.
  apply populate_finds_nothing_without_crewai_keys.
  intros (key & rest & v & -> & H). unfold mapIndex in H.
  rewrite lookup_insert_ne, lookup_singleton_ne in H by discriminate. discriminate.
Defined.

(** X3: whenever the populator extracts anything (an input, an output or
    agent data other than the zero values), the detector recognises the map
    as a CrewAI span, in whatever order the keys are enumerated. *)
Theorem populated_span_is_detected :
  forall (parseToolsJSON : string -> slice ToolDefinition.t)
         (mapUnicodeToLower : string -> string) (rangeOrder : list string)
         (amp : AmpAttributes.t) (attrs : attrMap),
    enumerates rangeOrder attrs ->
    PopulateCrewAIAgentAttributes parseToolsJSON (Some amp) attrs
    <> Some (AmpAttributes.mk VNil VNil (Some emptyAgentData)) ->
    IsCrewAISpan mapUnicodeToLower rangeOrder attrs = true.
Proof.
  intros parse lower rangeOrder amp attrs Henum Hfound.
  destruct (IsCrewAISpan lower rangeOrder attrs) eqn:E; [reflexivity|].
  exfalso. apply Hfound, Populate_without_crewai_keys.
  intros Hkey.
  assert (Htrue : IsCrewAISpan lower rangeOrder attrs = true)
    by (apply IsCrewAISpan_spec; [exact Henum | right; exact Hkey]).
  congruence.
Qed.

(** X3 on a map with a crew name. *)
Lemma populated_span_is_detected_witness :
  IsCrewAISpan (fun s => s) ["crewai.crew.name"]
    (Some {[ "crewai.crew.name" := VString "Research Crew" ]}) = true.
Proof.
  apply (populated_span_is_detected (fun _ => mkSlice []) (fun s => s)
           ["crewai.crew.name"] (AmpAttributes.mk VNil VNil None)).
  - unfold enumerates. vm_compute (elements _). reflexivity.
  - vm_compute. discriminate.
Defined.

(** X4: the system prompt has no white space at its ends (trimming it
    again changes nothing), and it is empty exactly when role, goal and
    backstory are all absent or blank. *)
Theorem system_prompt_trimmed_and_empty_iff_blank :
  forall attrs : attrMap,
    strings_TrimSpace (extractCrewAISystemPrompt attrs) = extractCrewAISystemPrompt attrs
    /\ (extractCrewAISystemPrompt attrs = ""
        <-> promptField attrs "crewai.agent.role" = ""
            /\ promptField attrs "crewai.agent.goal" = ""
            /\ promptField attrs "crewai.agent.backstory" = "").
Proof.
  intros attrs. split.
  - unfold extractCrewAISystemPrompt.
    match goal with
    | |- strings_TrimSpace (if ?b then _ else _) = _ => destruct b
    end; [reflexivity | apply TrimSpace_idempotent].
  - rewrite extractCrewAISystemPrompt_fields.
    rewrite composePromptSpec_lines by apply promptField_trimmed.
    generalize (promptField attrs "crewai.agent.role") as role.
    generalize (promptField attrs "crewai.agent.goal") as goal.
    generalize (promptField attrs "crewai.agent.backstory") as backstory.
    intros backstory goal role. unfold promptLines, promptLine.
    destruct (String.eqb_spec role ""), (String.eqb_spec goal ""),
      (String.eqb_spec backstory ""); cbn [app String.concat];
      (split; [intros H | intros (Hr & Hg & Hb)]);
      try (repeat split; congruence); try congruence;
      rewrite ?append_cons in H; discriminate H.
Qed.

(* ===================================================================== *)
(** * Token usage: order, spaces and bounds *)
(* ===================================================================== *)

Lemma usageAfterPairs_app_SP (a b : string) :
  usageAfterPairs (a +:+ String SP b)
  = fold_left parsePair (strings_Fields b) (usageAfterPairs a).
Proof. unfold usageAfterPairs. rewrite Fields_app_SP, fold_left_app. reflexivity. Qed.

Lemma fieldsFrom_printable (tok : string) :
  allPrintable tok = true -> fieldsFrom 0 tok = (tok, []).
Proof.
  induction tok as [|c s IH]; [reflexivity|].
  cbn [allPrintable]. rewrite !andb_true_iff, N.leb_le, N.ltb_lt.
  intros [[Hlo Hhi] Hs]. cbn [fieldsFrom].
  rewrite (spaceWidth_printable c s Hlo Hhi), (IH Hs). reflexivity.
Qed.

(** A non-empty string of printable characters is one field. *)
Lemma Fields_printable (tok : string) :
  allPrintable tok = true -> tok <> "" -> strings_Fields tok = [tok].
Proof.
  intros Hp Hne. unfold strings_Fields. rewrite (fieldsFrom_printable tok Hp).
  destruct tok; [congruence | reflexivity].
Qed.

Lemma allPrintable_app (a b : string) :
  allPrintable (a +:+ b) = allPrintable a && allPrintable b.
Proof.
  induction a as [|c a IH]; [reflexivity|].
  rewrite append_cons. cbn [allPrintable]. rewrite IH, andb_assoc. reflexivity.
Qed.

Lemma allDigits_printable (s : string) : allDigits s = true -> allPrintable s = true.
Proof.
  induction s as [|c s IH]; [reflexivity|]. cbn [allDigits allPrintable].
  rewrite !andb_true_iff, N.leb_le, N.ltb_lt. intros [Hc Hs].
  apply isDigit_code in Hc. split; [lia | apply IH, Hs].
Qed.

Lemma base10_printable (v : string) :
  isBase10Integer v = true -> allPrintable v = true /\ v <> "".
Proof.
  unfold isBase10Integer. destruct v as [|c v]; [discriminate|].
  intros H. split; [|discriminate].
  destruct (isSign c) eqn:Es.
  - apply andb_true_iff in H as [_ Hd]. cbn [allPrintable].
    rewrite (allDigits_printable v Hd), andb_true_r, andb_true_iff, N.leb_le, N.ltb_lt.
    apply isSign_code in Es. lia.
  - apply allDigits_printable, H.
Qed.

Lemma cutAt_app (sep : ascii) (key v : string) :
  hasByte sep key = false -> cutAt sep (key +:+ String sep v) = Some (key, v).
Proof.
  induction key as [|c key IH]; intros H.
  - rewrite append_nil_l. simpl. rewrite Ascii.eqb_refl. reflexivity.
  - rewrite append_cons. simpl in *. apply orb_false_iff in H as [Hc Hk].
    rewrite Hc, (IH Hk). reflexivity.
Qed.

(** A base-10 integer outside the range of [int] is an error for [%d]. *)
Lemma scanInt_out_of_range (v : string) :
  isBase10Integer v = true ->
  ~ (minInt <= base10Value v <= maxInt) ->
  scanInt v = None.
Proof.
  unfold isBase10Integer, scanInt, base10Value, parseIntRange, minInt, maxInt.
  destruct v as [|c v]; [discriminate|].
  fold (isSign c). destruct (isSign c) eqn:Es.
  - intros H Hr. apply andb_true_iff in H as [Hne Hd].
    destruct v as [|d v]; [discriminate|].
    pose proof Hd as Hd'. cbn [allDigits] in Hd'. apply andb_true_iff in Hd' as [Ed _].
    rewrite Ed, scanDigits_0, (digitPrefix_allDigits _ Hd).
    pose proof (scanDigits_nonneg (String d v) 0 (Z.le_refl 0)) as Hpos.
    rewrite scanDigits_0, (digitPrefix_allDigits _ Hd) in Hpos.
    destruct (isSign_cases c Es) as [E|[E E']]; rewrite E in *.
    + destruct (Z.leb_spec (positional (String d v)) (2 ^ 63)); [lia | reflexivity].
    + rewrite E' in *.
      destruct (Z.leb_spec (positional (String d v)) (2 ^ 63 - 1)); [lia | reflexivity].
  - intros Hd Hr. destruct (isSign_false c Es) as [E E']. rewrite E, E' in *.
    pose proof Hd as Hd'. cbn [allDigits] in Hd'. apply andb_true_iff in Hd' as [Ed _].
    rewrite Ed, scanDigits_0, (digitPrefix_allDigits _ Hd).
    pose proof (scanDigits_nonneg (String c v) 0 (Z.le_refl 0)) as Hpos.
    rewrite scanDigits_0, (digitPrefix_allDigits _ Hd) in Hpos.
    destruct (Z.leb_spec (positional (String c v)) (2 ^ 63 - 1)); [lia | reflexivity].
Qed.

Lemma Sscanf_d_base10_start (v : string) :
  isBase10Integer v = true -> fmt_Sscanf_d v = scanInt v.
Proof.
  intros Hv. apply Sscanf_d_no_space.
  unfold isBase10Integer in Hv. destruct v as [|c v]; [discriminate|].
  destruct (isSign c) eqn:Es.
  - apply isSign_code in Es. apply spaceWidth_printable; lia.
  - cbn [allDigits] in Hv. apply andb_true_iff in Hv as [Ed _].
    apply isDigit_code in Ed. apply spaceWidth_printable; lia.
Qed.

(** X5: a pair whose value is a base-10 integer outside the range of
    [int] is skipped like a pair without a number: the record is left as it
    was, for a key that the parser knows too. *)
Theorem pair_with_overflowing_value_is_skipped :
  forall (u : LLMTokenUsage.t) (key v : string),
    hasByte "=" key = false ->
    isBase10Integer v = true ->
    ~ (minInt <= base10Value v <= maxInt) ->
    parsePair u (key +:+ String "=" v) = u.
Proof.
  intros u key v Hkey Hv Hr. unfold parsePair, strings_SplitN_2.
  rewrite (cutAt_app "=" key v Hkey).
  rewrite (Sscanf_d_base10_start v Hv), (scanInt_out_of_range v Hv Hr).
  reflexivity.
Qed.

(** X5 on 2^63, one more than the largest [int]. *)
Lemma pair_with_overflowing_value_is_skipped_witness :
  parsePair (LLMTokenUsage.mk 1 2 3 4) ("total_tokens" +:+ String "=" "9223372036854775808")
  = LLMTokenUsage.mk 1 2 3 4.
Proof.
  apply pair_with_overflowing_value_is_skipped.
  - reflexivity.
  - reflexivity.
  - vm_compute. intros [_ H]. apply H. reflexivity.
Defined.

Lemma parsePair_commute (u : LLMTokenUsage.t) (t1 t2 : string) :
  pairKey t1 <> pairKey t2 ->
  parsePair (parsePair u t1) t2 = parsePair (parsePair u t2) t1.
Proof.
  unfold pairKey, parsePair, strings_SplitN_2.
  destruct (cutAt "=" t1) as [[k1 v1]|], (cutAt "=" t2) as [[k2 v2]|];
    try reflexivity.
  intros Hne. destruct u as [t i o c].
  destruct (fmt_Sscanf_d v1) as [n1|], (fmt_Sscanf_d v2) as [n2|]; try reflexivity.
  destruct (String.eqb_spec k1 "total_tokens") as [->|?];
    [|destruct (String.eqb_spec k1 "prompt_tokens") as [->|?];
      [|destruct (String.eqb_spec k1 "completion_tokens") as [->|?];
        [|destruct (String.eqb_spec k1 "cached_prompt_tokens") as [->|?]]]];
    (destruct (String.eqb_spec k2 "total_tokens") as [->|?];
     [|destruct (String.eqb_spec k2 "prompt_tokens") as [->|?];
       [|destruct (String.eqb_spec k2 "completion_tokens") as [->|?];
         [|destruct (String.eqb_spec k2 "cached_prompt_tokens") as [->|?]]]]);
    first [reflexivity | congruence].
Qed.

(** X6: two neighbouring pairs with different keys can change places: the
    result of the parser is the same. *)
Theorem pairs_with_different_keys_commute :
  forall a b t1 t2 : string,
    strings_Fields t1 = [t1] -> strings_Fields t2 = [t2] ->
    pairKey t1 <> pairKey t2 ->
    parseCrewAITokenUsage (a +:+ String SP (t1 +:+ String SP (t2 +:+ String SP b)))
    = parseCrewAITokenUsage (a +:+ String SP (t2 +:+ String SP (t1 +:+ String SP b))).
Proof.
  intros a b t1 t2 H1 H2 Hne.
  rewrite !parseCrewAITokenUsage_unfold. unfold usageAfterPairs.
  rewrite !Fields_app_SP, H1, H2, !fold_left_app. cbn [fold_left].
  rewrite (parsePair_commute _ t1 t2 Hne). reflexivity.
Qed.

(** X6 on the first two pairs of the documented example. *)
Lemma pairs_with_different_keys_commute_witness :
  parseCrewAITokenUsage
    ("" +:+ String SP ("total_tokens=57062" +:+ String SP
                        ("prompt_tokens=46376" +:+ String SP "completion_tokens=10686")))
  = parseCrewAITokenUsage
      ("" +:+ String SP ("prompt_tokens=46376" +:+ String SP
                          ("total_tokens=57062" +:+ String SP "completion_tokens=10686"))).
Proof.
  apply pairs_with_different_keys_commute.
  - vm_compute. reflexivity.
  - vm_compute. reflexivity.
  - vm_compute. discriminate.
Defined.

(** X7: the pairs are applied from left to right, so the last pair for a
    key decides: after any text, a known key with a base-10 integer in the
    range of [int] leaves that integer in its field, and the other fields
    as the text before left them. *)
Theorem last_pair_for_a_key_decides :
  forall (a key v : string) (field : LLMTokenUsage.t -> Z),
    recognizedField key = Some field ->
    isBase10Integer v = true ->
    minInt <= base10Value v <= maxInt ->
    field (usageAfterPairs (a +:+ String SP (key +:+ String "=" v))) = base10Value v
    /\ forall key' field',
         recognizedField key' = Some field' -> key' <> key ->
         field' (usageAfterPairs (a +:+ String SP (key +:+ String "=" v)))
         = field' (usageAfterPairs a).
Proof.
  intros a key v field Hkey Hv Hr. rewrite usageAfterPairs_app_SP.
  assert (Hone : strings_Fields (key +:+ String "=" v) = [key +:+ String "=" v]).
  { apply Fields_printable.
    - rewrite allPrintable_app. cbn [allPrintable].
      destruct (base10_printable v Hv) as [-> _]. unfold recognizedField in Hkey.
      destruct (String.eqb_spec key "total_tokens") as [->|_]; [reflexivity|].
      destruct (String.eqb_spec key "prompt_tokens") as [->|_]; [reflexivity|].
      destruct (String.eqb_spec key "completion_tokens") as [->|_]; [reflexivity|].
      destruct (String.eqb_spec key "cached_prompt_tokens") as [->|_];
        [reflexivity | discriminate].
    - intros H. apply append_eq_nil in H as [_ H]. discriminate. }
  rewrite Hone. cbn [fold_left]. apply parsePair_accepts; assumption.
Qed.

(** X7 on a total that is given twice. *)
Lemma last_pair_for_a_key_decides_witness :
  LLMTokenUsage.TotalTokens
    (usageAfterPairs ("total_tokens=5 prompt_tokens=3" +:+ String SP
                        ("total_tokens" +:+ String "=" "8"))) = 8.
Proof.
  apply (last_pair_for_a_key_decides "total_tokens=5 prompt_tokens=3" "total_tokens" "8"
           LLMTokenUsage.TotalTokens).
  - reflexivity.
  - reflexivity.
  - vm_compute. split; discriminate.
Defined.

(** X8: spaces before the first pair, after the last one and repeated
    between two pairs change nothing. *)
Theorem surrounding_and_repeated_spaces_are_ignored :
  forall a b : string,
    parseCrewAITokenUsage (String SP a) = parseCrewAITokenUsage a
    /\ parseCrewAITokenUsage (a +:+ String SP "") = parseCrewAITokenUsage a
    /\ parseCrewAITokenUsage (a +:+ String SP (String SP b))
       = parseCrewAITokenUsage (a +:+ String SP b).
Proof.
  intros a b.
  assert (Hlead : forall s, strings_Fields (String SP s) = strings_Fields s).
  { intros s. change (String SP s) with ("" +:+ String SP s).
    rewrite Fields_app_SP. reflexivity. }
  rewrite !parseCrewAITokenUsage_unfold. unfold usageAfterPairs.
  rewrite Hlead, !Fields_app_SP, Hlead.
  change (strings_Fields "") with (@nil string). rewrite app_nil_r.
  repeat split; reflexivity.
Qed.

(* ===================================================================== *)
(** * Token usage: writing and reading back *)
(* ===================================================================== *)

Lemma digitChar_spec (d : Z) :
  0 <= d <= 9 -> isDigit (digitChar d) = true /\ digitVal (digitChar d) = d.
Proof.
  intros H.
  assert (Hd : d = 0 \/ d = 1 \/ d = 2 \/ d = 3 \/ d = 4 \/ d = 5 \/ d = 6
               \/ d = 7 \/ d = 8 \/ d = 9) by lia.
  repeat (destruct Hd as [->|Hd]; [split; reflexivity|]).
  subst d. split; reflexivity.
Qed.

Lemma positional_cons (d : ascii) (rest : string) :
  positional (String d rest)
  = digitVal d * 10 ^ Z.of_nat (String.length rest) + positional rest.
Proof. reflexivity. Qed.

Lemma decimalFuel_spec (fuel : nat) :
  forall n acc,
    0 <= n < 2 ^ Z.of_nat fuel -> (0 < fuel)%nat -> allDigits acc = true ->
    allDigits (decimalFuel fuel n acc) = true
    /\ decimalFuel fuel n acc <> ""
    /\ positional (decimalFuel fuel n acc)
       = n * 10 ^ Z.of_nat (String.length acc) + positional acc.
Proof.
  induction fuel as [|fuel IH]; intros n acc Hn Hfuel Hacc; [lia|].
  cbn [decimalFuel].
  assert (Hmod : 0 <= n mod 10 <= 9) by (pose proof (Z.mod_pos_bound n 10); lia).
  destruct (digitChar_spec (n mod 10) Hmod) as [Hdig Hval].
  assert (Hacc' : allDigits (String (digitChar (n mod 10)) acc) = true)
    by (cbn [allDigits]; rewrite Hdig, Hacc; reflexivity).
  destruct (Z.ltb_spec n 10) as [Hlt|Hge].
  - split; [exact Hacc'|]. split; [discriminate|].
    rewrite positional_cons, Hval, Z.mod_small by lia. reflexivity.
  - rewrite Nat2Z.inj_succ, Z.pow_succ_r in Hn by lia.
    assert (Hdiv : 0 <= n / 10 < 2 ^ Z.of_nat fuel).
    { split; [apply Z.div_pos; lia|]. apply Z.div_lt_upper_bound; lia. }
    assert (Hfuel' : (0 < fuel)%nat).
    { destruct fuel; [|lia]. simpl in Hn. lia. }
    destruct (IH (n / 10) _ Hdiv Hfuel' Hacc') as (Hall & Hne & Hpos).
    split; [exact Hall|]. split; [exact Hne|].
    rewrite Hpos, positional_cons, Hval. cbn [String.length].
    rewrite Nat2Z.inj_succ, Z.pow_succ_r by lia.
    rewrite (Z.div_mod n 10) at 3 by lia. ring.
Qed.

Lemma decimal_spec (n : Z) :
  0 <= n ->
  allDigits (decimal n) = true /\ decimal n <> "" /\ positional (decimal n) = n.
Proof.
  intros Hn. unfold decimal.
  assert (Hb : 0 <= n < 2 ^ Z.of_nat (S (Z.to_nat (Z.log2 n)))).
  { split; [exact Hn|]. rewrite Nat2Z.inj_succ, Z2Nat.id by apply Z.log2_nonneg.
    destruct (Z.eq_dec n 0) as [->|Hne]; [reflexivity|].
    apply Z.log2_spec. lia. }
  destruct (decimalFuel_spec _ n "" Hb) as (Hall & Hne & Hpos);
    [lia | reflexivity|].
  split; [exact Hall|]. split; [exact Hne|]. rewrite Hpos. simpl. lia.
Qed.

Lemma isDigit_not_sign (c : ascii) : isDigit c = true -> isSign c = false.
Proof.
  intros Hd. apply isDigit_code in Hd.
  destruct (isSign c) eqn:Es; [|reflexivity].
  apply isSign_code in Es. lia.
Qed.

(** The decimal notation of a natural number is a base-10 integer with the
    number as its value. *)
Lemma decimal_base10 (n : Z) :
  0 <= n -> isBase10Integer (decimal n) = true /\ base10Value (decimal n) = n.
Proof.
  intros Hn. destruct (decimal_spec n Hn) as (Hall & Hne & Hpos).
  unfold isBase10Integer, base10Value.
  destruct (decimal n) as [|c s]; [congruence|].
  pose proof Hall as Hc. cbn [allDigits] in Hc. apply andb_true_iff in Hc as [Hc _].
  pose proof (isDigit_not_sign c Hc) as Hs. rewrite Hs.
  destruct (isSign_false c Hs) as [E E']. rewrite E, E'.
  split; assumption.
Qed.

Lemma parsePair_scanned (u : LLMTokenUsage.t) (key v : string) :
  hasByte "=" key = false ->
  isBase10Integer v = true ->
  minInt <= base10Value v <= maxInt ->
  parsePair u (key +:+ String "=" v)
  = if String.eqb key "total_tokens"
    then LLMTokenUsage.mk (base10Value v) (LLMTokenUsage.InputTokens u)
           (LLMTokenUsage.OutputTokens u) (LLMTokenUsage.CacheReadInputTokens u)
    else if String.eqb key "prompt_tokens"
    then LLMTokenUsage.mk (LLMTokenUsage.TotalTokens u) (base10Value v)
           (LLMTokenUsage.OutputTokens u) (LLMTokenUsage.CacheReadInputTokens u)
    else if String.eqb key "completion_tokens"
    then LLMTokenUsage.mk (LLMTokenUsage.TotalTokens u) (LLMTokenUsage.InputTokens u)
           (base10Value v) (LLMTokenUsage.CacheReadInputTokens u)
    else if String.eqb key "cached_prompt_tokens"
    then LLMTokenUsage.mk (LLMTokenUsage.TotalTokens u) (LLMTokenUsage.InputTokens u)
           (LLMTokenUsage.OutputTokens u) (base10Value v)
    else u.
Proof.
  intros Hkey Hv Hr. unfold parsePair, strings_SplitN_2.
  rewrite (cutAt_app "=" key v Hkey), (Sscanf_d_base10 v Hv Hr).
  destruct u as [t i o c]. reflexivity.
Qed.

Lemma pair_is_one_field (key v : string) :
  allPrintable key = true -> isBase10Integer v = true ->
  strings_Fields (key +:+ String "=" v) = [key +:+ String "=" v].
Proof.
  intros Hk Hv. apply Fields_printable.
  - rewrite allPrintable_app. cbn [allPrintable].
    destruct (base10_printable v Hv) as [-> _]. rewrite Hk. reflexivity.
  - intros H. apply append_eq_nil in H as [_ H]. discriminate.
Qed.

(** X9: a record written in the format that the parser documents is read
    back as it was: for counts in the range of [int], one of total, prompt
    and completion being positive, parsing the text gives the record of
    these counts, and the count of successful requests is left out. *)
Theorem token_usage_round_trip :
  forall total prompt cached completion requests : Z,
    0 <= total <= maxInt -> 0 <= prompt <= maxInt -> 0 <= cached <= maxInt ->
    0 <= completion <= maxInt -> 0 <= requests <= maxInt ->
    0 < total \/ 0 < prompt \/ 0 < completion ->
    parseCrewAITokenUsage (formatTokenUsage total prompt cached completion requests)
    = Some (LLMTokenUsage.mk total prompt completion cached).
Proof.
  intros total prompt cached completion requests Ht Hp Hc Ho Hr Hpos.
  assert (Hmin : minInt <= 0) by (unfold minInt; lia).
  destruct (decimal_base10 total) as [Bt Vt]; [lia|].
  destruct (decimal_base10 prompt) as [Bp Vp]; [lia|].
  destruct (decimal_base10 cached) as [Bc Vc]; [lia|].
  destruct (decimal_base10 completion) as [Bo Vo]; [lia|].
  destruct (decimal_base10 requests) as [Br Vr]; [lia|].
  rewrite parseCrewAITokenUsage_unfold.
  assert (E : usageAfterPairs (formatTokenUsage total prompt cached completion requests)
              = LLMTokenUsage.mk total prompt completion cached).
  { unfold usageAfterPairs, formatTokenUsage.
    change ("total_tokens=" +:+ decimal total)
      with ("total_tokens" +:+ String "=" (decimal total)).
    change ("prompt_tokens=" +:+ decimal prompt)
      with ("prompt_tokens" +:+ String "=" (decimal prompt)).
    change ("cached_prompt_tokens=" +:+ decimal cached)
      with ("cached_prompt_tokens" +:+ String "=" (decimal cached)).
    change ("completion_tokens=" +:+ decimal completion)
      with ("completion_tokens" +:+ String "=" (decimal completion)).
    change ("successful_requests=" +:+ decimal requests)
      with ("successful_requests" +:+ String "=" (decimal requests)).
    rewrite !Fields_app_SP, !pair_is_one_field by (assumption || reflexivity).
    cbn [app fold_left].
    rewrite !parsePair_scanned by (first [reflexivity | assumption | lia]).
    cbn [String.eqb Ascii.eqb Bool.eqb LLMTokenUsage.TotalTokens
           LLMTokenUsage.InputTokens LLMTokenUsage.OutputTokens
           LLMTokenUsage.CacheReadInputTokens LLMTokenUsage.zero].
    rewrite Vt, Vp, Vc, Vo. reflexivity. }
  rewrite E.
  assert (Hguard : hasPositive (LLMTokenUsage.mk total prompt completion cached) = true)
    by (apply hasPositive_spec; exact Hpos).
  rewrite Hguard. reflexivity.
Qed.

(** X9 on the counts of the documented example. *)
Lemma token_usage_round_trip_witness :
  formatTokenUsage 57062 46376 0 10686 10
  = "total_tokens=57062 prompt_tokens=46376 cached_prompt_tokens=0 completion_tokens=10686 successful_requests=10"
  /\ parseCrewAITokenUsage (formatTokenUsage 57062 46376 0 10686 10)
     = Some (LLMTokenUsage.mk 57062 46376 10686 0).
Proof.
  split; [vm_compute; reflexivity|].
  apply token_usage_round_trip; unfold maxInt; lia.
Defined.

(* ===================================================================== *)
(** * The CORS middleware *)
(* ===================================================================== *)

Lemma Header_Add_lookup (h : Header) (key value k : string) :
  Header_Add h key value !! k
  = if decide (key = k) then Some (default [] (h !! key) ++ [value]) else h !! k.
Proof. unfold Header_Add. apply lookup_insert. Qed.

Lemma Header_Set_lookup (h : Header) (key value k : string) :
  Header_Set h key value !! k = if decide (key = k) then Some [value] else h !! k.
Proof. unfold Header_Set. apply lookup_insert. Qed.

(** The header map once the three Vary values are added. *)
Lemma vary_added_lookup (h : Header) (k : string) :
  Header_Add (Header_Add (Header_Add h "Vary" "Origin")
                "Vary" "Access-Control-Request-Method")
    "Vary" "Access-Control-Request-Headers" !! k
  = if decide ("Vary" = k) then Some (default [] (h !! "Vary") ++ varyValues)
    else h !! k.
Proof.
  rewrite !Header_Add_lookup.
  rewrite !(decide_True (P := "Vary" = "Vary")) by reflexivity.
  destruct (decide ("Vary" = k)) as [<-|Hne]; [|reflexivity].
  cbn [from_option id]. rewrite <- !app_assoc. reflexivity.
Qed.

(** What the handler leaves under each header name. *)
Lemma corsHeaders_lookup (allowedOrigin : string) (r : Request.t) (h : Header)
    (k : string) :
  corsHeaders allowedOrigin r h !! k
  = let matched := matchedOrigin allowedOrigin (Header_Get (Request.Header r) "Origin") in
    if decide (k = "Vary") then Some (default [] (h !! "Vary") ++ varyValues)
    else if String.eqb matched "" then h !! k
    else if decide (k = "Access-Control-Max-Age") then Some ["86400"]
    else if decide (k = "Access-Control-Allow-Headers")
    then Some ["Authorization, Content-Type, X-Requested-With, Accept, Origin, x-correlation-id"]
    else if decide (k = "Access-Control-Allow-Methods")
    then Some ["GET, POST, PUT, PATCH, DELETE, OPTIONS"]
    else if decide (k = "Access-Control-Allow-Credentials")
    then (if String.eqb matched "*" then h !! k else Some ["true"])
    else if decide (k = "Access-Control-Allow-Origin") then Some [matched]
    else h !! k.
Proof.
  unfold corsHeaders. cbv zeta.
  destruct (String.eqb (matchedOrigin allowedOrigin (Header_Get (Request.Header r) "Origin")) "");
    cbn [negb].
  - rewrite vary_added_lookup.
    destruct (decide (k = "Vary")) as [->|Hne]; [reflexivity|].
    rewrite decide_False by congruence. reflexivity.
  - destruct (String.eqb (matchedOrigin allowedOrigin (Header_Get (Request.Header r) "Origin")) "*");
      cbn [negb]; rewrite !Header_Set_lookup, vary_added_lookup;
      repeat match goal with
             | |- context [decide (k = ?x)] => destruct (decide (k = x)) as [->|?]
             end;
      repeat match goal with
             | |- context [decide (?x = ?y)] =>
                 first [rewrite (decide_True (P := x = y)) by reflexivity
                       | rewrite (decide_False (P := x = y)) by congruence]
             end; reflexivity.
Qed.

(** X10: the handler always adds Origin, Access-Control-Request-Method and
    Access-Control-Request-Headers to Vary, in this order, after the values
    that Vary has, whatever the request and the allowed list are. *)
Theorem cors_always_adds_vary :
  forall (allowedOrigin : string) (r : Request.t) (h : Header),
    corsHeaders allowedOrigin r h !! "Vary"
    = Some (default [] (h !! "Vary")
            ++ ["Origin"; "Access-Control-Request-Method";
                "Access-Control-Request-Headers"]).
Proof.
  intros allowedOrigin r h. rewrite corsHeaders_lookup. cbv zeta.
  rewrite decide_True by reflexivity. reflexivity.
Qed.

Lemma matchOrigin_spec (origin : string) (entries : list string) :
  (matchOrigin origin entries = ""
   /\ (origin = "" \/ forall e, In e (map strings_TrimSpace entries) -> e <> "*" /\ e <> origin))
  \/ (matchOrigin origin entries <> ""
      /\ (matchOrigin origin entries = "*" \/ matchOrigin origin entries = origin)
      /\ In (matchOrigin origin entries) (map strings_TrimSpace entries)).
Proof.
  induction entries as [|entry entries IH]; cbn [matchOrigin map].
  - left. split; [reflexivity|]. right. intros e [].
  - destruct (String.eqb_spec (strings_TrimSpace entry) "*") as [Estar|Hstar].
    + right. split; [discriminate|]. split; [left; reflexivity|].
      left. exact Estar.
    + destruct (String.eqb_spec origin (strings_TrimSpace entry)) as [Eo|Ho].
      * destruct (String.eqb_spec origin "") as [->|Hne].
        -- left. split; [reflexivity | left; reflexivity].
        -- right. split; [exact Hne|]. split; [right; reflexivity|].
           left. symmetry. exact Eo.
      * destruct IH as [(E & Hnone)|(Hne & Hval & Hin)].
        -- left. split; [exact E|]. destruct Hnone as [->|Hnone]; [left; reflexivity|].
           right. intros e [<-|He]; [split; congruence | apply Hnone, He].
        -- right. split; [exact Hne|]. split; [exact Hval | right; exact Hin].
Qed.

(** X11: an origin is matched exactly when the request has a non-empty
    Origin and the allowed list has the entry "*" or the origin among its
    trimmed entries; the matched value is then "*" or the origin itself (the
    origin when the list has no "*"), and it is an entry of the list. *)
Theorem cors_matched_origin_is_listed :
  forall allowedOrigin origin : string,
    (matchedOrigin allowedOrigin origin <> ""
     <-> origin <> ""
         /\ (In "*" (allowedEntries allowedOrigin)
             \/ In origin (allowedEntries allowedOrigin)))
    /\ (matchedOrigin allowedOrigin origin <> "" ->
        (matchedOrigin allowedOrigin origin = "*"
         \/ matchedOrigin allowedOrigin origin = origin)
        /\ In (matchedOrigin allowedOrigin origin) (allowedEntries allowedOrigin))
    /\ (~ In "*" (allowedEntries allowedOrigin) ->
        matchedOrigin allowedOrigin origin <> "" ->
        matchedOrigin allowedOrigin origin = origin).
Proof.
  intros allowedOrigin origin. unfold matchedOrigin, allowedEntries.
  destruct (String.eqb_spec origin "") as [->|Hne]; cbn [negb].
  - split; [|split]; [split|..]; try congruence. intros [H _]. congruence.
  - pose proof (matchOrigin_spec origin (strings_Split allowedOrigin ",")) as Hspec.
    split; [|split].
    + split.
      * intros Hm. split; [exact Hne|].
        destruct Hspec as [(E & _)|(_ & [Hv|Hv] & Hin)]; [congruence| |];
          rewrite Hv in Hin; [left | right]; exact Hin.
      * intros [_ Hin] Hm.
        destruct Hspec as [(_ & [E|Hnone])|(Hnz & _)]; [congruence| |congruence].
        destruct Hin as [Hin|Hin]; apply Hnone in Hin; destruct Hin; congruence.
    + intros Hm. destruct Hspec as [(E & _)|(_ & Hv & Hin)]; [congruence|].
      split; assumption.
    + intros Hnostar Hm.
      destruct Hspec as [(E & _)|(_ & [Hv|Hv] & Hin)]; [congruence| |exact Hv].
      rewrite Hv in Hin. contradiction.
Qed.

(** X12: without an Origin on the request, or with an origin that the
    allowed list does not match, the handler touches no header but Vary. *)
Theorem cors_unmatched_origin_touches_only_vary :
  forall (allowedOrigin : string) (r : Request.t) (h : Header) (k : string),
    matchedOrigin allowedOrigin (Header_Get (Request.Header r) "Origin") = "" ->
    k <> "Vary" ->
    corsHeaders allowedOrigin r h !! k = h !! k.
Proof.
  intros allowedOrigin r h k Hm Hk. rewrite corsHeaders_lookup. cbv zeta.
  rewrite Hm, decide_False by exact Hk. reflexivity.
Qed.

(** X12 on a request without headers. *)
Lemma cors_unmatched_origin_touches_only_vary_witness :
  corsHeaders "https://console.example.com" (Request.mk "GET" ∅)
    {[ "Content-Type" := ["application/json"] ]} !! "Access-Control-Allow-Origin"
  = ({[ "Content-Type" := ["application/json"] ]} : Header) !! "Access-Control-Allow-Origin".
Proof.
  apply cors_unmatched_origin_touches_only_vary.
  - reflexivity.
  - discriminate.
Defined.

Lemma matchedOrigin_values (allowedOrigin origin : string) :
  matchedOrigin allowedOrigin origin = ""
  \/ (matchedOrigin allowedOrigin origin = "*"
      \/ matchedOrigin allowedOrigin origin = origin).
Proof.
  unfold matchedOrigin. destruct (String.eqb origin ""); cbn [negb];
    [left; reflexivity|].
  destruct (matchOrigin_spec origin (strings_Split allowedOrigin ","))
    as [(E & _)|(_ & Hv & _)]; [left; exact E | right; exact Hv].
Qed.

(** X13: the handler writes Access-Control-Allow-Origin with the matched
    value only, and Access-Control-Allow-Credentials only beside an origin
    that is not "*": with the wildcard matched, the credentials header is
    left as it was; with an origin matched, both headers are written, the
    first with the origin of the request. *)
Theorem cors_credentials_only_for_exact_origin :
  forall (allowedOrigin : string) (r : Request.t) (h : Header),
    let origin := Header_Get (Request.Header r) "Origin" in
    let matched := matchedOrigin allowedOrigin origin in
    (matched = "*" ->
     corsHeaders allowedOrigin r h !! "Access-Control-Allow-Origin" = Some ["*"]
     /\ corsHeaders allowedOrigin r h !! "Access-Control-Allow-Credentials"
        = h !! "Access-Control-Allow-Credentials")
    /\ (matched <> "" -> matched <> "*" ->
        matched = origin
        /\ corsHeaders allowedOrigin r h !! "Access-Control-Allow-Origin" = Some [origin]
        /\ corsHeaders allowedOrigin r h !! "Access-Control-Allow-Credentials"
           = Some ["true"]).
Proof.
  intros allowedOrigin r h origin matched. split.
  - intros Hm. rewrite !corsHeaders_lookup. cbv zeta. fold origin. fold matched.
    rewrite Hm. split; reflexivity.
  - intros Hne Hstar.
    destruct (matchedOrigin_values allowedOrigin origin) as [Hv|Hv];
      fold matched in Hv; [congruence|].
    assert (Heq : matched = origin).
    { destruct Hv as [Hv|Hv]; [congruence | exact Hv]. }
    split; [exact Heq|].
    rewrite !corsHeaders_lookup. cbv zeta. fold origin. fold matched.
    rewrite (proj2 (String.eqb_neq matched "") Hne).
    rewrite (proj2 (String.eqb_neq matched "*") Hstar).
    rewrite Heq. split; reflexivity.
Qed.

(** X14: a preflight request (method OPTIONS) is answered by the
    middleware itself: the wrapped handler is not run (the response is the
    same for every wrapped handler), the headers are the ones the handler
    wrote and the status is 204 unless one was written before; any other
    request goes to the wrapped handler once, with these headers written
    and the status untouched. *)
Theorem cors_preflight_is_answered_directly :
  forall (allowedOrigin : string)
         (next : ResponseWriter.t -> Request.t -> ResponseWriter.t)
         (w : ResponseWriter.t) (r : Request.t),
    (Request.Method r = "OPTIONS" ->
     (forall next', CORS allowedOrigin next' w r = CORS allowedOrigin next w r)
     /\ ResponseWriter.Header (CORS allowedOrigin next w r)
        = corsHeaders allowedOrigin r (ResponseWriter.Header w)
     /\ ResponseWriter.Status (CORS allowedOrigin next w r)
        = match ResponseWriter.Status w with
          | Some code => Some code
          | None => Some 204
          end)
    /\ (Request.Method r <> "OPTIONS" ->
        CORS allowedOrigin next w r
        = next (ResponseWriter.mk (corsHeaders allowedOrigin r (ResponseWriter.Header w))
                                  (ResponseWriter.Status w)) r).
Proof.
  intros allowedOrigin next w r. unfold CORS. split.
  - intros Hm. rewrite Hm. cbn [String.eqb Ascii.eqb Bool.eqb].
    split; [reflexivity|].
    destruct w as [h [code|]]; split; reflexivity.
  - intros Hm. rewrite (proj2 (String.eqb_neq _ _) Hm). reflexivity.
Qed.

Lemma Split_nonempty (s : string) (sep : ascii) :
  exists piece pieces, strings_Split s sep = piece :: pieces.
Proof.
  destruct s as [|c s]; cbn [strings_Split]; [eauto|].
  destruct (Ascii.eqb c sep); [eauto|].
  destruct (strings_Split s sep); eauto.
Qed.

(** [strings.Split] on two strings joined by the separator. *)
Lemma Split_app (a b : string) (sep : ascii) :
  strings_Split (a +:+ String sep b) sep = strings_Split a sep ++ strings_Split b sep.
Proof.
  induction a as [|c a IH].
  - rewrite append_nil_l. cbn [strings_Split]. rewrite Ascii.eqb_refl. reflexivity.
  - rewrite append_cons. cbn [strings_Split]. rewrite IH.
    destruct (Ascii.eqb c sep); [reflexivity|].
    destruct (Split_nonempty a sep) as (piece & pieces & ->). reflexivity.
Qed.

Lemma TrimSpace_leading_SP (s : string) :
  strings_TrimSpace (String SP s) = strings_TrimSpace s.
Proof. reflexivity. Qed.

Lemma allowedEntries_leading_SP (b : string) :
  allowedEntries (String SP b) = allowedEntries b.
Proof.
  unfold allowedEntries. cbn [strings_Split].
  change (Ascii.eqb SP ",") with false. cbv iota.
  destruct (Split_nonempty b ",") as (piece & pieces & ->).
  cbn [map]. rewrite TrimSpace_leading_SP. reflexivity.
Qed.

Lemma matchOrigin_entries (origin : string) (l1 : list string) :
  forall l2,
    map strings_TrimSpace l1 = map strings_TrimSpace l2 ->
    matchOrigin origin l1 = matchOrigin origin l2.
Proof.
  induction l1 as [|e1 l1 IH]; intros [|e2 l2] H; try discriminate; [reflexivity|].
  cbn [map] in H. injection H as He Hl. cbn [matchOrigin].
  rewrite He, (IH l2 Hl). reflexivity.
Qed.

(** X15: a space after a comma of the allowed list changes nothing: the
    entry behind it is compared trimmed, so "a, b" admits what "a,b"
    admits. *)
Theorem cors_space_after_comma_is_ignored :
  forall a b origin : string,
    matchedOrigin (a +:+ String "," (String SP b)) origin
    = matchedOrigin (a +:+ String "," b) origin.
Proof.
  intros a b origin. unfold matchedOrigin.
  destruct (String.eqb origin ""); cbn [negb]; [reflexivity|].
  apply matchOrigin_entries. rewrite !Split_app, !map_app.
  f_equal. apply allowedEntries_leading_SP.
Qed.

(* ===================================================================== *)
(** * The trace details view *)
(* ===================================================================== *)

Lemma find_first (spans : list UISpan.t) (span : UISpan.t) :
  find hasNoParent spans = Some span ->
  exists before after,
    spans = before ++ span :: after
    /\ hasNoParent span = true
    /\ forall s, In s before -> hasNoParent s = false.
Proof.
  induction spans as [|x spans IH]; [discriminate|]. cbn [find].
  destruct (hasNoParent x) eqn:Ex.
  - intros [= <-]. exists [], spans. split; [reflexivity|].
    split; [exact Ex | intros s []].
  - intros H. destruct (IH H) as (before & after & -> & Hs & Hb).
    exists (x :: before), after. split; [reflexivity|]. split; [exact Hs|].
    intros s [<-|Hin]; [exact Ex | apply Hb, Hin].
Qed.

(** X16: the span that the trace details view selects when the trace
    arrives is one of the spans of the trace: the first span without a
    parent id when there is one, the first span otherwise; nothing is
    selected exactly when the trace is missing, has no span list or has an
    empty one. *)
Theorem initial_selection_is_first_root_or_first_span :
  forall traceDetails : option (option (list UISpan.t)),
    (initialSelectedSpan traceDetails = None
     <-> traceDetails = None \/ traceDetails = Some None \/ traceDetails = Some (Some []))
    /\ (forall span, initialSelectedSpan traceDetails = Some span ->
        exists spans before after,
          traceDetails = Some (Some spans)
          /\ spans = before ++ span :: after
          /\ (forall s, In s before -> hasNoParent s = false)
          /\ (hasNoParent span = true
              \/ (before = [] /\ forall s, In s spans -> hasNoParent s = false))).
Proof.
  intros [[spans|]|]; cbn [initialSelectedSpan].
  - destruct (find hasNoParent spans) as [root|] eqn:Ef.
    + split.
      * split; [discriminate|]. intros [H|[H|H]]; try discriminate.
        injection H as ->. discriminate.
      * intros span [= <-]. destruct (find_first spans root Ef) as (before & after & Hs & Hr & Hb).
        exists spans, before, after. repeat split; auto.
    + destruct spans as [|first rest].
      * split; [split; auto|]. discriminate.
      * split.
        -- split; [discriminate|]. intros [H|[H|H]]; discriminate.
        -- intros span [= <-]. exists (first :: rest), [], rest.
           split; [reflexivity|]. split; [reflexivity|]. split; [intros s []|].
           right. split; [reflexivity|]. intros s Hin.
           apply (find_none hasNoParent _ Ef s Hin).
  - split; [split; auto|]. discriminate.
  - split; [split; auto|]. discriminate.
Qed.
